(** * German real-estate scraper: discovery, cache and concurrent download

    Shallow embedding of [scraper_with_concur.py] and
    [scraper_with_concur_and_price.py] and the properties of their
    listing discovery, file cache and thread-pool download.

    Conventions of the embedding.
    - A Python [str] is a [string] holding its UTF-8 bytes; comparing two
      such strings bytewise orders them as Python orders the code points.
    - The remote site, the disk and the thread scheduler are oracles: every
      theorem quantifies over what they answer.
    - Effects that leave the process (prints, HTTP requests, sleeps, pool
      submissions) are recorded in a trace of events; the saved pages and
      the log file are part of the state.
    - The random part of a sleep and the ETA report (wall-clock floats) are
      not modelled; a sleep event records the integer part of its delay,
      and [eta_interval] is taken to be non-zero.
    - [print], [time.sleep] and the append to the log file are taken to
      succeed; [session.get], [os.makedirs], [open] and [f.write] can
      raise.
    - Paths are POSIX paths. Which file a path names is decided by the file
      system ([htmls_2/a.html] and [htmls_2/./a.html] name one file, links
      and the case rule of the file system can make others coincide): it is
      a parameter, the naming, and the files of the state are kept by the
      file they are, not by the path used to reach them. The scripts create
      no directory but [SAVE_DIR] and remove nothing, and nothing else
      touches the disk during a run, so the naming is the same throughout.
      The log file is taken to be none of the files that the paths of the
      items name. *)

From Stdlib Require Import Ascii.
From stdpp Require Import gmap strings list sorting pretty.

Open Scope string_scope.
Open Scope list_scope.
Open Scope nat_scope.

(** ** Constants shared by both scripts *)

Definition BASE_URL : string := "https://www.bestfewo.de/expose/".
Definition LOG_FILE : string := "download_log.txt".

(** [LISTING_URL.format(page)] *)
Definition LISTING_URL (page : Z) : string :=
  "https://www.bestfewo.de/laender/deutschland?page=" +:+ pretty page.

(** ** Events *)

Inductive event :=
  | EvPrint (line : string)            (* print(line) *)
  | EvGet (url : string)               (* session.get(url, headers=HEADERS, timeout=15) *)
  | EvSleepDelay                       (* time.sleep(random.uniform( *DELAY_RANGE)) *)
  | EvSleepBackoff (oid : string) (base : Z)
                                       (* time.sleep(2 ** attempt + random.uniform(0, 1)) *)
  | EvExists (path : string) (b : bool)(* os.path.exists(path) returned b *)
  | EvSubmit (oid : string)            (* executor.submit(save_html, oid) *)
  | EvStart (oid : string).            (* a pool worker dequeues the work item *)

Global Instance event_eq_dec : EqDecision event.
Proof. solve_decision. Defined.

(** ** Listing pages *)

(** What fetching and parsing one listing page gives: an exception raised
    by [session.get], [raise_for_status] or [BeautifulSoup] (with its
    [str(e)]), or the selected elements in document order. *)
Inductive page_response (A : Type) :=
  | PageRaises (e : string)
  | PageParsed (elems : list A).
Arguments PageRaises {A} e.
Arguments PageParsed {A} elems.

(** Python truth value of [tag.get("data-objectid")]: [None] and the empty
    string are false. *)
Definition truthy (o : option string) : option string :=
  match o with
  | Some s => if decide (s = "") then None else Some s
  | None => None
  end.

(** [f"❌ Failed to fetch page {page}: {e}"] *)
Definition failed_page_line (page : Z) (e : string) : string :=
  "❌ Failed to fetch page " +:+ pretty page +:+ ": " +:+ e.

(** [f"Fetching page {page} -> {url}"] *)
Definition fetching_line (page : Z) : string :=
  "Fetching page " +:+ pretty page +:+ " -> " +:+ LISTING_URL page.

(** [range(1, pages + 1)] *)
Definition page_range (pages : Z) : list Z := seqZ 1 pages.

(** The events of one iteration of the page loop of either script. *)
Definition page_events {A} (web : Z → page_response A) (page : Z) : list event :=
  [EvPrint (fetching_line page); EvGet (LISTING_URL page)]
  ++ match web page with
     | PageParsed _ => [EvSleepDelay]
     | PageRaises e => [EvPrint (failed_page_line page e)]
     end.


(** ** [save_html] and [log_result], common to both scripts *)

(** The state shared by the main thread and the pool workers. *)
Record world := World {
  files : gmap string string;  (* the files on disk: file ↦ content *)
  log : list string;           (* the records appended to LOG_FILE, in order *)
  trace : list event           (* the events so far, in order *)
}.

Definition emit (e : event) (w : world) : world :=
  World (files w) (log w) (trace w ++ [e]).

Definition set_file (file content : string) (w : world) : world :=
  World (<[file := content]> (files w)) (log w) (trace w).

Definition newline : string := String "010"%char EmptyString.

(** [log_result(object_id, success, message)] *)
Definition log_result (object_id : string) (success : bool) (message : string)
    (w : world) : world :=
  let status := if success then "SUCCESS" else "ERROR" in
  World (files w)
        (log w ++ [status +:+ ": " +:+ object_id +:+ " " +:+ message +:+ newline])
        (trace w).

(** What [session.get(link, ...)] followed by [raise_for_status()] gives. *)
Inductive get_result :=
  | GetOk (text : string)             (* a 2xx response and its [response.text] *)
  | GetRequestException (e : string)  (* [requests.RequestException], [str(e)] *)
  | GetException (e : string).        (* any other [Exception] *)

(** What the environment answers during one atomic step. *)
Record answers := Answers {
  a_pick : nat;                       (* which runnable thread takes the step *)
  a_get : string → get_result;        (* per URL *)
  a_makedirs : option string;         (* [os.makedirs] raises with this [str(e)] *)
  a_open : string → option string;    (* [open(path, "w")] raises *)
  a_write : string → option (string * string)
     (* [f.write] raises with [str(e)], leaving this content in the file *)
}.

(** The value [save_html] returns, by return statement. *)
Inductive result :=
  | AlreadySaved (oid : string)        (* line 57 *)
  | FailedAfterRetries (oid : string)  (* line 71 *)
  | Saved (oid : string)               (* line 79 *)
  | Crash (oid e : string).            (* line 83 *)

Global Instance result_eq_dec : EqDecision result.
Proof. solve_decision. Defined.

(** The returned string. *)
Definition message (r : result) : string :=
  match r with
  | AlreadySaved oid => "Already saved: " +:+ oid
  | FailedAfterRetries oid => "❌ Failed after retries: " +:+ oid
  | Saved oid => "Saved: " +:+ oid
  | Crash oid e => "❌ Crash at ID " +:+ oid +:+ ": " +:+ e
  end.

(** The outcome a returned value stands for. *)
Inductive outcome := Success | Skipped | Failed.

Global Instance outcome_eq_dec : EqDecision outcome.
Proof. solve_decision. Defined.

Definition outcome_of (r : result) : outcome :=
  match r with
  | AlreadySaved _ => Skipped
  | Saved _ => Success
  | FailedAfterRetries _ | Crash _ _ => Failed
  end.

Definition result_oid (r : result) : string :=
  match r with
  | AlreadySaved oid | FailedAfterRetries oid | Saved oid | Crash oid _ => oid
  end.

(** Where a worker stands inside [save_html]: the next operation on the
    shared state or on the network that it will perform. *)
Inductive pc :=
  | AtExists                  (* [os.path.exists(file_path)] *)
  | AtGet (attempt : nat)     (* [session.get] of the retry loop *)
  | AtElse                    (* the [else] of the [for] *)
  | AtMakedirs (text : string)(* [os.makedirs(SAVE_DIR, exist_ok=True)] *)
  | AtOpen (text : string)    (* [open(file_path, "w", encoding="utf-8")] *)
  | AtWrite (text : string)   (* [f.write(response.text)] *)
  | AtLogSuccess              (* the sleep, [log_result(object_id, success=True)] *)
  | AtExcept (e : string).    (* the handler of [except Exception as e] *)

Inductive next := Continue (c : pc) | Return (r : result).

(** [f"⚠️ Retry {attempt + 1} for {object_id}: {e}"] *)
Definition retry_line (attempt : nat) (object_id e : string) : string :=
  "⚠️ Retry " +:+ pretty (S attempt) +:+ " for " +:+ object_id +:+ ": " +:+ e.

(** [p.startswith("/")], on a POSIX system *)
Definition is_absolute (p : string) : bool :=
  match p with
  | String c _ => bool_decide (c = "/"%char)
  | EmptyString => false
  end.

(** [p.endswith("/")] *)
Fixpoint ends_with_slash (p : string) : bool :=
  match p with
  | EmptyString => false
  | String c EmptyString => bool_decide (c = "/"%char)
  | String _ rest => ends_with_slash rest
  end.

(** [os.path.join(a, b)] of [posixpath]: an absolute [b] replaces [a]. *)
Definition path_join (a b : string) : string :=
  if is_absolute b then b
  else match a with
       | EmptyString => b
       | _ => if ends_with_slash a then a +:+ b else a +:+ "/" +:+ b
       end.

(** The naming of the file system: the file that a path names. *)
Class Naming := names : string → string.

Module Worker.
Section worker.
Context {fs : Naming}.
Variable SAVE_DIR : string.

(** [os.path.join(SAVE_DIR, f"{object_id}.html")] *)
Definition file_path (object_id : string) : string :=
  path_join SAVE_DIR (object_id +:+ ".html").

(** The file that [file_path] names: what [os.path.exists(file_path)]
    looks for and [open(file_path, "w")] creates or truncates. *)
Definition file_of (object_id : string) : string :=
  names (file_path object_id).

Definition link (object_id : string) : string := BASE_URL +:+ object_id.

(** One atomic step of [save_html(object_id)]. *)
Definition worker_step (a : answers) (object_id : string) (c : pc) (w : world)
    : next * world :=
  match c with
  | AtExists =>
      match files w !! file_of object_id with
      | Some _ => (Return (AlreadySaved object_id),
                   emit (EvExists (file_path object_id) true) w)
      | None => (Continue (AtGet 0),
                 emit (EvExists (file_path object_id) false) w)
      end
  | AtGet attempt =>
      let w := emit (EvGet (link object_id)) w in
      match a_get a (link object_id) with
      | GetOk text => (Continue (AtMakedirs text), w)
      | GetRequestException e =>
          let w := emit (EvPrint (retry_line attempt object_id e)) w in
          let w := emit (EvSleepBackoff object_id (2 ^ Z.of_nat attempt)) w in
          (Continue (if decide (S attempt < 5) then AtGet (S attempt) else AtElse), w)
      | GetException e => (Continue (AtExcept e), w)
      end
  | AtElse =>
      (Return (FailedAfterRetries object_id),
       log_result object_id false "Failed after retries" w)
  | AtMakedirs text =>
      match a_makedirs a with
      | Some e => (Continue (AtExcept e), w)
      | None => (Continue (AtOpen text), w)
      end
  | AtOpen text =>
      match a_open a (file_path object_id) with
      | Some e => (Continue (AtExcept e), w)
      | None => (Continue (AtWrite text), set_file (file_of object_id) "" w)
      end
  | AtWrite text =>
      match a_write a (file_path object_id) with
      | Some (e, partial) =>
          (Continue (AtExcept e), set_file (file_of object_id) partial w)
      | None => (Continue AtLogSuccess, set_file (file_of object_id) text w)
      end
  | AtLogSuccess =>
      (Return (Saved object_id), log_result object_id true "" (emit EvSleepDelay w))
  | AtExcept e =>
      (Return (Crash object_id e), log_result object_id false e w)
  end.

(** [save_html(object_id)] run alone from program point [c]; the
    environment answers step [t] with [env t]. *)
Fixpoint save_html_from (fuel : nat) (env : nat → answers) (t : nat)
    (object_id : string) (c : pc) (w : world) : option (result * world) :=
  match fuel with
  | 0 => None
  | S fuel =>
      match worker_step (env t) object_id c w with
      | (Return r, w') => Some (r, w')
      | (Continue c', w') => save_html_from fuel env (S t) object_id c' w'
      end
  end.

Definition save_html (env : nat → answers) (object_id : string) (w : world)
    : option (result * world) :=
  save_html_from 10 env 0 object_id AtExists w.

(** *** The thread pool of [download_with_eta] *)

Inductive status :=
  | Queued                 (* submitted, no worker has taken it yet *)
  | Running (c : pc)       (* a worker is executing [save_html] *)
  | Done (r : result)      (* the future holds its result *)
  | Reported (r : result). (* [as_completed] has yielded it, result printed *)

Record task := Task { t_oid : string; t_status : status }.

Record pool := Pool {
  pending : list string;   (* items not submitted yet *)
  tasks : list task;       (* the futures, in submission order *)
  shared : world;
  outcomes : list result   (* the results in the order the main loop saw them *)
}.

Inductive action :=
  | Submit                 (* the main thread submits the next item *)
  | Step (i : nat)         (* the worker of task [i] takes a step *)
  | Collect (i : nat).     (* the main loop receives future [i] *)

Definition is_running (t : task) : bool :=
  match t_status t with Running _ => true | _ => false end.

Definition is_queued (t : task) : bool :=
  match t_status t with Queued => true | _ => false end.

Definition running_count (ts : list task) : nat :=
  length (filter (λ t, is_running t = true) ts).

(** Index of the first queued task, if any: the head of the work queue. *)
Fixpoint first_queued (ts : list task) : option nat :=
  match ts with
  | [] => None
  | t :: ts => if is_queued t then Some 0 else S <$> first_queued ts
  end.

Definition applicable (max_workers : nat) (st : pool) (act : action) : bool :=
  match act with
  | Submit => match pending st with [] => false | _ :: _ => true end
  | Step i =>
      match t_status <$> tasks st !! i with
      | Some (Running _) => true
      | Some Queued =>
          bool_decide (first_queued (tasks st) = Some i
                       ∧ running_count (tasks st) < max_workers)
      | _ => false
      end
  | Collect i =>
      match pending st, t_status <$> tasks st !! i with
      | [], Some (Done _) => true
      | _, _ => false
      end
  end.

Definition candidates (st : pool) : list action :=
  Submit :: (Step <$> seq 0 (length (tasks st)))
         ++ (Collect <$> seq 0 (length (tasks st))).

(** The actions that can happen next. The main thread submits every item
    and only then iterates over [as_completed]; a queued item is taken in
    FIFO order when fewer than [max_workers] workers are busy; a running
    worker can always take its next step. *)
Definition enabled (max_workers : nat) (st : pool) : list action :=
  filter (λ act, applicable max_workers st act = true) (candidates st).

Definition status_of_next (nx : next) : status :=
  match nx with Continue c => Running c | Return r => Done r end.

(** What a worker does to its task: it dequeues a queued item, or takes
    the next step of [save_html]. *)
Definition worker_move (a : answers) (oid : string) (s : status) (w : world)
    : option (status * world) :=
  match s with
  | Queued => Some (Running AtExists, emit (EvStart oid) w)
  | Running c =>
      let '(nx, w') := worker_step a oid c w in Some (status_of_next nx, w')
  | Done _ | Reported _ => None
  end.

Definition perform (a : answers) (act : action) (st : pool) : pool :=
  match act with
  | Submit =>
      match pending st with
      | [] => st
      | oid :: rest =>
          Pool rest (tasks st ++ [Task oid Queued])
               (emit (EvSubmit oid) (shared st)) (outcomes st)
      end
  | Step i =>
      match tasks st !! i with
      | Some (Task oid s) =>
          match worker_move a oid s (shared st) with
          | Some (s', w') =>
              Pool (pending st) (<[i := Task oid s']> (tasks st)) w' (outcomes st)
          | None => st
          end
      | None => st
      end
  | Collect i =>
      match tasks st !! i with
      | Some (Task oid (Done r)) =>
          Pool (pending st) (<[i := Task oid (Reported r)]> (tasks st))
               (emit (EvPrint (message r)) (shared st)) (outcomes st ++ [r])
      | _ => st
      end
  end.

(** One scheduling step: the scheduler oracle picks one enabled action. *)
Definition pool_step (max_workers : nat) (a : answers) (st : pool) : pool :=
  let acts := enabled max_workers st in
  match acts !! (a_pick a mod length acts) with
  | Some act => perform a act st
  | None => st
  end.

Fixpoint run (max_workers : nat) (env : nat → answers) (fuel t : nat)
    (st : pool) : pool :=
  match fuel with
  | 0 => st
  | S fuel => run max_workers env fuel (S t) (pool_step max_workers (env t) st)
  end.

(** Steps that always suffice for one item: submission, dequeue, at most
    ten worker steps, collection. *)
Definition steps_per_item : nat := 13.

(** [download_with_eta(object_ids, max_workers)] started in world [w];
    [ThreadPoolExecutor] raises [ValueError] when [max_workers <= 0]. *)
Definition download_with_eta (env : nat → answers) (w : world)
    (object_ids : list string) (max_workers : Z) : string + pool :=
  if decide (max_workers ≤ 0)%Z then inl "max_workers must be greater than 0"
  else inr (run (Z.to_nat max_workers) env
              (steps_per_item * length object_ids) 0
              (Pool object_ids [] w [])).

End worker.
End Worker.

(** ** [scraper_with_concur.py] *)

Module Concur.

Definition SAVE_DIR : string := "htmls_2".

(** The selected [a.objectLink] anchors of a page, each given by its
    [data-objectid] attribute ([None] when the attribute is absent). *)
Definition site := Z → page_response (option string).

(** The loop state: the set [object_ids] and the trace so far. *)
Definition disc_state : Type := gset string * list event.

(** [for a_tag in soup.select("a.objectLink"): ...] *)
Definition add_links (anchors : list (option string)) (ids : gset string)
    : gset string :=
  foldl (λ acc a, match truthy a with
                  | Some oid => acc ∪ {[ oid ]}
                  | None => acc
                  end) ids anchors.

(** One iteration of [for page in range(1, pages + 1)]. *)
Definition scrape_page (web : site) (st : disc_state) (page : Z)
    : disc_state :=
  let '(ids, tr) := st in
  let tr := tr ++ [EvPrint (fetching_line page); EvGet (LISTING_URL page)] in
  match web page with
  | PageParsed anchors => (add_links anchors ids, tr ++ [EvSleepDelay])
  | PageRaises e => (ids, tr ++ [EvPrint (failed_page_line page e)])
  end.

Definition scrape_loop (web : site) (pages : Z) : disc_state :=
  foldl (scrape_page web) (∅, []) (page_range pages).

(** The ids that the pages of [ps] that were fetched and parsed carry. *)
Definition found_on (web : site) (ps : list Z) (x : string) : Prop :=
  ∃ p anchors, p ∈ ps ∧ web p = PageParsed anchors ∧ Some x ∈ anchors ∧ x ≠ "".

(** [sorted(object_ids)] *)
Definition sorted (ids : gset string) : list string :=
  merge_sort String.le (elements ids).

(** [scrape_property_links(pages)]: the returned list and the trace. *)
Definition scrape_property_links (web : site) (pages : Z)
    : list string * list event :=
  let '(ids, tr) := scrape_loop web pages in (sorted ids, tr).

Definition save_html {fs : Naming} := Worker.save_html SAVE_DIR.
Definition download_with_eta {fs : Naming} :=
  Worker.download_with_eta SAVE_DIR.

(** [f"Found {len(object_ids)} unique IDs. Downloading..."] *)
Definition found_line (n : nat) : string :=
  "Found " +:+ pretty n +:+ " unique IDs. Downloading...".

(** The [__main__] block, with its constants [pages=5980] and
    [max_workers=8] as parameters. *)
Definition main {fs : Naming} (web : site) (env : nat → answers) (w : world)
    (pages max_workers : Z) : string + Worker.pool :=
  let '(object_ids, tr) := scrape_property_links web pages in
  let w := World (files w) (log w)
             (trace w ++ tr ++ [EvPrint (found_line (length object_ids))]) in
  download_with_eta env w object_ids max_workers.

End Concur.

(** ** [scraper_with_concur_and_price.py] *)

(** *** The string methods used to clean a price *)

Fixpoint strip_prefix (p s : string) : option string :=
  match p, s with
  | EmptyString, _ => Some s
  | String a p, String b s => if decide (a = b) then strip_prefix p s else None
  | String _ _, EmptyString => None
  end.

Fixpoint replace_go (fuel : nat) (old new s : string) : string :=
  match fuel with
  | 0 => s
  | S fuel =>
      match strip_prefix old s with
      | Some rest => new +:+ replace_go fuel old new rest
      | None =>
          match s with
          | EmptyString => EmptyString
          | String c s => String c (replace_go fuel old new s)
          end
      end
  end.

(** [s.replace(old, new)] for a non-empty [old]. *)
Definition replace (old new s : string) : string :=
  match old with
  | EmptyString => s
  | _ => replace_go (S (String.length s)) old new s
  end.

Definition of_bytes (l : list nat) : string :=
  foldr (λ n s, String (ascii_of_nat n) s) EmptyString l.

(** U+00A0, the non-breaking space ["\xa0"]. *)
Definition nbsp : string := of_bytes [194; 160].

(** The characters [str.strip()] removes, as UTF-8. *)
Definition whitespace : list string :=
  of_bytes <$>
    [[9]; [10]; [11]; [12]; [13]; [28]; [29]; [30]; [31]; [32];
     [194; 133]; [194; 160]; [225; 154; 128];
     [226; 128; 128]; [226; 128; 129]; [226; 128; 130]; [226; 128; 131];
     [226; 128; 132]; [226; 128; 133]; [226; 128; 134]; [226; 128; 135];
     [226; 128; 136]; [226; 128; 137]; [226; 128; 138];
     [226; 128; 168]; [226; 128; 169]; [226; 128; 175];
     [226; 129; 159]; [227; 128; 128]].

Definition drop_one (ws : list string) (s : string) : option string :=
  foldr (λ w r, match strip_prefix w s with Some rest => Some rest | None => r end)
        None ws.

Fixpoint lstrip_go (fuel : nat) (ws : list string) (s : string) : string :=
  match fuel with
  | 0 => s
  | S fuel => match drop_one ws s with
              | Some rest => lstrip_go fuel ws rest
              | None => s
              end
  end.

Definition lstrip (s : string) : string :=
  lstrip_go (String.length s) whitespace s.

Definition rstrip (s : string) : string :=
  String.rev (lstrip_go (String.length s) (String.rev <$> whitespace) (String.rev s)).

(** [s.strip()] *)
Definition strip (s : string) : string := rstrip (lstrip s).

Module ConcurPrice.

Definition SAVE_DIR : string := "htmls_3".

(** A [div.prices.objectInfos] of a listing page: its [data-objectid]
    attribute and, when it has a [p.pricetag], that tag's
    [get_text(strip=True)]. *)
Record price_div := PriceDiv {
  data_objectid : option string;
  pricetag : option string
}.

Definition site := Z → page_response price_div.

(** The dictionary appended to [listings]. *)
Record listing := Listing {
  object_id : string;
  link : string;
  price : string
}.

Global Instance listing_eq_dec : EqDecision listing.
Proof. solve_decision. Defined.

Definition clean_price (tag : option string) : string :=
  match tag with
  | Some text => strip (replace nbsp "" (replace "ab" "" text))
  | None => "N/A"
  end.

(** [for div in soup.select("div.prices.objectInfos"): ...] *)
Definition add_listings (divs : list price_div) (listings : list listing)
    : list listing :=
  foldl (λ acc d, match truthy (data_objectid d) with
                  | Some oid =>
                      acc ++ [Listing oid (BASE_URL +:+ oid)
                                      (clean_price (pricetag d))]
                  | None => acc
                  end) listings divs.

Definition disc_state : Type := list listing * list event.

Definition scrape_page (web : site) (st : disc_state) (page : Z)
    : disc_state :=
  let '(listings, tr) := st in
  let tr := tr ++ [EvPrint (fetching_line page); EvGet (LISTING_URL page)] in
  match web page with
  | PageParsed divs => (add_listings divs listings, tr ++ [EvSleepDelay])
  | PageRaises e => (listings, tr ++ [EvPrint (failed_page_line page e)])
  end.

(** [scrape_property_links(pages)]: the returned list and the trace. *)
Definition scrape_property_links (web : site) (pages : Z) : disc_state :=
  foldl (scrape_page web) ([], []) (page_range pages).

Definition save_html {fs : Naming} := Worker.save_html SAVE_DIR.

(** [download_with_eta(listings, max_workers)]: one [save_html] is
    submitted per element of [listings], on its ["object_id"]. *)
Definition download_with_eta {fs : Naming} (env : nat → answers) (w : world)
    (listings : list listing) (max_workers : Z) : string + Worker.pool :=
  Worker.download_with_eta SAVE_DIR env w (object_id <$> listings) max_workers.

(** [f"Found {len(listings)} listings. Downloading..."] *)
Definition found_line (n : nat) : string :=
  "Found " +:+ pretty n +:+ " listings. Downloading...".

Definition EXCEL_FILE : string := "results.xlsx".

(** [f"💾 Saved initial Excel file: {EXCEL_FILE}"] *)
Definition saved_excel_line : string :=
  "💾 Saved initial Excel file: " +:+ EXCEL_FILE.

(** The [__main__] block, with [pages] and [max_workers] as parameters.
    [df.to_excel] is taken to succeed; the spreadsheet it writes is not
    part of the state. *)
Definition main {fs : Naming} (web : site) (env : nat → answers) (w : world)
    (pages max_workers : Z) : string + Worker.pool :=
  let '(listings, tr) := scrape_property_links web pages in
  let w := World (files w) (log w)
             (trace w ++ tr ++ [EvPrint (found_line (length listings));
                                EvPrint saved_excel_line]) in
  download_with_eta env w listings max_workers.

End ConcurPrice.


(** ** Notions used to state the properties of the pool *)

Module Props.
Section props.
Import Worker.
Context {fs : Naming}.

(** Worker steps that remain, at most, after program point [c]. *)
Definition left_steps (c : pc) : nat :=
  match c with
  | AtExists => 9
  | AtGet attempt => 4 + (4 - attempt)
  | AtMakedirs _ => 3
  | AtOpen _ => 2
  | AtWrite _ => 1
  | AtElse | AtLogSuccess | AtExcept _ => 0
  end.

Definition task_work (t : task) : nat :=
  match t_status t with
  | Queued => 12
  | Running c => 2 + left_steps c
  | Done _ => 1
  | Reported _ => 0
  end.

(** An upper bound on the scheduling steps the pool can still take. *)
Definition work (st : pool) : nat :=
  steps_per_item * length (pending st) + sum_list_with task_work (tasks st).

(** Every item was submitted, ran, and was seen by the main loop. *)
Definition finished (st : pool) : Prop :=
  pending st = [] ∧ Forall (λ t, ∃ r, t_status t = Reported r) (tasks st).

Definition is_done (t : task) : bool :=
  match t_status t with Done _ => true | _ => false end.

Definition reported (t : task) : option result :=
  match t_status t with Reported r => Some r | _ => None end.

Definition returned (t : task) : option result :=
  match t_status t with Done r | Reported r => Some r | _ => None end.

(** The record [save_html] appends to the log before returning [r]. *)
Definition log_record (r : result) : option string :=
  match r with
  | AlreadySaved _ => None
  | Saved oid => Some ("SUCCESS: " +:+ oid +:+ " " +:+ newline)
  | FailedAfterRetries oid =>
      Some ("ERROR: " +:+ oid +:+ " Failed after retries" +:+ newline)
  | Crash oid e => Some ("ERROR: " +:+ oid +:+ " " +:+ e +:+ newline)
  end.

(** The task has not gone past the existence check, or was skipped. *)
Definition not_entered (s : status) : Prop :=
  match s with
  | Queued | Running AtExists => True
  | Done r | Reported r => r = AlreadySaved (result_oid r)
  | Running _ => False
  end.

(** The ids of the futures followed by the items still to submit, the
    ownership of results and the outcomes seen so far. *)
Definition well_formed (ids : list string) (st : pool) : Prop :=
  (t_oid <$> tasks st) ++ pending st = ids
  ∧ Forall (λ t, ∀ r, returned t = Some r → result_oid r = t_oid t) (tasks st)
  ∧ outcomes st ≡ₚ omap reported (tasks st).

(** The log record of a task that has returned. *)
Definition logged (t : task) : option string := returned t ≫= log_record.


(** The events [new] were appended to [trace0]. *)
Definition extends (trace0 new : list event) (st : pool) : Prop :=
  trace (shared st) = trace0 ++ new.

(** Every item of the run is in the cache [files0], nothing was written,
    logged or requested since the run started from trace [trace0]. *)
Definition quiet (dir : string) (files0 : gmap string string)
    (log0 : list string) (trace0 : list event) (st : pool) : Prop :=
  files (shared st) = files0
  ∧ log (shared st) = log0
  ∧ Forall (λ oid, is_Some (files0 !! file_of dir oid)) (pending st)
  ∧ Forall (λ t, is_Some (files0 !! file_of dir (t_oid t))
                 ∧ not_entered (t_status t)) (tasks st)
  ∧ ∃ new, extends trace0 new st ∧ ∀ url, EvGet url ∉ new.


(** Every future was announced by a submission and, once a worker took
    it, by a start. *)
Definition announced (trace0 : list event) (st : pool) : Prop :=
  ∃ new, extends trace0 new st
    ∧ Forall (λ t, EvSubmit (t_oid t) ∈ new
                   ∧ (is_queued t = false → EvStart (t_oid t) ∈ new))
             (tasks st).


(** No other item of [ids] has the file of [oid]. *)
Definition alone (dir : string) (ids : list string) (oid : string) : Prop :=
  ∀ o, o ∈ ids → file_of dir o = file_of dir oid → o = oid.

(** The items of [ids] have pairwise distinct files. *)
Definition distinct_files (dir : string) (ids : list string) : Prop :=
  NoDup (file_of dir <$> ids).



(** The events of the retry loop when the request of attempt [k] fails
    with [e k], for the attempts of [ks]. *)
Definition failed_attempts (oid : string) (e : nat → string) (ks : list nat)
    : list event :=
  ks ≫= λ k, [EvGet (link oid); EvPrint (retry_line k oid (e k));
              EvSleepBackoff oid (2 ^ Z.of_nat k)].


(** The task wrote its file, or found it, and did not fail since. *)
Definition has_saved (s : status) : Prop :=
  match s with
  | Running AtLogSuccess => True
  | Done r | Reported r => outcome_of r ≠ Failed
  | _ => False
  end.

Definition holds_files (dir : string) (st : pool) : Prop :=
  Forall (λ t, has_saved (t_status t) →
               is_Some (files (shared st) !! file_of dir (t_oid t)))
         (tasks st).

(** The number of occurrences of event [e] in a trace. *)
Definition count_event (e : event) (tr : list event) : nat :=
  length (filter (λ x, x = e) tr).

(** How often item [oid] was submitted, found absent and requested in
    the events [new]. *)
Definition submissions (oid : string) (new : list event) : nat :=
  count_event (EvSubmit oid) new.

Definition fetch_sequences (dir oid : string) (new : list event) : nat :=
  count_event (EvExists (file_path dir oid) false) new.

Definition requests (oid : string) (new : list event) : nat :=
  count_event (EvGet (link oid)) new.

(** What the only task of an item has done, by where it stands: [f] is
    the file of the item, [ce] the fetch sequences begun and [cg] the
    requests made for it. *)
Definition phase (s : status) (f : option string) (ce cg : nat) : Prop :=
  match s with
  | Queued | Running AtExists => f = None ∧ ce = 0 ∧ cg = 0
  | Running (AtGet k) => ce = 1 ∧ cg = k ∧ k < 5
  | Running AtElse => ce = 1 ∧ cg = 5
  | Running _ | Done _ | Reported _ => ce = 1 ∧ 1 ≤ cg ≤ 5
  end.

(** The items are pairwise distinct, and item [oid], absent from the
    cache at trace [trace0], is fetched by one task only. *)
Definition once (dir oid : string) (trace0 : list event) (st : pool) : Prop :=
  ∃ new, extends trace0 new st
    ∧ NoDup ((t_oid <$> tasks st) ++ pending st)
    ∧ (oid ∈ pending st →
       files (shared st) !! file_of dir oid = None
       ∧ submissions oid new = 0
       ∧ fetch_sequences dir oid new = 0 ∧ requests oid new = 0)
    ∧ Forall (λ t, t_oid t = oid →
                   submissions oid new = 1
                   ∧ phase (t_status t) (files (shared st) !! file_of dir oid)
                           (fetch_sequences dir oid new) (requests oid new))
             (tasks st).

(** No write to the file of the item can follow from this status when
    the file exists. *)
Definition settled (s : status) : Prop :=
  match s with
  | Queued | Running AtExists | Running AtElse | Running AtLogSuccess
  | Running (AtExcept _) | Done _ | Reported _ => True
  | Running _ => False
  end.

(** The file at [path] holds [content], and no worker is fetching or
    writing it. *)
Definition kept (dir path content : string) (st : pool) : Prop :=
  files (shared st) !! path = Some content
  ∧ Forall (λ t, file_of dir (t_oid t) = path → settled (t_status t))
           (tasks st).

(** [Pend] holds of the file of item [b] while [b] is to be submitted,
    and [T] of the task of [b] with that file. *)
Definition focus (dir b : string) (Pend : option string → Prop)
    (T : status → option string → Prop) (st : pool) : Prop :=
  (b ∈ pending st → Pend (files (shared st) !! file_of dir b))
  ∧ Forall (λ t, t_oid t = b →
                 T (t_status t) (files (shared st) !! file_of dir b))
           (tasks st).






(** The initial state of [download_with_eta]. *)
Definition initial (w : world) (object_ids : list string) : pool :=
  Pool object_ids [] w [].

End props.
End Props.

(** ** The inputs of the examples *)

Module Examples.
Import Worker Props.

(** The naming of the examples: every path names a file of its own, as
    on a file system without links for paths without [.], [..] and
    repeated separators. *)
Definition by_path : Naming := λ p, p.

(** A naming for which [dir/./name] and [dir/name] are one file. *)
Definition same_dot : Naming := λ p, replace "/./" "/" p.

(** The cache holds the page of item A. *)
Definition cache_A : world :=
  World {[ file_of (fs:=by_path) "htmls_2" "A" := "<html>A</html>" ]} [] [].

Definition empty_world : world := World ∅ [] [].

(** At step [t] the scheduler lets thread [t mod n] run; the site serves
    item B and times out on every other item; the disk works. *)
Definition serves_B (t : nat) : answers :=
  Answers t
    (λ url, if decide (url = link "B") then GetOk "<html>B</html>"
            else GetRequestException ("timeout " +:+ pretty t))
    None (λ _, None) (λ _, None).

(** The site serves every item; the disk works. *)
Definition serves_all (t : nat) : answers :=
  Answers t (λ url, GetOk ("<html>" +:+ url +:+ "</html>"))
    None (λ _, None) (λ _, None).

(** The site serves every item; the disk is full, so that [f.write]
    fails after the file was opened. *)
Definition disk_full (t : nat) : answers :=
  Answers t (λ url, GetOk "<html>B</html>")
    None (λ _, None) (λ _, Some ("[Errno 28] No space left on device", "")).

(** The site serves every item, and the page it serves changes with
    the time; the disk works. *)
Definition changing (t : nat) : answers :=
  Answers t (λ url, GetOk ("<html>" +:+ pretty t +:+ "</html>"))
    None (λ _, None) (λ _, None).

(** Three listing pages, the second of which cannot be fetched. *)
Definition three_pages : Concur.site := λ p,
  if decide (p = 1)%Z then PageParsed [Some "b7"; None; Some "a3"]
  else if decide (p = 2)%Z then PageRaises "timeout"
  else PageParsed [Some "a3"; Some ""; Some "a10"].

(** The same pages served in another order. *)
Definition three_pages_swapped : Concur.site := λ p,
  if decide (p = 3)%Z then PageParsed [Some "b7"; None; Some "a3"]
  else if decide (p = 2)%Z then PageRaises "timeout"
  else PageParsed [Some "a10"; Some "a3"].

(** Two listing pages that both show item A, with different prices. *)
Definition two_pages_A : ConcurPrice.site := λ p,
  if decide (p = 1)%Z
  then PageParsed [ConcurPrice.PriceDiv (Some "A") (Some "ab 50 €")]
  else PageParsed [ConcurPrice.PriceDiv (Some "A") (Some "ab 60 €")].

(** What a run leaves behind: the files, the log, the trace and the
    outcomes in the order the main loop received them. *)
Definition observe (r : string + pool)
    : option (list (string * string) * list string * list event * list result) :=
  match r with
  | inr st => Some (map_to_list (files (shared st)), log (shared st),
                    trace (shared st), outcomes st)
  | inl _ => None
  end.

End Examples.

(** ** Notions used by the further properties *)

Module More.
Section more.
Import Worker Props.
Context {fs : Naming}.

(** The cache files of the items [ids]. *)
Definition cache_path (dir : string) (ids : list string) (p : string) : Prop :=
  ∃ oid, oid ∈ ids ∧ p = file_of dir oid.

(** Since the world [w0]: the log and the trace were only appended to,
    no file disappeared, and only cache files of [ids] changed. *)
Definition grown (dir : string) (ids : list string) (w0 : world) (st : pool)
    : Prop :=
  (∃ recs, log (shared st) = log w0 ++ recs)
  ∧ (∃ new, trace (shared st) = trace w0 ++ new)
  ∧ (∀ p, is_Some (files w0 !! p) → is_Some (files (shared st) !! p))
  ∧ (∀ p, ¬ cache_path dir ids p → files (shared st) !! p = files w0 !! p).

(** The file is absent until the existence check, and a task that went
    past the check does not end as a skip. *)
Definition not_skipped (s : status) (f : option string) : Prop :=
  match s with
  | Queued | Running AtExists => f = None
  | Done r | Reported r => outcome_of r ≠ Skipped
  | Running _ => True
  end.

(** The text a task carries was served, and once written it is the
    content of the file. *)
Definition page_state (served : string → Prop) (s : status)
    (f : option string) : Prop :=
  match s with
  | Running (AtMakedirs text) | Running (AtOpen text)
  | Running (AtWrite text) => served text
  | Running AtLogSuccess | Done (Saved _) | Reported (Saved _) =>
      ∃ text, served text ∧ f = Some text
  | _ => True
  end.

(** A record of the log file, as [log_result] formats it. *)
Definition log_line (ids : list string) (rec : string) : Prop :=
  ∃ oid, oid ∈ ids
    ∧ (rec = "SUCCESS: " +:+ oid +:+ " " +:+ newline
       ∨ ∃ msg, rec = "ERROR: " +:+ oid +:+ " " +:+ msg +:+ newline).

Definition is_get (e : event) : bool :=
  match e with EvGet _ => true | _ => false end.

(** The number of requests in a trace: the calls of [session.get]; the
    attempts that the [Retry] adapter of the session makes inside one
    call are not told apart. *)
Definition request_count (tr : list event) : nat :=
  length (filter (λ e, is_get e = true) tr).

(** The whole seconds of a backoff sleep. *)
Definition backoff_seconds (e : event) : nat :=
  match e with EvSleepBackoff _ b => Z.to_nat b | _ => 0 end.

(** The requests a task can still make, and the seconds of backoff it
    can still sleep. *)
Definition requests_left (t : task) : nat :=
  match t_status t with
  | Queued | Running AtExists => 5
  | Running (AtGet k) => 5 - k
  | _ => 0
  end.

Definition backoff_left (t : task) : nat :=
  match t_status t with
  | Queued | Running AtExists => 31
  | Running (AtGet k) => 32 - 2 ^ k
  | _ => 0
  end.

(** The requests and the backoff sleeps of the items [ids]. *)
Definition event_of (ids : list string) (e : event) : Prop :=
  match e with
  | EvGet url => ∃ oid, oid ∈ ids ∧ url = link oid
  | EvSleepBackoff oid b => oid ∈ ids ∧ b ∈ [1; 2; 4; 8; 16]%Z
  | _ => True
  end.

Definition in_loop (t : task) : Prop :=
  match t_status t with Running (AtGet k) => k < 5 | _ => True end.

(** What was requested and slept since [trace0], with what the tasks
    and the items to submit can still add, stays within five requests
    and 31 seconds of backoff per item. *)
Definition frugal (ids : list string) (trace0 : list event) (st : pool)
    : Prop :=
  ∃ new, extends trace0 new st
    ∧ Forall in_loop (tasks st)
    ∧ Forall (event_of ids) new
    ∧ request_count new + sum_list_with requests_left (tasks st)
      + 5 * length (pending st) ≤ 5 * length ids
    ∧ sum_list_with backoff_seconds new + sum_list_with backoff_left (tasks st)
      + 31 * length (pending st) ≤ 31 * length ids.

(** One for a task that a worker is executing. *)
Definition busy (t : task) : nat := if is_running t then 1 else 0.

(** The record [scrape_property_links] of the price-aware script
    appends for a [div.prices.objectInfos]: none when its id is not
    truthy. *)
Definition listing_of (d : ConcurPrice.price_div)
    : option ConcurPrice.listing :=
  match truthy (ConcurPrice.data_objectid d) with
  | Some oid =>
      Some (ConcurPrice.Listing oid (BASE_URL +:+ oid)
              (ConcurPrice.clean_price (ConcurPrice.pricetag d)))
  | None => None
  end.

(** The records of one listing page: none when the page raises. *)
Definition page_listings (web : ConcurPrice.site) (p : Z)
    : list ConcurPrice.listing :=
  match web p with
  | PageParsed divs => omap listing_of divs
  | PageRaises _ => []
  end.

(** The site whose anchors carry the ids that the price containers of
    [web] carry. *)
Definition anchors_of (web : ConcurPrice.site) : Concur.site :=
  λ p, match web p with
       | PageParsed divs => PageParsed (ConcurPrice.data_objectid <$> divs)
       | PageRaises e => PageRaises e
       end.

(** The URLs requested in a trace, in order. *)
Definition requested_urls (tr : list event) : list string :=
  omap (λ e, match e with EvGet url => Some url | _ => None end) tr.

Definition is_submit (e : event) : bool :=
  match e with EvSubmit _ => true | _ => false end.

Definition is_start (e : event) : bool :=
  match e with EvStart _ => true | _ => false end.

(** Since trace [trace0] the futures were submitted in their order,
    and the first [k] of them were taken by a worker, in that order;
    the others are still queued. *)
Definition lined_up (trace0 : list event) (st : pool) : Prop :=
  ∃ new k, extends trace0 new st
    ∧ filter (λ e, is_submit e = true) new = EvSubmit <$> (t_oid <$> tasks st)
    ∧ filter (λ e, is_start e = true) new
      = EvStart <$> take k (t_oid <$> tasks st)
    ∧ k ≤ length (tasks st)
    ∧ (∀ j t, tasks st !! j = Some t → j < k → is_queued t = false)
    ∧ (∀ j t, tasks st !! j = Some t → k ≤ j → is_queued t = true).

End more.
End More.

(** ** The progress report of [download_with_eta] *)

(** The pool above leaves the two ETA lines out of the trace, their text
    being made of wall-clock times. What decides when they are printed is
    the count of completed futures alone; this module follows that
    count, [eta_interval = 0] included. *)

Module Eta.

(** [completed % eta_interval == 0 or completed == total]: [None] is
    the [ZeroDivisionError] that [%] raises when [eta_interval] is 0;
    the left operand of [or] is evaluated first. *)
Definition report_due (completed total eta_interval : Z) : option bool :=
  if decide (eta_interval = 0)%Z then None
  else Some (bool_decide (completed `mod` eta_interval = 0)%Z
             || bool_decide (completed = total)).

(** The loop over [as_completed(futures)], as far as [completed] goes:
    [n] futures are still to come; the result lists the values of
    [completed] at which the two ETA lines are printed. *)
Fixpoint eta_loop (n : nat) (completed total eta_interval : Z)
    : option (list Z) :=
  match n with
  | 0 => Some []
  | S n =>
      let completed := (completed + 1)%Z in
      match report_due completed total eta_interval with
      | None => None
      | Some due =>
          match eta_loop n completed total eta_interval with
          | None => None
          | Some rest => Some (if due then completed :: rest else rest)
          end
      end
  end.

(** The reports of a run over [items] items: [total = len(object_ids)],
    [completed = 0], one future per item. *)
Definition reports (items : nat) (eta_interval : Z) : option (list Z) :=
  eta_loop items 0 (Z.of_nat items) eta_interval.

(** [remaining = total - completed] at a report. *)
Definition remaining (total completed : Z) : Z := (total - completed)%Z.

End Eta.

(** ** [parser_first_10_results.py] *)

Module Parser.

(** The argument of [clean_text_for_excel]: a [str], or one of the
    values for which [pd.isna] is true: [None], NaN and [pd.NA]. *)
Inductive cell := Text (s : string) | NoneValue | NaN | NA.

(** The class [[\x00-\x08\x0B-\x0C\x0E-\x1F]]; a character of the
    class is one byte of the UTF-8 string, and no such byte is part of
    another character. *)
Definition illegal (c : ascii) : bool :=
  let n := nat_of_ascii c in
  (n <=? 8) || ((11 <=? n) && (n <=? 12)) || ((14 <=? n) && (n <=? 31)).

(** [re.sub(r'[\x00-\x08\x0B-\x0C\x0E-\x1F]', '', s)] *)
Fixpoint remove_illegal (s : string) : string :=
  match s with
  | EmptyString => EmptyString
  | String c s =>
      if illegal c then remove_illegal s else String c (remove_illegal s)
  end.

(** [clean_text_for_excel(text)]; the result [None] is a [TypeError]:
    [pd.NA == "-"] is [pd.NA], which has no truth value, so the [or]
    of the test raises. [None == "-"] and [nan == "-"] are false. *)
Definition clean_text_for_excel (text : cell) : option string :=
  match text with
  | Text s => if decide (s = "-") then Some "-" else Some (remove_illegal s)
  | NoneValue | NaN => Some "-"
  | NA => None
  end.

(** No character of the string is in the class. *)
Fixpoint legal (s : string) : bool :=
  match s with
  | EmptyString => true
  | String c s => negb (illegal c) && legal s
  end.

End Parser.

(** ** Further inputs of the examples *)

(** The UTF-8 encoding of a code point below U+10000. *)
Definition utf8 (cp : N) : string :=
  of_bytes
    (N.to_nat <$>
       (if decide (cp < 128)%N then [cp]
        else if decide (cp < 2048)%N then
               [192 + cp / 64; 128 + cp `mod` 64]
        else [224 + cp / 4096; 128 + (cp / 64) `mod` 64;
              128 + cp `mod` 64])%N).

(** The text "a", U+000B, "b", tab, "c", U+001F. *)
Definition with_controls : string := of_bytes [97; 11; 98; 9; 99; 31].

Module MoreExamples.
Import Worker.

(** The site times out on the first two requests and then serves the
    page; the disk works. *)
Definition recovers (t : nat) : answers :=
  Answers t
    (λ url, if decide (t < 3) then GetRequestException "timeout"
            else GetOk "<html>B</html>")
    None (λ _, None) (λ _, None).

(** The site times out on the first request; the second one raises an
    exception that is not a [RequestException]. *)
Definition breaks (t : nat) : answers :=
  Answers t
    (λ url, if decide (t < 2) then GetRequestException "timeout"
            else GetException "unexpected")
    None (λ _, None) (λ _, None).

End MoreExamples.

(** * Properties of discovery *)

Lemma truthy_Some o x : truthy o = Some x ↔ o = Some x ∧ x ≠ "".
Proof.
  unfold truthy. destruct o as [s|]; [|naive_solver].
  destruct (decide (s = "")); naive_solver.
Qed.

Lemma page_range_elem pages p : p ∈ page_range pages ↔ (1 ≤ p ≤ pages)%Z.
Proof. unfold page_range. rewrite elem_of_seqZ. lia. Qed.

Section concur_discovery.
Import Concur.

Lemma add_links_elem anchors ids x :
  x ∈ add_links anchors ids ↔ x ∈ ids ∨ (Some x ∈ anchors ∧ x ≠ "").
Proof.
  unfold add_links. revert ids.
  induction anchors as [|a anchors IH]; intros ids; simpl.
  - set_solver.
  - rewrite IH. rewrite elem_of_cons.
    destruct (truthy a) as [oid|] eqn:Ha.
    + apply truthy_Some in Ha as [-> Hne]. set_solver.
    + split; [naive_solver|].
      intros [?|[[Heq|?] ?]]; [naive_solver| |naive_solver].
      subst a. assert (truthy (Some x) = Some x) by (by apply truthy_Some).
      congruence.
Qed.

Lemma scrape_page_ids web st p :
  (scrape_page web st p).1
  = match web p with
    | PageParsed anchors => add_links anchors st.1
    | PageRaises _ => st.1
    end.
Proof. destruct st as [ids tr]. unfold scrape_page. by destruct (web p). Qed.

Lemma scrape_page_trace web st p :
  (scrape_page web st p).2 = st.2 ++ page_events web p.
Proof.
  destruct st as [ids tr]. unfold scrape_page, page_events.
  destruct (web p); simpl; by rewrite <- app_assoc.
Qed.

Lemma scrape_pages_ids web ps st x :
  x ∈ (foldl (scrape_page web) st ps).1 ↔ x ∈ st.1 ∨ found_on web ps x.
Proof.
  revert st. induction ps as [|p ps IH]; intros st; cbn [foldl].
  - unfold found_on. set_solver.
  - rewrite IH, scrape_page_ids. unfold found_on.
    destruct (web p) as [e|anchors] eqn:Hp.
    + split.
      * intros [?|(q & an & Hq & ?)]; [by left|].
        right. exists q, an. set_solver.
      * intros [?|(q & an & Hq & Hw & ?)]; [by left|].
        apply elem_of_cons in Hq as [->|Hq]; [congruence|].
        right. by exists q, an.
    + rewrite add_links_elem. split.
      * intros [[?|[??]]|(q & an & Hq & ?)]; [by left| |].
        -- right. exists p, anchors. set_solver.
        -- right. exists q, an. set_solver.
      * intros [?|(q & an & Hq & Hw & ?)]; [by left; left|].
        apply elem_of_cons in Hq as [->|Hq].
        -- rewrite Hp in Hw. simplify_eq. by left; right.
        -- right. by exists q, an.
Qed.

Lemma scrape_pages_trace web ps st :
  (foldl (scrape_page web) st ps).2 = st.2 ++ (ps ≫= page_events web).
Proof.
  revert st. induction ps as [|p ps IH]; intros st; cbn [foldl].
  - by rewrite app_nil_r.
  - rewrite IH, scrape_page_trace. by rewrite <- app_assoc.
Qed.

Lemma scrape_loop_ids web pages x :
  x ∈ (scrape_loop web pages).1 ↔ found_on web (page_range pages) x.
Proof.
  unfold scrape_loop. rewrite scrape_pages_ids. set_solver.
Qed.

Lemma scrape_loop_trace web pages :
  (scrape_loop web pages).2 = page_range pages ≫= page_events web.
Proof.
  unfold scrape_loop. by rewrite scrape_pages_trace.
Qed.

Lemma scrape_property_links_eq web pages :
  scrape_property_links web pages
  = (sorted (scrape_loop web pages).1, (scrape_loop web pages).2).
Proof. unfold scrape_property_links. by destruct (scrape_loop web pages). Qed.

Lemma sorted_elem ids x : x ∈ sorted ids ↔ x ∈ ids.
Proof. unfold sorted. by rewrite merge_sort_Permutation, elem_of_elements. Qed.

Lemma sorted_NoDup ids : NoDup (sorted ids).
Proof. unfold sorted. rewrite merge_sort_Permutation. apply NoDup_elements. Qed.

Lemma sorted_StronglySorted ids : StronglySorted String.le (sorted ids).
Proof. apply StronglySorted_merge_sort; apply _. Qed.

(** Two duplicate-free ascending lists with the same elements are equal. *)
Lemma ascending_unique (l k : list string) :
  StronglySorted String.le l → StronglySorted String.le k →
  NoDup l → NoDup k → (∀ x, x ∈ l ↔ x ∈ k) → l = k.
Proof.
  intros Hl Hk Dl Dk Hlk.
  apply (StronglySorted_unique String.le); [done..|].
  by apply NoDup_Permutation.
Qed.

End concur_discovery.

(** * Properties of the worker and of the pool *)

Section pool_facts.
Import Worker Props.
Context {fs : Naming}.
Variable dir : string.

Lemma link_inj a b : link a = link b → a = b.
Proof. unfold link. apply String.app_inj. Qed.

Lemma string_app_length (s1 s2 : string) :
  String.length (s1 +:+ s2) = String.length s1 + String.length s2.
Proof. induction s1; simpl; auto. Qed.

Lemma string_app_inj_r (s : string) : Inj (=) (=) (λ x, x +:+ s).
Proof.
  intros x. induction x as [|a x IH]; intros [|b y] Heq; simpl in *.
  - done.
  - apply (f_equal String.length) in Heq. simpl in Heq.
    rewrite !string_app_length in Heq. simpl in Heq. lia.
  - apply (f_equal String.length) in Heq. simpl in Heq.
    rewrite !string_app_length in Heq. simpl in Heq. lia.
  - injection Heq as -> Heq. f_equal. by apply IH.
Qed.

Lemma is_absolute_app (a b : string) :
  a ≠ "" → is_absolute (a +:+ b) = is_absolute a.
Proof. by destruct a. Qed.

Lemma path_join_absolute a b : is_absolute b = true → path_join a b = b.
Proof. unfold path_join. by intros ->. Qed.

Lemma path_join_relative a b :
  is_absolute a = false → is_absolute b = false →
  is_absolute (path_join a b) = false.
Proof.
  intros Ha Hb. unfold path_join. rewrite Hb.
  destruct a as [|c a]; [done|].
  destruct (ends_with_slash (String c a)); by rewrite is_absolute_app.
Qed.

Lemma path_join_inj a b b' :
  is_absolute a = false → path_join a b = path_join a b' → b = b'.
Proof.
  intros Ha H.
  destruct (is_absolute b) eqn:Hb, (is_absolute b') eqn:Hb'.
  - by rewrite !path_join_absolute in H.
  - rewrite (path_join_absolute a b) in H by done.
    pose proof (path_join_relative a b' Ha Hb'). congruence.
  - rewrite (path_join_absolute a b') in H by done.
    pose proof (path_join_relative a b Ha Hb). congruence.
  - unfold path_join in H. rewrite Hb, Hb' in H.
    destruct a as [|c a]; [done|].
    destruct (ends_with_slash (String c a));
      repeat apply String.app_inj in H; done.
Qed.

(** The directory of the cache is a relative path, as ["htmls_2"] and
    ["htmls_3"] are: two ids then never give the same path. *)
Hypothesis relative_dir : is_absolute dir = false.

Lemma file_path_inj a b : file_path dir a = file_path dir b → a = b.
Proof.
  unfold file_path. intros H%path_join_inj; [|done].
  by apply string_app_inj_r in H.
Qed.

Lemma download_with_eta_eq env w ids mw st :
  download_with_eta dir env w ids mw = inr st ↔
  (0 < mw)%Z ∧
  st = run dir (Z.to_nat mw) env (steps_per_item * length ids) 0 (initial w ids).
Proof.
  unfold download_with_eta, initial. case_decide; [|naive_solver lia].
  split; [done|]. intros [? _]. lia.
Qed.

(** *** Proving an invariant of the pool *)

Lemma perform_inv (P : pool → Prop) a act st :
  (∀ oid rest, pending st = oid :: rest →
     P (Pool rest (tasks st ++ [Task oid Queued])
             (emit (EvSubmit oid) (shared st)) (outcomes st))) →
  (∀ i oid s s' w', tasks st !! i = Some (Task oid s) →
     worker_move dir a oid s (shared st) = Some (s', w') →
     P (Pool (pending st) (<[i := Task oid s']> (tasks st)) w' (outcomes st))) →
  (∀ i oid r, tasks st !! i = Some (Task oid (Done r)) →
     P (Pool (pending st) (<[i := Task oid (Reported r)]> (tasks st))
             (emit (EvPrint (message r)) (shared st)) (outcomes st ++ [r]))) →
  P st → P (perform dir a act st).
Proof.
  intros Hsub Hstep Hcol HP. destruct act as [|i|i]; simpl.
  - destruct (pending st) eqn:E; [done|]. by apply Hsub.
  - destruct (tasks st !! i) as [[oid s]|] eqn:E; [|done].
    destruct (worker_move dir a oid s (shared st)) as [[s' w']|] eqn:E'; [|done].
    by eapply Hstep.
  - destruct (tasks st !! i) as [[oid [|c|r|r]]|] eqn:E; try done.
    by apply Hcol.
Qed.

Section invariant.
Variable Q : answers → Prop.
Variable P : pool → Prop.
Hypothesis preserved : ∀ a act st, Q a → P st → P (perform dir a act st).

Lemma pool_step_inv mw a st : Q a → P st → P (pool_step dir mw a st).
Proof.
  intros Ha HP. unfold pool_step.
  destruct (enabled mw st !! _); [by apply preserved|done].
Qed.

Lemma run_inv mw env fuel t st :
  (∀ t, Q (env t)) → P st → P (run dir mw env fuel t st).
Proof.
  intros Henv. revert t st.
  induction fuel as [|fuel IH]; intros t st HP; simpl; [done|].
  apply IH. by apply pool_step_inv.
Qed.
End invariant.

(** *** The pool runs to the end *)

Lemma sum_list_with_insert (f : task → nat) (ts : list task) i t t' :
  ts !! i = Some t →
  sum_list_with f (<[i := t']> ts) + f t = sum_list_with f ts + f t'.
Proof.
  revert i. induction ts as [|x ts IH]; intros [|i] H; simplify_eq/=.
  - lia.
  - specialize (IH _ H). lia.
Qed.

Lemma worker_step_left a oid c w nx w' :
  worker_step dir a oid c w = (nx, w') →
  task_work (Task oid (status_of_next nx)) < task_work (Task oid (Running c)).
Proof.
  unfold task_work. destruct c; simpl; intros H;
    repeat (case_match; simplify_eq/=); try lia.
Qed.

Lemma worker_move_work a oid s w s' w' :
  worker_move dir a oid s w = Some (s', w') →
  task_work (Task oid s') < task_work (Task oid s).
Proof.
  destruct s as [|c|r|r]; simpl; intros H; simplify_eq/=.
  - unfold task_work; simpl; lia.
  - destruct (worker_step dir a oid c w) as [nx w''] eqn:E. simplify_eq.
    by eapply worker_step_left.
Qed.

Lemma perform_work a act mw st :
  act ∈ enabled mw st → work (perform dir a act st) < work st.
Proof.
  unfold enabled. rewrite list_elem_of_filter. intros [Happ _].
  destruct act as [|i|i]; simpl in *.
  - destruct (pending st) as [|oid rest] eqn:E; [done|].
    unfold work; simpl. rewrite E, sum_list_with_app. simpl.
    unfold steps_per_item, task_work; simpl. lia.
  - destruct (tasks st !! i) as [[oid s]|] eqn:E; [|done]. simpl in Happ.
    destruct (worker_move dir a oid s (shared st)) as [[s' w']|] eqn:E'.
    + unfold work; simpl.
      pose proof (sum_list_with_insert task_work _ _ _ (Task oid s') E).
      pose proof (worker_move_work _ _ _ _ _ _ E'). lia.
    + destruct s; simplify_eq/=. destruct (worker_step _ _ _ _ _); done.
  - destruct (tasks st !! i) as [[oid s]|] eqn:E; simpl in Happ;
      [|by destruct (pending st)].
    destruct (pending st), s; try done.
    unfold work; simpl.
    pose proof (sum_list_with_insert task_work _ _ _ (Task oid (Reported r)) E).
    unfold task_work in *; simpl in *. lia.
Qed.

Lemma first_queued_Some ts i :
  first_queued ts = Some i → ∃ oid, ts !! i = Some (Task oid Queued).
Proof.
  revert i. induction ts as [|[oid s] ts IH]; intros i H; simpl in *; [done|].
  unfold is_queued in H; simpl in H. destruct s; simplify_eq/=; eauto;
    destruct (first_queued ts) as [j|]; simplify_eq/=; by apply IH.
Qed.

Lemma first_queued_exists ts i oid :
  ts !! i = Some (Task oid Queued) → is_Some (first_queued ts).
Proof.
  revert i. induction ts as [|[o s] ts IH]; intros [|i] H; simplify_eq/=; eauto.
  unfold is_queued; simpl. destruct s; eauto;
    destruct (IH _ H) as [j ->]; simpl; eauto.
Qed.

Lemma running_count_0 ts :
  Forall (λ t, is_running t = false) ts → running_count ts = 0.
Proof.
  unfold running_count. induction 1 as [|t ts Ht _ IH]; [done|].
  rewrite filter_cons. destruct (decide _); [congruence|done].
Qed.

Lemma elem_of_enabled mw st act :
  act ∈ enabled mw st ↔ applicable mw st act = true.
Proof.
  unfold enabled. rewrite list_elem_of_filter. split; [naive_solver|].
  intros H. split; [done|]. unfold candidates.
  destruct act as [|i|i]; simpl in H.
  - left.
  - right. apply elem_of_app. left. apply list_elem_of_fmap.
    exists i. split; [done|]. apply elem_of_seq.
    destruct (tasks st !! i) eqn:E; [|done].
    apply lookup_lt_Some in E. lia.
  - right. apply elem_of_app. right. apply list_elem_of_fmap.
    exists i. split; [done|]. apply elem_of_seq.
    destruct (tasks st !! i) eqn:E; [|by destruct (pending st)].
    apply lookup_lt_Some in E. lia.
Qed.

Lemma sum_list_with_0 (f : task → nat) ts :
  sum_list_with f ts = 0 ↔ Forall (λ t, f t = 0) ts.
Proof.
  induction ts as [|t ts IH]; simpl.
  - split; [constructor|done].
  - rewrite Forall_cons, <- IH. lia.
Qed.

Lemma work_0 st : work st = 0 ↔ finished st.
Proof.
  unfold work, finished, steps_per_item. split.
  - intros H. split; [destruct (pending st); [done|simpl in H; lia]|].
    assert (sum_list_with task_work (tasks st) = 0) as H0 by lia.
    apply sum_list_with_0 in H0. eapply Forall_impl; [done|].
    intros [oid s]; unfold task_work; simpl. destruct s; try lia. eauto.
  - intros [-> H]. simpl.
    apply sum_list_with_0. eapply Forall_impl; [done|].
    by intros [oid s] [r ?]; unfold task_work; simplify_eq/=.
Qed.

Lemma enabled_exists mw st :
  0 < mw → 0 < work st → ∃ act, act ∈ enabled mw st.
Proof.
  intros Hmw Hwork. setoid_rewrite elem_of_enabled.
  destruct (pending st) as [|oid rest] eqn:Hpend.
  2:{ exists Submit. simpl. by rewrite Hpend. }
  destruct (decide (Exists (λ t, is_done t = true) (tasks st)))
    as [(t & Ht & Hr)%Exists_exists|Hdone%not_Exists_Forall].
  { apply list_elem_of_lookup in Ht as [i Hi].
    exists (Collect i). simpl. rewrite Hpend, Hi; simpl.
    unfold is_done in Hr. by destruct (t_status t). }
  destruct (decide (Exists (λ t, is_running t = true) (tasks st)))
    as [(t & Ht & Hr)%Exists_exists|Hrun%not_Exists_Forall].
  { apply list_elem_of_lookup in Ht as [i Hi].
    exists (Step i). simpl. rewrite Hi; simpl.
    unfold is_running in Hr. by destruct (t_status t). }
  destruct (decide (Exists (λ t, is_queued t = true) (tasks st)))
    as [(t & Ht & Hq)%Exists_exists|Hqu%not_Exists_Forall].
  { apply list_elem_of_lookup in Ht as [i Hi]. destruct t as [o s].
    unfold is_queued in Hq. simpl in Hq. destruct s; try done.
    destruct (first_queued_exists _ _ _ Hi) as [j Hj].
    destruct (first_queued_Some _ _ Hj) as [o' Hj'].
    exists (Step j). simpl. rewrite Hj'; simpl.
    apply bool_decide_eq_true. split; [done|].
    rewrite running_count_0; [done|].
    eapply Forall_impl; [exact Hrun|]. simpl. intros x Hx.
    by destruct (is_running x). }
  exfalso. assert (work st = 0); [|lia].
  apply work_0. split; [done|].
  apply Forall_forall. intros [o s] Hin.
  rewrite Forall_forall in Hdone, Hrun, Hqu.
  specialize (Hdone _ Hin). specialize (Hrun _ Hin). specialize (Hqu _ Hin).
  unfold is_running, is_done, is_queued in *. simpl in *.
  destruct s; [done|done|done|eauto].
  all: intros; apply _.
Qed.

Lemma pool_step_work mw a st :
  0 < mw → 0 < work st → work (pool_step dir mw a st) < work st.
Proof.
  intros Hmw Hwork. unfold pool_step.
  destruct (enabled_exists mw st Hmw Hwork) as [act0 Hact0].
  assert (0 < length (enabled mw st)) as Hlen.
  { destruct (enabled mw st); [by apply elem_of_nil in Hact0|simpl; lia]. }
  destruct (lookup_lt_is_Some_2 (enabled mw st)
              (a_pick a mod length (enabled mw st))) as [act Hact].
  { apply Nat.mod_upper_bound. lia. }
  rewrite Hact. eapply perform_work, list_elem_of_lookup_2, Hact.
Qed.

Lemma pool_step_finished mw a st :
  work st = 0 → pool_step dir mw a st = st.
Proof.
  intros H0. unfold pool_step.
  destruct (enabled mw st !! _) as [act|] eqn:E; [|done].
  apply list_elem_of_lookup_2 in E.
  pose proof (perform_work a act mw st E). lia.
Qed.

Lemma run_work mw env fuel t st :
  0 < mw → work (run dir mw env fuel t st) ≤ work st - fuel.
Proof.
  intros Hmw. revert t st.
  induction fuel as [|fuel IH]; intros t st; simpl; [lia|].
  etrans; [apply IH|].
  destruct (decide (work st = 0)) as [H0|Hne].
  - rewrite pool_step_finished by done. lia.
  - pose proof (pool_step_work mw (env t) st Hmw). lia.
Qed.

(** With at least one worker, [download_with_eta] ends with every item
    submitted, executed and reported. *)
Lemma download_finishes env w ids mw st :
  download_with_eta dir env w ids mw = inr st → finished st.
Proof.
  intros [Hmw ->]%download_with_eta_eq. apply work_0.
  pose proof (run_work (Z.to_nat mw) env (steps_per_item * length ids) 0
                (initial w ids)) as H.
  assert (work (initial w ids) = steps_per_item * length ids) as Hw
    by (unfold work, initial; simpl; lia).
  specialize (H ltac:(lia)). lia.
Qed.

(** *** What one worker step does to the shared state *)

Lemma worker_step_files_other a oid c w nx w' p :
  worker_step dir a oid c w = (nx, w') → p ≠ file_of dir oid →
  files w' !! p = files w !! p.
Proof.
  intros H Hp. destruct c; simpl in H; repeat case_match; simplify_eq/=;
    by rewrite ?lookup_insert_ne.
Qed.

Lemma worker_step_files_grow a oid c w nx w' p :
  worker_step dir a oid c w = (nx, w') →
  is_Some (files w !! p) → is_Some (files w' !! p).
Proof.
  intros H Hp. destruct c; simpl in H; repeat case_match; simplify_eq/=;
    try done; rewrite lookup_insert; case_decide; eauto.
Qed.

Lemma worker_step_log a oid c w nx w' :
  worker_step dir a oid c w = (nx, w') →
  log w' = log w ++ option_list (match nx with
                                 | Return r => log_record r
                                 | Continue _ => None
                                 end).
Proof.
  intros H. destruct c; simpl in H; repeat case_match; simplify_eq/=;
    by rewrite ?app_nil_r.
Qed.

Lemma worker_step_result a oid c w r w' :
  worker_step dir a oid c w = (Return r, w') → result_oid r = oid.
Proof.
  intros H. by destruct c; simpl in H; repeat case_match; simplify_eq/=.
Qed.

(** *** Tasks, submitted items and outcomes *)

Lemma fmap_oid_insert (ts : list task) i oid s s' :
  ts !! i = Some (Task oid s) →
  t_oid <$> <[i := Task oid s']> ts = t_oid <$> ts.
Proof.
  intros H. rewrite list_fmap_insert. apply list_insert_id.
  by rewrite list_lookup_fmap, H.
Qed.

Lemma insert_middle (l1 l2 : list task) t t' :
  <[length l1 := t']> (l1 ++ t :: l2) = l1 ++ t' :: l2.
Proof. rewrite insert_app_r_alt by lia. by rewrite Nat.sub_diag. Qed.

Lemma omap_insert_perm {B} (f : task → option B) (ts : list task) i t t' :
  ts !! i = Some t →
  omap f (<[i := t']> ts) ++ option_list (f t)
  ≡ₚ omap f ts ++ option_list (f t').
Proof.
  intros (l1 & l2 & -> & ->)%list_elem_of_split_length.
  rewrite insert_middle, !omap_app. simpl.
  destruct (f t), (f t'); simpl; solve_Permutation.
Qed.

Lemma omap_insert_same {B} (f : task → option B) (ts : list task) i t t' :
  ts !! i = Some t → f t = f t' → omap f (<[i := t']> ts) = omap f ts.
Proof.
  intros (l1 & l2 & -> & ->)%list_elem_of_split_length Hf.
  rewrite insert_middle, !omap_app. simpl. by rewrite Hf.
Qed.

Lemma omap_insert_new {B} (f : task → option B) (ts : list task) i t t' y :
  ts !! i = Some t → f t = None → f t' = Some y →
  omap f (<[i := t']> ts) ≡ₚ omap f ts ++ [y].
Proof.
  intros H Hf Hf'. pose proof (omap_insert_perm f ts i t t' H) as Hp.
  by rewrite Hf, Hf', app_nil_r in Hp.
Qed.

Lemma worker_move_reported a oid s w s' w' :
  worker_move dir a oid s w = Some (s', w') →
  reported (Task oid s) = None ∧ reported (Task oid s') = None.
Proof.
  destruct s as [|c|r|r]; simpl; intros H; simplify_eq/=; [done|].
  destruct (worker_step dir a oid c w) as [[c'|r] w'']; by simplify_eq/=.
Qed.

Lemma perform_well_formed ids a act st :
  well_formed ids st → well_formed ids (perform dir a act st).
Proof.
  intros HP. apply perform_inv; [..|done]; destruct HP as (Hids & Hown & Hout).
  - intros oid rest Hpend. split_and!; simpl.
    + rewrite fmap_app, <- app_assoc. simpl. by rewrite <- Hpend.
    + apply Forall_app. split; [done|]. by repeat constructor.
    + rewrite omap_app. simpl. by rewrite app_nil_r.
  - intros i oid s s' w' Hi Hmove. split_and!; simpl.
    + by erewrite fmap_oid_insert.
    + apply Forall_insert; [done|]. unfold returned. intros r Hr.
      destruct s as [|c| |]; simplify_eq/=.
      destruct (worker_step dir a oid c (shared st)) as [[c'|r'] w''] eqn:E;
        simplify_eq/=. by eapply worker_step_result.
    + destruct (worker_move_reported _ _ _ _ _ _ Hmove) as [H1 H2].
      erewrite omap_insert_same; [done..|congruence].
  - intros i oid r Hi. split_and!; simpl.
    + by erewrite fmap_oid_insert.
    + apply Forall_insert; [done|]. unfold returned. intros r' Hr'.
      simplify_eq/=. by apply (Forall_lookup_1 _ _ _ _ Hown Hi).
    + rewrite omap_insert_new; [|done..]. by rewrite Hout.
Qed.

Lemma run_well_formed ids mw env fuel t st :
  well_formed ids st → well_formed ids (run dir mw env fuel t st).
Proof.
  apply (run_inv (λ _, True)); [|done].
  intros. by apply perform_well_formed.
Qed.

Lemma initial_well_formed w ids : well_formed ids (initial w ids).
Proof. unfold well_formed, initial; simpl. split_and!; [done|constructor|done]. Qed.

Lemma omap_reported_oids ts :
  Forall (λ t, ∃ r, t_status t = Reported r) ts →
  Forall (λ t, ∀ r, returned t = Some r → result_oid r = t_oid t) ts →
  result_oid <$> omap reported ts = t_oid <$> ts.
Proof.
  induction 1 as [|[oid s] ts [r Hr] _ IH]; intros Hown; [done|].
  apply Forall_cons in Hown as [Ho Hown]. simpl in Hr. subst s.
  simpl. unfold reported at 1. simpl. f_equal; [|by apply IH].
  by apply Ho.
Qed.

(** Every item gets exactly one outcome. *)
Lemma download_outcomes env w ids mw st :
  download_with_eta dir env w ids mw = inr st →
  result_oid <$> outcomes st ≡ₚ ids.
Proof.
  intros H. pose proof (download_finishes _ _ _ _ _ H) as [Hpend Hrep].
  apply download_with_eta_eq in H as [Hmw ->].
  destruct (run_well_formed ids (Z.to_nat mw) env
              (steps_per_item * length ids) 0 _ (initial_well_formed w ids))
    as (Hids & Hown & Hout).
  rewrite Hout, omap_reported_oids by done.
  rewrite Hpend, app_nil_r in Hids. by rewrite Hids.
Qed.

(** *** The log *)

Lemma worker_move_logged a oid s w s' w' :
  worker_move dir a oid s w = Some (s', w') →
  logged (Task oid s) = None
  ∧ log w' = log w ++ option_list (logged (Task oid s')).
Proof.
  destruct s as [|c|r|r]; simpl; intros H; simplify_eq/=.
  - by rewrite app_nil_r.
  - destruct (worker_step dir a oid c w) as [nx w''] eqn:E. simplify_eq.
    split; [done|]. rewrite (worker_step_log _ _ _ _ _ _ E).
    by destruct nx.
Qed.

Lemma perform_log log0 a act st :
  log (shared st) ≡ₚ log0 ++ omap logged (tasks st) →
  log (shared (perform dir a act st))
  ≡ₚ log0 ++ omap logged (tasks (perform dir a act st)).
Proof.
  intros HP. apply perform_inv; [..|done]; simpl.
  - intros oid rest _. rewrite omap_app. simpl. by rewrite app_nil_r.
  - intros i oid s s' w' Hi Hmove.
    destruct (worker_move_logged _ _ _ _ _ _ Hmove) as [Hs ->].
    pose proof (omap_insert_perm logged _ _ _ (Task oid s') Hi) as Hp.
    rewrite Hs, app_nil_r in Hp. by rewrite Hp, HP, app_assoc.
  - intros i oid r Hi. by erewrite omap_insert_same.
Qed.

Lemma run_log log0 mw env fuel t st :
  log (shared st) ≡ₚ log0 ++ omap logged (tasks st) →
  log (shared (run dir mw env fuel t st))
  ≡ₚ log0 ++ omap logged (tasks (run dir mw env fuel t st)).
Proof.
  apply (run_inv (λ _, True)
           (λ st, log (shared st) ≡ₚ log0 ++ omap logged (tasks st))); [|done].
  intros. by apply perform_log.
Qed.

Lemma omap_cons_list {B C} (f : B → option C) x l :
  omap f (x :: l) = option_list (f x) ++ omap f l.
Proof. simpl. by destruct (f x). Qed.

Lemma omap_logged_reported ts :
  Forall (λ t, ∃ r, t_status t = Reported r) ts →
  omap logged ts = omap log_record (omap reported ts).
Proof.
  induction 1 as [|[oid s] ts [r Hr] _ IH]; [done|].
  simpl in Hr. subst s. rewrite !omap_cons_list, IH.
  unfold logged, reported, returned. simpl. by destruct (log_record r).
Qed.

Lemma omap_log_record_length rs :
  length (omap log_record rs)
  = length (filter (λ r, outcome_of r ≠ Skipped) rs).
Proof.
  induction rs as [|r rs IH]; [done|].
  rewrite omap_cons_list, filter_cons, length_app, IH.
  by destruct r.
Qed.

(** The records appended to the log are those of the outcomes that are
    not skips. *)
Lemma download_log env w ids mw st :
  download_with_eta dir env w ids mw = inr st →
  log (shared st) ≡ₚ log w ++ omap log_record (outcomes st).
Proof.
  intros H. pose proof (download_finishes _ _ _ _ _ H) as [Hpend Hrep].
  apply download_with_eta_eq in H as [Hmw ->].
  destruct (run_well_formed ids (Z.to_nat mw) env
              (steps_per_item * length ids) 0 _ (initial_well_formed w ids))
    as (_ & _ & Hout).
  rewrite (run_log (log w)).
  - by rewrite omap_logged_reported, Hout.
  - simpl. by rewrite app_nil_r.
Qed.

(** *** A file that exists is never written again *)

Lemma worker_move_files_other a oid s w s' w' p :
  worker_move dir a oid s w = Some (s', w') → p ≠ file_of dir oid →
  files w' !! p = files w !! p.
Proof.
  destruct s as [|c|r|r]; simpl; intros H Hp; simplify_eq/=; [done|].
  destruct (worker_step dir a oid c w) as [nx w''] eqn:E. simplify_eq.
  by eapply worker_step_files_other.
Qed.

Lemma worker_move_not_entered a oid s w s' w' :
  worker_move dir a oid s w = Some (s', w') →
  is_Some (files w !! file_of dir oid) → not_entered s →
  not_entered s' ∧ files w' = files w ∧ log w' = log w
  ∧ ∃ evs, trace w' = trace w ++ evs ∧ ∀ url, EvGet url ∉ evs.
Proof.
  intros H [d Hd] Hs. destruct s as [|c|r|r]; simplify_eq/=.
  - split_and!; [done..|]. eexists; split; [done|].
    intros url ?%list_elem_of_singleton. done.
  - destruct c; try done. simpl in H. rewrite Hd in H. simplify_eq/=.
    split_and!; [done..|]. eexists; split; [done|].
    intros url ?%list_elem_of_singleton. done.
Qed.



(** *** A run on cached items touches nothing *)

Lemma perform_quiet files0 log0 trace0 a act st :
  quiet dir files0 log0 trace0 st →
  quiet dir files0 log0 trace0 (perform dir a act st).
Proof.
  intros HP. apply perform_inv; [..|done];
    destruct HP as (Hf & Hl & Hpend & Hts & new & Hnew & Hget).
  - intros oid rest Hp. rewrite Hp in Hpend.
    apply Forall_cons in Hpend as [Hoid Hrest].
    split_and!; simpl; [done..| |].
    + apply Forall_app. split; [done|]. by repeat constructor.
    + exists (new ++ [EvSubmit oid]). split.
      * unfold extends in *; simpl. by rewrite Hnew, app_assoc.
      * intros url [?|?%list_elem_of_singleton]%elem_of_app; [|done].
        by eapply Hget.
  - intros i oid s s' w' Hi Hmove.
    destruct (Forall_lookup_1 _ _ _ _ Hts Hi) as [Hc Hs]. simpl in *.
    destruct (worker_move_not_entered _ _ _ _ _ _ Hmove)
      as (Hs' & Hf' & Hl' & evs & Hevs & Hnoget); [by rewrite Hf|done|].
    split_and!; simpl; [congruence|congruence|done| |].
    + by apply Forall_insert.
    + exists (new ++ evs). split.
      * unfold extends in *; simpl. by rewrite Hevs, Hnew, app_assoc.
      * intros url [?|?]%elem_of_app; [by eapply Hget|by eapply Hnoget].
  - intros i oid r Hi.
    destruct (Forall_lookup_1 _ _ _ _ Hts Hi) as [Hc Hs]. simpl in *.
    split_and!; simpl; [done..| |].
    + by apply Forall_insert.
    + exists (new ++ [EvPrint (message r)]). split.
      * unfold extends in *; simpl. by rewrite Hnew, app_assoc.
      * intros url [?|?%list_elem_of_singleton]%elem_of_app; [|done].
        by eapply Hget.
Qed.

Lemma run_quiet files0 log0 trace0 mw env fuel t st :
  quiet dir files0 log0 trace0 st →
  quiet dir files0 log0 trace0 (run dir mw env fuel t st).
Proof.
  apply (run_inv (λ _, True)); [|done]. intros. by apply perform_quiet.
Qed.

Lemma reported_outcome ids st r :
  well_formed ids st → r ∈ outcomes st →
  ∃ t, t ∈ tasks st ∧ t_status t = Reported r ∧ t_oid t = result_oid r.
Proof.
  intros (_ & Hown & Hout) Hr. rewrite Hout in Hr.
  apply list_elem_of_omap in Hr as (t & Ht & Hrep).
  exists t. split; [done|]. rewrite Forall_forall in Hown.
  specialize (Hown t Ht r). unfold reported, returned in *.
  destruct (t_status t); simplify_eq/=. split; [done|]. symmetry. by apply Hown.
Qed.

(** *** Submissions, starts and requests in the trace *)

Lemma worker_step_trace a oid c w nx w' :
  worker_step dir a oid c w = (nx, w') →
  ∃ evs, trace w' = trace w ++ evs ∧ ∀ url, EvGet url ∈ evs → url = link oid.
Proof.
  intros H. destruct c; simpl in H; repeat case_match; simplify_eq/=;
    rewrite <- ?app_assoc; (eexists; split; [done || by rewrite app_nil_r|]);
    intros url Hin; decompose_list_elem_of; by simplify_eq.
Qed.

Lemma worker_move_trace a oid s w s' w' :
  worker_move dir a oid s w = Some (s', w') →
  ∃ evs, trace w' = trace w ++ evs
    ∧ (∀ url, EvGet url ∈ evs → url = link oid)
    ∧ (s = Queued → EvStart oid ∈ evs).
Proof.
  destruct s as [|c|r|r]; simpl; intros H; simplify_eq/=.
  - eexists; split_and!; [done| |by left].
    by intros url ?%list_elem_of_singleton.
  - destruct (worker_step dir a oid c w) as [nx w''] eqn:E. simplify_eq.
    destruct (worker_step_trace _ _ _ _ _ _ E) as (evs & ? & ?).
    by exists evs.
Qed.

Lemma perform_announced trace0 a act st :
  announced trace0 st → announced trace0 (perform dir a act st).
Proof.
  intros HP. apply perform_inv; [..|done]; destruct HP as (new & Hnew & Hts);
    unfold announced, extends in *; simpl.
  - intros oid rest _. exists (new ++ [EvSubmit oid]).
    split; [by rewrite Hnew, app_assoc|].
    apply Forall_app. split.
    + eapply Forall_impl; [done|]. intros t [??].
      split; [|intros ?]; apply elem_of_app; left; auto.
    + repeat constructor; [|done]. simpl. apply elem_of_app. right. by left.
  - intros i oid s s' w' Hi Hmove.
    destruct (worker_move_trace _ _ _ _ _ _ Hmove) as (evs & -> & _ & Hst).
    exists (new ++ evs). split; [by rewrite Hnew, app_assoc|].
    destruct (Forall_lookup_1 _ _ _ _ Hts Hi) as [Hsub Hstart].
    apply Forall_insert.
    + eapply Forall_impl; [done|]. intros t [??].
      split; [|intros ?]; apply elem_of_app; left; auto.
    + simpl in *. split; [apply elem_of_app; by left|]. intros _.
      apply elem_of_app. unfold is_queued in Hstart. simpl in Hstart.
      destruct s; [right; by apply Hst|left; by apply Hstart..].
  - intros i oid r Hi. exists (new ++ [EvPrint (message r)]).
    split; [by rewrite Hnew, app_assoc|].
    destruct (Forall_lookup_1 _ _ _ _ Hts Hi) as [Hsub Hstart].
    apply Forall_insert.
    + eapply Forall_impl; [done|]. intros t [??].
      split; [|intros ?]; apply elem_of_app; left; auto.
    + simpl in *. split; [|intros _]; apply elem_of_app; left; auto.
Qed.

Lemma run_announced trace0 mw env fuel t st :
  announced trace0 st → announced trace0 (run dir mw env fuel t st).
Proof.
  apply (run_inv (λ _, True)); [|done]. intros. by apply perform_announced.
Qed.



(** *** An item whose requests all fail *)


Lemma task_oid_in ids st i oid s :
  well_formed ids st → tasks st !! i = Some (Task oid s) → oid ∈ ids.
Proof.
  intros (Hids & _) Hi. rewrite <- Hids. apply elem_of_app. left.
  apply list_elem_of_fmap. exists (Task oid s).
  split; [done|]. by eapply list_elem_of_lookup_2.
Qed.



(** *** [save_html] run alone *)

Lemma save_html_from_total fuel env t oid c w :
  left_steps c < fuel → is_Some (save_html_from dir fuel env t oid c w).
Proof.
  revert t c w. induction fuel as [|fuel IH]; intros t c w Hc; [lia|].
  simpl. destruct (worker_step dir (env t) oid c w) as [[c'|r] w'] eqn:E; [|eauto].
  apply IH. pose proof (worker_step_left _ _ _ _ _ _ E) as Hlt.
  unfold task_work in Hlt. simpl in Hlt. lia.
Qed.

(** [save_html] returns a value, whatever the site and the disk answer. *)
Lemma save_html_total env oid w : is_Some (save_html dir env oid w).
Proof. apply save_html_from_total. simpl. lia. Qed.

Lemma save_html_cached env oid w :
  is_Some (files w !! file_of dir oid) →
  save_html dir env oid w
  = Some (AlreadySaved oid, emit (EvExists (file_path dir oid) true) w).
Proof. intros [d Hd]. unfold save_html. simpl. by rewrite Hd. Qed.

Lemma save_html_from_S fuel env t oid c w :
  save_html_from dir (S fuel) env t oid c w
  = match worker_step dir (env t) oid c w with
    | (Return r, w') => Some (r, w')
    | (Continue c', w') => save_html_from dir fuel env (S t) oid c' w'
    end.
Proof. done. Qed.



(** Unless [f.write] fails, a failed [save_html] leaves the files as
    they were. *)
Lemma save_html_from_failed fuel env t oid c w r w' files0 :
  save_html_from dir fuel env t oid c w = Some (r, w') →
  (∀ t, a_write (env t) (file_path dir oid) = None) →
  match c with
  | AtWrite _ | AtLogSuccess => True
  | _ => files w = files0
  end →
  outcome_of r = Failed → files w' = files0.
Proof.
  intros H Hw. revert t c w H.
  induction fuel as [|fuel IH]; intros t c w H Hc Hr; [done|].
  simpl in H. destruct (worker_step dir (env t) oid c w) as [nx w1] eqn:E.
  destruct c; simpl in E; repeat case_match; simplify_eq/=;
    try done; try (by eapply IH);
    try (by rewrite Hw in *).
Qed.

Lemma save_html_failed env oid w r w' :
  save_html dir env oid w = Some (r, w') →
  (∀ t, a_write (env t) (file_path dir oid) = None) →
  outcome_of r = Failed → files w' = files w.
Proof. intros H Hw. by eapply save_html_from_failed. Qed.



(** *** What the run leaves in the cache *)

Lemma worker_move_files_grow a oid s w s' w' p :
  worker_move dir a oid s w = Some (s', w') →
  is_Some (files w !! p) → is_Some (files w' !! p).
Proof.
  destruct s as [|c|r|r]; simpl; intros H Hp; simplify_eq/=; [done|].
  destruct (worker_step dir a oid c w) as [nx w''] eqn:E. simplify_eq.
  by eapply worker_step_files_grow.
Qed.

Lemma worker_move_has_saved a oid s w s' w' :
  worker_move dir a oid s w = Some (s', w') →
  (has_saved s → is_Some (files w !! file_of dir oid)) →
  has_saved s' → is_Some (files w' !! file_of dir oid).
Proof.
  destruct s as [|c|r|r]; simpl; intros H Hs Hs'; simplify_eq/=; [done|].
  destruct (worker_step dir a oid c w) as [nx w''] eqn:E. simplify_eq.
  destruct c; simpl in E; repeat case_match; simplify_eq/=; try done;
    try (by apply Hs); by rewrite ?lookup_insert_eq.
Qed.

Lemma perform_holds_files a act st :
  holds_files dir st → holds_files dir (perform dir a act st).
Proof.
  intros HP. apply perform_inv; [..|done]; unfold holds_files in *; simpl.
  - intros oid rest _. apply Forall_app. split; [done|]. by repeat constructor.
  - intros i oid s s' w' Hi Hmove.
    pose proof (Forall_lookup_1 _ _ _ _ HP Hi) as Hs. simpl in Hs.
    apply Forall_insert.
    + eapply Forall_impl; [done|]. intros t Ht Hsaved.
      eapply worker_move_files_grow; [done|]. by apply Ht.
    + simpl. by eapply worker_move_has_saved.
  - intros i oid r Hi.
    pose proof (Forall_lookup_1 _ _ _ _ HP Hi) as Hs. simpl in Hs.
    by apply Forall_insert.
Qed.

Lemma run_holds_files mw env fuel t st :
  holds_files dir st → holds_files dir (run dir mw env fuel t st).
Proof.
  apply (run_inv (λ _, True)); [|done]. intros. by apply perform_holds_files.
Qed.

(** After a run without a failure every item is in the cache. *)
Lemma download_populates env w ids mw st :
  download_with_eta dir env w ids mw = inr st →
  (∀ r, r ∈ outcomes st → outcome_of r ≠ Failed) →
  ∀ oid, oid ∈ ids → is_Some (files (shared st) !! file_of dir oid).
Proof.
  intros H Hok oid Hoid.
  pose proof (download_finishes _ _ _ _ _ H) as [Hpend Hrep].
  apply download_with_eta_eq in H as [Hmw ->].
  set (st := run dir _ _ _ _ _) in *.
  destruct (run_well_formed ids (Z.to_nat mw) env
              (steps_per_item * length ids) 0 _ (initial_well_formed w ids))
    as (Hids & Hown & Hout). fold st in Hids, Hown, Hout.
  assert (holds_files dir st) as Hfiles.
  { apply run_holds_files. constructor. }
  rewrite Hpend, app_nil_r in Hids. rewrite <- Hids in Hoid.
  apply list_elem_of_fmap in Hoid as (t & -> & Ht).
  unfold holds_files in Hfiles. rewrite Forall_forall in Hrep, Hfiles.
  destruct (Hrep t Ht) as [r Hr]. apply Hfiles; [done|].
  rewrite Hr. simpl. apply Hok. rewrite Hout.
  apply list_elem_of_omap. exists t. split; [done|].
  unfold reported. by rewrite Hr.
Qed.

End pool_facts.

Section fetch_once.
Import Worker Props.
Context {fs : Naming}.
Variable dir : string.

Lemma count_event_nil e : count_event e [] = 0.
Proof. done. Qed.

Lemma count_event_app e l k :
  count_event e (l ++ k) = count_event e l + count_event e k.
Proof. unfold count_event. by rewrite filter_app, length_app. Qed.

Lemma count_event_cons e x l :
  count_event e (x :: l) = (if decide (x = e) then 1 else 0) + count_event e l.
Proof. unfold count_event. rewrite filter_cons. by case_decide. Qed.

Local Opaque link file_path count_event.

(** What a step of a task of another item adds to the trace. *)
Lemma worker_move_other a o oid s w s' w' :
  worker_move dir a o s w = Some (s', w') →
  file_of dir o ≠ file_of dir oid →
  ∃ evs, trace w' = trace w ++ evs
    ∧ submissions oid evs = 0 ∧ fetch_sequences dir oid evs = 0
    ∧ requests oid evs = 0.
Proof.
  intros H Hf.
  assert (o ≠ oid) as Hne by (by intros ->).
  assert (file_path dir o ≠ file_path dir oid)
    by (intros Heq; apply Hf; unfold file_of; by rewrite Heq).
  assert (link o ≠ link oid) by (by intros ?%link_inj).
  unfold submissions, fetch_sequences, requests.
  destruct s as [|c|r|r]; simpl in H; simplify_eq/=.
  - eexists; split; [done|].
    rewrite !count_event_cons, !count_event_nil.
    repeat case_decide; simplify_eq; done.
  - destruct (worker_step dir a o c w) as [nx w1] eqn:E. simplify_eq.
    destruct c; simpl in E; repeat case_match; simplify_eq/=;
      rewrite <- ?app_assoc;
      (eexists; split; [done || by rewrite app_nil_r|]);
      cbn [app]; rewrite ?count_event_cons, ?count_event_nil;
      repeat case_decide; simplify_eq; done.
Qed.

(** What a step of the task of the item does. *)
Lemma worker_move_phase a oid s w s' w' new :
  worker_move dir a oid s w = Some (s', w') →
  phase s (files w !! file_of dir oid)
        (fetch_sequences dir oid new) (requests oid new) →
  ∃ evs, trace w' = trace w ++ evs
    ∧ submissions oid evs = 0
    ∧ phase s' (files w' !! file_of dir oid)
            (fetch_sequences dir oid (new ++ evs)) (requests oid (new ++ evs)).
Proof.
  intros H Hph. unfold submissions, fetch_sequences, requests in *.
  destruct s as [|c|r|r]; simpl in H; simplify_eq/=.
  - eexists; split; [done|].
    rewrite !count_event_app, !count_event_cons, !count_event_nil.
    repeat case_decide; simplify_eq. split; [done|]. cbn [phase].
    destruct Hph as (? & ? & ?). split_and!; [done|lia..].
  - destruct (worker_step dir a oid c w) as [nx w1] eqn:E. simplify_eq.
    destruct c; simpl in E; repeat case_match; simplify_eq/=;
      rewrite <- ?app_assoc;
      (eexists; split; [done || by rewrite app_nil_r|]);
      rewrite ?count_event_app; cbn [app];
      rewrite ?count_event_cons, ?count_event_nil;
      repeat case_decide; simplify_eq; cbn [phase files trace] in *;
      try (destruct Hph as (? & ? & ?)); try (destruct Hph as (? & ?));
      simplify_eq; rewrite ?lookup_insert_eq; repeat split; try done; try lia.
Qed.

Lemma oid_of_task (ts : list task) j t :
  ts !! j = Some t → (t_oid <$> ts) !! j = Some (t_oid t).
Proof. intros H. by rewrite list_lookup_fmap, H. Qed.

Lemma perform_once ids oid trace0 a act st :
  alone dir ids oid → well_formed ids st →
  once dir oid trace0 st → once dir oid trace0 (perform dir a act st).
Proof.
  intros Halone Hwf HP. apply perform_inv; [..|done];
    destruct HP as (new & Hnew & Hnd & Hpend & Hts);
    rewrite Forall_lookup in Hts;
    unfold once, extends, submissions, fetch_sequences, requests in *;
    cbn [pending tasks shared outcomes].
  - intros o rest Hp. rewrite Hp in Hnd, Hpend.
    exists (new ++ [EvSubmit o]).
    apply NoDup_app in Hnd as Hnd'. destruct Hnd' as (_ & Hdisj & Hnd').
    apply NoDup_cons in Hnd' as [Ho _].
    rewrite !count_event_app, !count_event_cons, !count_event_nil.
    split_and!.
    + cbn [emit trace]. by rewrite Hnew, app_assoc.
    + by rewrite fmap_app, <- app_assoc.
    + intros Hin. destruct (Hpend ltac:(by right)) as (? & ? & ? & ?).
      assert (o ≠ oid) by (by intros ->).
      repeat case_decide; simplify_eq. split_and!; [done|lia..].
    + apply Forall_app. split.
      * apply Forall_lookup. intros j t Hj Hoid.
        destruct (Hts j t Hj Hoid) as [? ?].
        assert (o ≠ oid).
        { intros ->. eapply Hdisj; [|by left].
          apply list_elem_of_fmap. exists t. split; [done|].
          by eapply list_elem_of_lookup_2. }
        repeat case_decide; simplify_eq.
        rewrite !Nat.add_0_r. done.
      * repeat constructor; cbn [t_oid t_status] in *; subst o;
          destruct (Hpend ltac:(by left)) as (? & ? & ? & ?);
          repeat case_decide; simplify_eq; cbn [phase emit files];
          rewrite ?Nat.add_0_r; try done; lia.
  - intros i o s s' w' Hi Hmove.
    assert ((t_oid <$> tasks st) !! i = Some o) as Hio
      by (by rewrite list_lookup_fmap, Hi).
    apply NoDup_app in Hnd as Hnd'. destruct Hnd' as (Hndt & Hdisj & _).
    destruct (decide (o = oid)) as [->|Hne].
    + destruct (Hts i _ Hi eq_refl) as [Hs Hph]. cbn [t_status] in Hph.
      destruct (worker_move_phase _ _ _ _ _ _ new Hmove Hph)
        as (evs & Hevs & Hsub & Hph').
      exists (new ++ evs). split_and!.
      * by rewrite Hevs, Hnew, app_assoc.
      * by erewrite fmap_oid_insert.
      * intros Hin. exfalso. eapply Hdisj; [|done].
        by eapply list_elem_of_lookup_2.
      * apply Forall_lookup. intros j t Hj Hoid.
        apply list_lookup_insert_Some in Hj as [(<- & <- & _)|[Hij Hj]].
        -- split; [|done]. unfold submissions in Hsub.
           rewrite count_event_app, Hsub. lia.
        -- exfalso. apply Hij.
           eapply NoDup_lookup; [exact Hndt|done|].
           rewrite <- Hoid. by apply oid_of_task.
    + assert (file_of dir o ≠ file_of dir oid) as Hfne.
      { intros Heq. apply Hne, Halone; [|done]. by eapply task_oid_in. }
      destruct (worker_move_other _ _ oid _ _ _ _ Hmove Hfne)
        as (evs & Hevs & H1 & H2 & H3).
      unfold submissions, fetch_sequences, requests in *.
      exists (new ++ evs). rewrite !count_event_app, H1, H2, H3, !Nat.add_0_r.
      rewrite (worker_move_files_other dir _ _ _ _ _ _ _ Hmove) by done.
      split_and!.
      * by rewrite Hevs, Hnew, app_assoc.
      * by erewrite fmap_oid_insert.
      * done.
      * apply Forall_lookup. intros j t Hj Hoid.
        apply list_lookup_insert_Some in Hj as [(<- & <- & _)|[Hij Hj]];
          [done|]. by apply (Hts j t).
  - intros i o r Hi. exists (new ++ [EvPrint (message r)]).
    rewrite !count_event_app, !count_event_cons, !count_event_nil.
    repeat case_decide; simplify_eq. rewrite !Nat.add_0_r.
    split_and!.
    + cbn [emit trace]. by rewrite Hnew, app_assoc.
    + by erewrite fmap_oid_insert.
    + done.
    + apply Forall_lookup. intros j t Hj Hoid.
      apply list_lookup_insert_Some in Hj as [(<- & <- & _)|[Hij Hj]];
        [|by apply (Hts j t)].
      by apply (Hts i _ Hi).
Qed.

Lemma run_once ids oid trace0 mw env fuel t st :
  alone dir ids oid → well_formed ids st →
  once dir oid trace0 st → once dir oid trace0 (run dir mw env fuel t st).
Proof.
  intros Halone Hwf Ho.
  cut (well_formed ids (run dir mw env fuel t st)
       ∧ once dir oid trace0 (run dir mw env fuel t st)); [by intros [??]|].
  apply (run_inv dir (λ _, True)
           (λ st, well_formed ids st ∧ once dir oid trace0 st)); [|done|done].
  intros a act st' _ [??]. split.
  - by apply perform_well_formed.
  - by apply (perform_once ids).
Qed.

(** When the items are pairwise distinct and no other item has the
    file of the item, an item absent from the cache at the start of the
    run is submitted once, one task begins a fetch sequence for it, and
    that sequence makes between one and five requests, for any number
    of workers and any interleaving. *)
Lemma download_fetches_once env w ids mw st oid :
  download_with_eta dir env w ids mw = inr st →
  NoDup ids → alone dir ids oid →
  oid ∈ ids → files w !! file_of dir oid = None →
  ∃ new, trace (shared st) = trace w ++ new
    ∧ submissions oid new = 1
    ∧ fetch_sequences dir oid new = 1
    ∧ 1 ≤ requests oid new ≤ 5.
Proof.
  intros H Hnd Halone Hoid Hfile.
  pose proof (download_finishes _ _ _ _ _ _ H) as [Hpend Hrep].
  apply download_with_eta_eq in H as [Hmw ->].
  set (st := run dir _ _ _ _ _) in *.
  destruct (run_well_formed dir ids (Z.to_nat mw) env
              (steps_per_item * length ids) 0 _ (initial_well_formed w ids))
    as (Hids & _ & _). fold st in Hids.
  assert (once dir oid (trace w) st) as (new & Hnew & _ & _ & Hts).
  { apply (run_once ids); [done|apply initial_well_formed|].
    exists []. split_and!.
    - unfold extends; simpl. by rewrite app_nil_r.
    - done.
    - done.
    - constructor. }
  rewrite Hpend, app_nil_r in Hids. rewrite <- Hids in Hoid.
  apply list_elem_of_fmap in Hoid as (t & -> & Ht).
  rewrite Forall_forall in Hrep, Hts.
  destruct (Hrep t Ht) as [r Hr]. destruct (Hts t Ht eq_refl) as [Hs Hph].
  rewrite Hr in Hph. cbn [phase] in Hph.
  exists new. by destruct Hph.
Qed.

(** *** A file that was written stays *)

Lemma worker_move_settled a oid s w s' w' :
  worker_move dir a oid s w = Some (s', w') →
  is_Some (files w !! file_of dir oid) → settled s →
  settled s' ∧ files w' = files w.
Proof.
  intros H [d Hd] Hs. destruct s as [|c|r|r]; simplify_eq/=; [done|].
  destruct c; try done; simpl in H; rewrite ?Hd in H; by simplify_eq/=.
Qed.

Lemma perform_kept p d a act st :
  kept dir p d st → kept dir p d (perform dir a act st).
Proof.
  intros HP. apply perform_inv; [..|done]; destruct HP as [Hf Hts].
  - intros oid rest _. split; [done|]. simpl.
    apply Forall_app. split; [done|]. by repeat constructor.
  - intros i oid s s' w' Hi Hmove. unfold kept; simpl.
    destruct (decide (file_of dir oid = p)) as [<-|Hne].
    + pose proof (Forall_lookup_1 _ _ _ _ Hts Hi eq_refl) as Hs. simpl in Hs.
      destruct (worker_move_settled _ _ _ _ _ _ Hmove) as [? ->];
        [by eauto|done|].
      split; [done|]. by apply Forall_insert.
    + split.
      * by rewrite (worker_move_files_other dir _ _ _ _ _ _ _ Hmove).
      * apply Forall_insert; [done|]. cbn [t_oid t_status]. done.
  - intros i oid r Hi. split; [done|]. simpl. by apply Forall_insert.
Qed.

Lemma run_kept p d mw env fuel t st :
  kept dir p d st → kept dir p d (run dir mw env fuel t st).
Proof.
  apply (run_inv dir (λ _, True)); [|done]. intros. by apply perform_kept.
Qed.

(** Once the worker of an item is done with its file, whether it wrote
    it in full or failed while writing, and no other task has that
    file, the file keeps its content for the rest of the run. *)
Lemma written_file_is_kept env mw st i oid s d :
  (∀ j tj, tasks st !! j = Some tj →
           file_of dir (t_oid tj) = file_of dir oid → j = i) →
  tasks st !! i = Some (Task oid s) → settled s →
  files (shared st) !! file_of dir oid = Some d →
  ∀ n t, files (shared (run dir mw env n t st)) !! file_of dir oid = Some d.
Proof.
  intros Hone Hi Hs Hd n t.
  assert (kept dir (file_of dir oid) d st) as Hk.
  { split; [done|]. apply Forall_lookup. intros j tj Hj Hp.
    rewrite (Hone j tj Hj Hp) in Hj. rewrite Hi in Hj.
    injection Hj as <-. done. }
  by destruct (run_kept _ _ mw env n t _ Hk).
Qed.

End fetch_once.

(** *** What a run adds, one item at a time *)

Section one_item.
Import Worker Props More.
Context {fs : Naming}.
Variable dir : string.

Lemma worker_move_log_app a oid s w s' w' :
  worker_move dir a oid s w = Some (s', w') → ∃ recs, log w' = log w ++ recs.
Proof.
  intros H. destruct (worker_move_logged dir _ _ _ _ _ _ H) as [_ ->]. eauto.
Qed.

Lemma perform_grown ids w0 a act st :
  well_formed ids st → grown dir ids w0 st →
  grown dir ids w0 (perform dir a act st).
Proof.
  intros (Hids & _ & _) HP. apply perform_inv; [..|done];
    destruct HP as ((recs & Hlog) & (new & Htr) & Hgrow & Hframe);
    unfold grown; simpl.
  - intros oid rest _. split_and!; [eauto| |done..].
    exists (new ++ [EvSubmit oid]). by rewrite Htr, app_assoc.
  - intros i oid s s' w' Hi Hmove.
    destruct (worker_move_log_app _ _ _ _ _ _ Hmove) as [recs' ->].
    destruct (worker_move_trace dir _ _ _ _ _ _ Hmove) as (evs & -> & _).
    split_and!.
    + exists (recs ++ recs'). by rewrite Hlog, app_assoc.
    + exists (new ++ evs). by rewrite Htr, app_assoc.
    + intros p Hp. eapply worker_move_files_grow; [done|]. by apply Hgrow.
    + intros p Hp. rewrite <- Hframe by done.
      eapply worker_move_files_other; [done|]. intros ->. apply Hp.
      exists oid. split; [|done]. rewrite <- Hids.
      apply elem_of_app. left. apply list_elem_of_fmap.
      exists (Task oid s). split; [done|]. by eapply list_elem_of_lookup_2.
  - intros i oid r Hi. split_and!; [eauto| |done..].
    exists (new ++ [EvPrint (message r)]). by rewrite Htr, app_assoc.
Qed.

Lemma run_grown ids w0 mw env fuel t st :
  well_formed ids st → grown dir ids w0 st →
  grown dir ids w0 (run dir mw env fuel t st).
Proof.
  intros Hwf Hg.
  cut (well_formed ids (run dir mw env fuel t st)
       ∧ grown dir ids w0 (run dir mw env fuel t st)); [by intros [??]|].
  apply (run_inv dir (λ _, True) (λ st, well_formed ids st ∧ grown dir ids w0 st));
    [|done|done].
  intros a act st' _ [??]. split.
  - by apply perform_well_formed.
  - by apply perform_grown.
Qed.

Lemma download_grown env w ids mw st :
  download_with_eta dir env w ids mw = inr st → grown dir ids w st.
Proof.
  intros [Hmw ->]%download_with_eta_eq.
  apply run_grown; [apply initial_well_formed|].
  split_and!; simpl; [exists []|exists []|done|done]; by rewrite app_nil_r.
Qed.

Lemma download_log_appended env w ids mw st :
  download_with_eta dir env w ids mw = inr st →
  ∃ recs, log (shared st) = log w ++ recs
          ∧ recs ≡ₚ omap log_record (outcomes st).
Proof.
  intros H. pose proof (download_log dir _ _ _ _ _ H) as Hlog.
  destruct (download_grown _ _ _ _ _ H) as ((recs & Hrecs) & _).
  exists recs. split; [done|]. rewrite Hrecs in Hlog.
  by apply Permutation_app_inv_l in Hlog.
Qed.


Lemma distinct_files_NoDup ids : distinct_files dir ids → NoDup ids.
Proof. apply NoDup_fmap_1. Qed.

Lemma distinct_files_alone ids oid :
  distinct_files dir ids → oid ∈ ids → alone dir ids oid.
Proof.
  intros Hnd Hoid o Ho Heq.
  apply list_elem_of_lookup in Hoid as [i Hi].
  apply list_elem_of_lookup in Ho as [j Hj].
  assert (j = i) as ->; [|congruence].
  apply (NoDup_lookup _ j i (file_of dir o) Hnd).
  - by rewrite list_lookup_fmap, Hj.
  - by rewrite list_lookup_fmap, Hi, Heq.
Qed.

(** *** The task of one item *)

Section focus.
Variable ids : list string.
Variable b : string.
Hypothesis ids_NoDup : NoDup ids.
Hypothesis b_alone : alone dir ids b.
Variable Q : answers → Prop.
Variable Pend : option string → Prop.
Variable T : status → option string → Prop.
Hypothesis T_start : ∀ f, Pend f → T Queued f.
Hypothesis T_move : ∀ a s w s' w',
  Q a → worker_move dir a b s w = Some (s', w') →
  T s (files w !! file_of dir b) → T s' (files w' !! file_of dir b).
Hypothesis T_collect : ∀ r f, T (Done r) f → T (Reported r) f.

Lemma perform_focus a act st :
  Q a → well_formed ids st → focus dir b Pend T st →
  focus dir b Pend T (perform dir a act st).
Proof.
  intros Ha Hwf HP. apply perform_inv; [..|done];
    destruct HP as (Hpend & Hts); unfold focus;
    cbn [pending tasks shared outcomes];
    pose proof Hwf as (Hids & _ & _).
  - intros o rest Hp. rewrite Hp in Hpend, Hids.
    assert (NoDup ((t_oid <$> tasks st) ++ o :: rest)) as Hnd
      by (by rewrite Hids).
    apply NoDup_app in Hnd as (_ & _ & Hnd).
    apply NoDup_cons in Hnd as [Ho _].
    cbn [emit files]. split.
    + intros Hb. apply Hpend. by right.
    + apply Forall_app. split; [done|].
      repeat constructor. cbn [t_oid t_status]. intros ->.
      apply T_start, Hpend. by left.
  - intros i o s s' w' Hi Hmove.
    assert (NoDup ((t_oid <$> tasks st) ++ pending st)) as Hnd
      by (by rewrite Hids).
    apply NoDup_app in Hnd as (Hndt & Hdisj & _).
    destruct (decide (o = b)) as [->|Hne].
    + split.
      * intros Hb. exfalso. eapply Hdisj; [|done].
        apply list_elem_of_fmap. exists (Task b s).
        split; [done|]. by eapply list_elem_of_lookup_2.
      * apply Forall_lookup. intros j t Hj Hoid.
        apply list_lookup_insert_Some in Hj as [(<- & <- & _)|[Hij Hj]].
        -- cbn [t_status]. eapply T_move; [done..|].
           by apply (Forall_lookup_1 _ _ _ _ Hts Hi).
        -- exfalso. apply Hij.
           apply (NoDup_lookup _ i j b Hndt).
           ++ by rewrite list_lookup_fmap, Hi.
           ++ by rewrite list_lookup_fmap, Hj, <- Hoid.
    + assert (files w' !! file_of dir b
              = files (shared st) !! file_of dir b) as ->.
      { eapply worker_move_files_other; [done|].
        intros Heq. apply Hne, b_alone; [|done]. by eapply task_oid_in. }
      split; [done|]. apply Forall_insert; [done|].
      cbn [t_oid]. by intros ->.
  - intros i o r Hi. cbn [emit files]. split; [done|].
    apply Forall_insert; [done|]. cbn [t_oid t_status]. intros ->.
    apply T_collect. by apply (Forall_lookup_1 _ _ _ _ Hts Hi).
Qed.

Lemma run_focus mw env fuel t st :
  (∀ t, Q (env t)) → well_formed ids st → focus dir b Pend T st →
  focus dir b Pend T (run dir mw env fuel t st).
Proof.
  intros Henv Hwf Hf.
  cut (well_formed ids (run dir mw env fuel t st)
       ∧ focus dir b Pend T (run dir mw env fuel t st)); [by intros [??]|].
  apply (run_inv dir Q (λ st, well_formed ids st ∧ focus dir b Pend T st));
    [|done|done].
  intros a act st' Ha [??]. split.
  - by apply perform_well_formed.
  - by apply perform_focus.
Qed.

(** What [T] says of the outcome of [b] at the end of a run. *)
Lemma download_focus env w mw st :
  (∀ t, Q (env t)) → b ∈ ids → Pend (files w !! file_of dir b) →
  download_with_eta dir env w ids mw = inr st →
  ∃ r, r ∈ outcomes st ∧ result_oid r = b
       ∧ T (Reported r) (files (shared st) !! file_of dir b)
       ∧ ∀ r', r' ∈ outcomes st → result_oid r' = b → r' = r.
Proof.
  intros Henv Hb HPend H.
  pose proof (download_finishes _ _ _ _ _ _ H) as [Hpend Hrep].
  apply download_with_eta_eq in H as [Hmw ->].
  set (st := run dir _ _ _ _ _) in *.
  pose proof (run_well_formed dir ids (Z.to_nat mw) env
                (steps_per_item * length ids) 0 _
                (initial_well_formed w ids)) as Hwf. fold st in Hwf.
  assert (focus dir b Pend T st) as [_ Hts].
  { apply run_focus; [done|apply initial_well_formed|].
    split; [done|constructor]. }
  pose proof Hwf as (Hids & Hown & Hout).
  rewrite Hpend, app_nil_r in Hids.
  assert (NoDup (t_oid <$> tasks st)) as Hnd by (by rewrite Hids).
  rewrite <- Hids in Hb.
  apply list_elem_of_fmap in Hb as (t & -> & Ht).
  rewrite Forall_forall in Hrep, Hts.
  destruct (Hrep t Ht) as [r Hr].
  pose proof (Hts t Ht eq_refl) as HT. rewrite Hr in HT.
  assert (result_oid r = t_oid t) as Hro.
  { rewrite Forall_forall in Hown. apply (Hown t Ht).
    unfold returned. by rewrite Hr. }
  exists r. split_and!; [|done|done|].
  - rewrite Hout. apply list_elem_of_omap. exists t. split; [done|].
    unfold reported. by rewrite Hr.
  - intros r' Hr' Hoid.
    destruct (reported_outcome ids st r') as (t' & Ht' & Hst' & Ho');
      [done|done|].
    apply list_elem_of_lookup in Ht as [i Hi].
    apply list_elem_of_lookup in Ht' as [j Hj].
    assert (i = j) as <-.
    { apply (NoDup_lookup _ i j (t_oid t) Hnd).
      - by rewrite list_lookup_fmap, Hi.
      - rewrite list_lookup_fmap, Hj. simpl. congruence. }
    rewrite Hi in Hj. injection Hj as <-. congruence.
Qed.

End focus.

(** *** An item whose answers do not change *)






(** *** Where the existence of a file is checked *)







End one_item.

(** * The claims *)

Section discovery_claims.
Import Concur Examples.

(** The example of the specification: of three listing pages the second
    cannot be fetched; the ids of pages 1 and 3 are returned, sorted, and
    the failure of page 2 is printed. *)
Example scrape_three_pages :
  scrape_property_links three_pages 3
  = (["a10"; "a3"; "b7"],
     [EvPrint "Fetching page 1 -> https://www.bestfewo.de/laender/deutschland?page=1";
      EvGet "https://www.bestfewo.de/laender/deutschland?page=1"; EvSleepDelay;
      EvPrint "Fetching page 2 -> https://www.bestfewo.de/laender/deutschland?page=2";
      EvGet "https://www.bestfewo.de/laender/deutschland?page=2";
      EvPrint "❌ Failed to fetch page 2: timeout";
      EvPrint "Fetching page 3 -> https://www.bestfewo.de/laender/deutschland?page=3";
      EvGet "https://www.bestfewo.de/laender/deutschland?page=3"; EvSleepDelay]).
Proof. vm_compute. reflexivity. Qed.

(** C7: a listing page whose fetch or parse raises is reported on the
    standard output, by the line "❌ Failed to fetch page", the number
    of the page, a colon and the text of the exception, printed right
    after the request of that page, and the page is skipped; discovery
    goes on with the next page, returns a value for every site, and
    the ids it returns are exactly those of the anchors of the pages
    that were fetched and parsed. *)
Theorem C7_failed_page_is_skipped (web : site) (pages : Z) :
  let res := scrape_property_links web pages in
  (∀ x, x ∈ res.1 ↔
        ∃ p anchors, (1 ≤ p ≤ pages)%Z ∧ web p = PageParsed anchors
                     ∧ Some x ∈ anchors ∧ x ≠ "")
  ∧ res.2 = page_range pages ≫= page_events web
  ∧ (∀ p e, (1 ≤ p ≤ pages)%Z → web p = PageRaises e →
            EvPrint ("❌ Failed to fetch page " +:+ pretty p +:+ ": " +:+ e)
              ∈ res.2
            ∧ ∃ before after,
                res.2
                = before
                  ++ [EvGet ("https://www.bestfewo.de/laender/deutschland?page="
                             +:+ pretty p);
                      EvPrint ("❌ Failed to fetch page " +:+ pretty p
                               +:+ ": " +:+ e)]
                  ++ after)
  ∧ (∀ p, (1 ≤ p ≤ pages)%Z →
          EvGet ("https://www.bestfewo.de/laender/deutschland?page="
                 +:+ pretty p) ∈ res.2).
Proof.
  cbn zeta. rewrite scrape_property_links_eq. cbn [fst snd].
  rewrite scrape_loop_trace. split_and!.
  - intros x. rewrite sorted_elem, scrape_loop_ids. unfold found_on.
    by setoid_rewrite page_range_elem.
  - done.
  - intros p e Hp He. split.
    + apply list_elem_of_bind. exists p.
      split; [|by apply page_range_elem].
      unfold page_events. rewrite He.
      apply elem_of_app. right. by left.
    + apply page_range_elem, list_elem_of_split in Hp as (l1 & l2 & ->).
      rewrite bind_app, bind_cons. unfold page_events at 2. rewrite He.
      exists ((l1 ≫= page_events web) ++ [EvPrint (fetching_line p)]),
             (l2 ≫= page_events web).
      by rewrite <- !app_assoc.
  - intros p Hp. apply list_elem_of_bind. exists p.
    split; [|by apply page_range_elem].
    unfold page_events. apply elem_of_app. left. right. by left.
Qed.

Lemma C7_witness :
  (1 ≤ 2 ≤ 3)%Z ∧ three_pages 2%Z = PageRaises "timeout"
  ∧ EvPrint "❌ Failed to fetch page 2: timeout"
      ∈ (scrape_property_links three_pages 3%Z).2
  ∧ EvGet "https://www.bestfewo.de/laender/deutschland?page=3"
      ∈ (scrape_property_links three_pages 3%Z).2
  ∧ (scrape_property_links three_pages 3%Z).1 = ["a10"; "a3"; "b7"].
Proof.
  pose proof (C7_failed_page_is_skipped three_pages 3) as (_ & _ & H1 & H2).
  split_and!; [lia|lia|reflexivity| | |vm_compute; reflexivity].
  - destruct (H1 2%Z "timeout") as [H _]; [lia|reflexivity|]. exact H.
  - apply (H2 3%Z). lia.
Defined.

(** C9: the list of ids that [scrape_property_links] returns is in
    ascending order for the bytewise (code point) order of strings, has
    no duplicate, holds exactly the ids discovered, and is the same for
    any two runs that discover the same set of ids, in whatever order the
    pages yield them. *)
Theorem C9_ids_sorted_and_order_independent (web : site) (pages : Z) :
  let ids := (scrape_property_links web pages).1 in
  StronglySorted String.le ids ∧ NoDup ids
  ∧ (∀ x, x ∈ ids ↔ found_on web (page_range pages) x)
  ∧ ∀ web' pages',
      (∀ x, x ∈ (scrape_property_links web' pages').1 ↔ x ∈ ids) →
      (scrape_property_links web' pages').1 = ids.
Proof.
  cbn zeta. rewrite scrape_property_links_eq. cbn [fst]. split_and!.
  - apply sorted_StronglySorted.
  - apply sorted_NoDup.
  - intros x. by rewrite sorted_elem, scrape_loop_ids.
  - intros web' pages'. rewrite scrape_property_links_eq. cbn [fst].
    intros H. apply ascending_unique;
      auto using sorted_StronglySorted, sorted_NoDup.
Qed.

Lemma C9_witness :
  (∀ x, x ∈ (scrape_property_links three_pages_swapped 3).1
        ↔ x ∈ (scrape_property_links three_pages 3).1)
  ∧ (scrape_property_links three_pages_swapped 3).1
    = (scrape_property_links three_pages 3).1.
Proof.
  assert (∀ x, x ∈ (scrape_property_links three_pages_swapped 3).1
               ↔ x ∈ (scrape_property_links three_pages 3).1) as H.
  { intros x.
    replace (scrape_property_links three_pages_swapped 3).1
      with (scrape_property_links three_pages 3).1
      by (vm_compute; reflexivity).
    reflexivity. }
  split; [exact H|].
  pose proof (C9_ids_sorted_and_order_independent three_pages 3)
    as (_ & _ & _ & Hdet).
  apply Hdet, H.
Defined.

(** In [scraper_with_concur.py] an id seen on several pages is returned
    once. *)
Lemma concur_catalog_unique (web : site) (pages : Z) :
  NoDup (scrape_property_links web pages).1.
Proof. rewrite scrape_property_links_eq. apply sorted_NoDup. Qed.

End discovery_claims.

Section price_claims.
Import ConcurPrice Examples.

(** C3: the price-aware [scrape_property_links] appends one record per
    occurrence. For two pages that both show item A it returns two
    records with the id A, one per page and price: the catalog is not
    deduplicated and no price wins. *)
Theorem C3_price_listings_keep_duplicates :
  (scrape_property_links two_pages_A 2).1
  = [Listing "A" "https://www.bestfewo.de/expose/A" "50 €";
     Listing "A" "https://www.bestfewo.de/expose/A" "60 €"]
  ∧ ¬ NoDup (object_id <$> (scrape_property_links two_pages_A 2).1).
Proof.
  assert ((scrape_property_links two_pages_A 2).1
          = [Listing "A" "https://www.bestfewo.de/expose/A" "50 €";
             Listing "A" "https://www.bestfewo.de/expose/A" "60 €"]) as ->
    by (vm_compute; reflexivity).
  split; [done|]. simpl. intros H. apply NoDup_cons in H as [H _].
  apply H. by left.
Qed.

End price_claims.

Section pool_claims.
Import Worker Props Examples.


(** The run of the example of the specification: item A is cached, the
    site serves B and times out on C. *)
Example run_ABC :
  observe (Concur.download_with_eta (fs:=by_path) serves_B cache_A ["A"; "B"; "C"] 8)
  = Some ([("htmls_2/A.html", "<html>A</html>");
           ("htmls_2/B.html", "<html>B</html>")],
          ["SUCCESS: B " +:+ newline;
           "ERROR: C Failed after retries" +:+ newline],
          [EvSubmit "A"; EvStart "A"; EvSubmit "B"; EvSubmit "C";
           EvExists "htmls_2/A.html" true; EvPrint "Already saved: A";
           EvStart "B"; EvStart "C"; EvExists "htmls_2/B.html" false;
           EvExists "htmls_2/C.html" false;
           EvGet "https://www.bestfewo.de/expose/B";
           EvGet "https://www.bestfewo.de/expose/C";
           EvPrint "⚠️ Retry 1 for C: timeout 11"; EvSleepBackoff "C" 1;
           EvGet "https://www.bestfewo.de/expose/C";
           EvPrint "⚠️ Retry 2 for C: timeout 13"; EvSleepBackoff "C" 2;
           EvGet "https://www.bestfewo.de/expose/C";
           EvPrint "⚠️ Retry 3 for C: timeout 15"; EvSleepBackoff "C" 4;
           EvGet "https://www.bestfewo.de/expose/C";
           EvPrint "⚠️ Retry 4 for C: timeout 17"; EvSleepBackoff "C" 8;
           EvSleepDelay; EvPrint "Saved: B";
           EvGet "https://www.bestfewo.de/expose/C";
           EvPrint "⚠️ Retry 5 for C: timeout 20"; EvSleepBackoff "C" 16;
           EvPrint "❌ Failed after retries: C"],
          [AlreadySaved "A"; Saved "B"; FailedAfterRetries "C"]).
Proof. vm_compute. reflexivity. Qed.

(** C1 as stated fails: in the example of the specification the three
    outcomes are Skipped, Success and Failed, and the log holds two
    records, not three; the skip of A left no record. *)
Lemma C1_skip_leaves_no_record :
  ∃ st, Concur.download_with_eta (fs:=by_path) serves_B cache_A ["A"; "B"; "C"] 8 = inr st
    ∧ outcome_of <$> outcomes st = [Skipped; Success; Failed]
    ∧ log (shared st) = ["SUCCESS: B " +:+ newline;
                         "ERROR: C Failed after retries" +:+ newline]
    ∧ length (log (shared st)) ≠ 3.
Proof.
  eexists. split; [vm_compute; reflexivity|].
  vm_compute. split_and!; [reflexivity|reflexivity|discriminate].
Qed.

(** C1, amended: every item gets exactly one outcome; every Success and
    every Failed outcome appends exactly one record to the log, a
    Skipped outcome appends none: the records added by a run are those
    of its outcomes that are not skips. *)
Theorem C1_one_log_record_per_outcome_but_skips
    {fs : Naming} dir env w ids mw st :
  download_with_eta dir env w ids mw = inr st →
  result_oid <$> outcomes st ≡ₚ ids
  ∧ log (shared st) ≡ₚ log w ++ omap log_record (outcomes st)
  ∧ length (log (shared st))
    = length (log w)
      + length (filter (λ r, outcome_of r ≠ Skipped) (outcomes st)).
Proof.
  intros H. split_and!.
  - by eapply download_outcomes.
  - by eapply download_log.
  - rewrite (download_log _ _ _ _ _ _ H), length_app.
    by rewrite omap_log_record_length.
Qed.

Lemma C1_witness :
  ∃ st, Concur.download_with_eta (fs:=by_path) serves_B cache_A ["A"; "B"; "C"] 8 = inr st
    ∧ length (log (shared st))
      = length (log cache_A)
        + length (filter (λ r, outcome_of r ≠ Skipped) (outcomes st)).
Proof.
  eexists. split; [vm_compute; reflexivity|].
  eapply (C1_one_log_record_per_outcome_but_skips
            (fs:=by_path) "htmls_2" serves_B cache_A ["A"; "B"; "C"] 8).
  vm_compute. reflexivity.
Defined.







(** C6: when a second run starts on the same items with every item in
    the cache the first run left, it requests nothing from the site,
    every outcome is a skip, one per item, and the files and the log are
    left as they were. *)
Theorem C6_second_run_skips_everything
    {fs : Naming} dir env1 env2 w ids mw1 mw2 st1 st2 :
  download_with_eta dir env1 w ids mw1 = inr st1 →
  (∀ oid, oid ∈ ids → is_Some (files (shared st1) !! file_of dir oid)) →
  download_with_eta dir env2 (shared st1) ids mw2 = inr st2 →
  (∀ r, r ∈ outcomes st2 → outcome_of r = Skipped)
  ∧ result_oid <$> outcomes st2 ≡ₚ ids
  ∧ (∃ new, trace (shared st2) = trace (shared st1) ++ new
            ∧ ∀ url, EvGet url ∉ new)
  ∧ files (shared st2) = files (shared st1)
  ∧ log (shared st2) = log (shared st1).
Proof.
  intros _ Hcached H.
  pose proof (download_outcomes _ _ _ _ _ _ H) as Hall.
  apply download_with_eta_eq in H as [Hmw ->].
  set (st2 := run dir _ _ _ _ _) in *.
  pose proof (run_well_formed dir ids (Z.to_nat mw2) env2
                (steps_per_item * length ids) 0 _
                (initial_well_formed (shared st1) ids)) as Hwf.
  fold st2 in Hwf.
  assert (quiet dir (files (shared st1)) (log (shared st1))
            (trace (shared st1)) st2)
    as (Hf & Hl & _ & Hts & Hnew).
  { apply run_quiet. split_and!; simpl; [done|done| |constructor|].
    - by apply Forall_forall.
    - exists []. split; [|intros url; apply not_elem_of_nil].
      unfold extends; simpl. by rewrite app_nil_r. }
  split_and!; [|done..].
  intros r Hr.
  destruct (reported_outcome ids st2 r) as (t & Ht & Hst & _); [done..|].
  rewrite Forall_forall in Hts. destruct (Hts t Ht) as [_ Hne].
  rewrite Hst in Hne. simpl in Hne. by rewrite Hne.
Qed.

Lemma C6_witness :
  ∃ st1 st2,
    Concur.download_with_eta (fs:=by_path) serves_all empty_world ["A"; "B"] 2 = inr st1
    ∧ (∀ oid, oid ∈ ["A"; "B"] →
              is_Some (files (shared st1) !! file_of (fs:=by_path) "htmls_2" oid))
    ∧ Concur.download_with_eta (fs:=by_path) serves_B (shared st1) ["A"; "B"] 8 = inr st2
    ∧ (∀ r, r ∈ outcomes st2 → outcome_of r = Skipped)
    ∧ files (shared st2) = files (shared st1).
Proof.
  assert (∃ st1, Concur.download_with_eta (fs:=by_path) serves_all empty_world ["A"; "B"] 2
                 = inr st1)
    as [st1 E1] by (eexists; vm_compute; reflexivity).
  assert (∀ oid, oid ∈ ["A"; "B"] →
                 is_Some (files (shared st1) !! file_of (fs:=by_path) "htmls_2" oid)) as Hc.
  { apply (download_populates (fs:=by_path) "htmls_2" serves_all empty_world ["A"; "B"] 2 st1 E1).
    apply download_with_eta_eq in E1 as [_ ->].
    intros r Hr. vm_compute in Hr.
    apply elem_of_cons in Hr as [->|Hr]; [discriminate|].
    apply elem_of_cons in Hr as [->|Hr]; [discriminate|].
    by apply elem_of_nil in Hr. }
  assert (∃ st2, Concur.download_with_eta (fs:=by_path) serves_B (shared st1) ["A"; "B"] 8
                 = inr st2) as [st2 E2].
  { unfold Concur.download_with_eta, download_with_eta.
    rewrite decide_False by lia. by eexists. }
  exists st1, st2. split; [exact E1|]. split; [exact Hc|]. split; [exact E2|].
  destruct (C6_second_run_skips_everything
              (fs:=by_path) "htmls_2" serves_all serves_B empty_world ["A"; "B"] 2 8
              st1 st2 E1 Hc E2) as (H1 & _ & _ & H2 & _).
  split; [exact H1|exact H2].
Defined.

(** C8 fails for a list that holds an id twice, as the price-aware
    discovery returns it for an item shown on two pages: both tasks
    pass the existence check before either writes; after 13 steps the
    document of A exists, written in full by the first task, and the
    next step, the [f.write] of the second task, replaces it by the
    page served later. *)
Theorem C8_written_document_is_overwritten :
  ∃ st,
    ConcurPrice.object_id <$> (ConcurPrice.scrape_property_links two_pages_A 2).1
    = ["A"; "A"]
    ∧ files (shared (run (fs:=by_path) "htmls_3" 8 changing 13 0
                       (initial empty_world ["A"; "A"])))
        !! file_of (fs:=by_path) "htmls_3" "A" = Some "<html>6</html>"
    ∧ files (shared (run (fs:=by_path) "htmls_3" 8 changing 14 0
                       (initial empty_world ["A"; "A"])))
        !! file_of (fs:=by_path) "htmls_3" "A" = Some "<html>7</html>"
    ∧ ConcurPrice.download_with_eta (fs:=by_path) changing empty_world
        (ConcurPrice.scrape_property_links two_pages_A 2).1 8 = inr st
    ∧ files (shared st) !! file_of (fs:=by_path) "htmls_3" "A"
      = Some "<html>7</html>"
    ∧ outcomes st = [Saved "A"; Saved "A"].
Proof.
  eexists. split_and!; [vm_compute; reflexivity..| |].
  - vm_compute. reflexivity.
  - vm_compute. reflexivity.
Qed.

(** C4: in the price-aware script the two listings of item A found on
    two pages are both submitted; with no file for A both workers pass
    the existence check, both request the page and both write the file:
    two fetch sequences for one id in one run. *)
Theorem C4_duplicate_listing_is_fetched_twice :
  ∃ st, ConcurPrice.main (fs:=by_path) two_pages_A serves_all empty_world 2 8 = inr st
    ∧ files empty_world !! file_of (fs:=by_path) "htmls_3" "A" = None
    ∧ count_event (EvSubmit "A") (trace (shared st)) = 2
    ∧ count_event (EvExists (file_path "htmls_3" "A") false)
        (trace (shared st)) = 2
    ∧ count_event (EvGet (link "A")) (trace (shared st)) = 2
    ∧ outcomes st = [Saved "A"; Saved "A"].
Proof.
  eexists. split; [vm_compute; reflexivity|].
  split_and!; vm_compute; reflexivity.
Qed.

(** In [scraper_with_concur.py] the items are the sorted ids of a set:
    in every run of its main block an id absent from the cache, whose
    file no other id found has, is submitted once and fetched by one
    sequence of one to five requests. *)
Lemma concur_main_fetches_once {fs : Naming} web env w pages mw st oid :
  Concur.main web env w pages mw = inr st →
  oid ∈ (Concur.scrape_property_links web pages).1 →
  alone Concur.SAVE_DIR (Concur.scrape_property_links web pages).1 oid →
  files w !! file_of Concur.SAVE_DIR oid = None →
  ∃ old new, trace (shared st) = old ++ new
    ∧ submissions oid new = 1
    ∧ fetch_sequences Concur.SAVE_DIR oid new = 1
    ∧ 1 ≤ requests oid new ≤ 5.
Proof.
  unfold Concur.main. intros H Hoid Halone Hfile.
  pose proof (concur_catalog_unique web pages) as Hnd.
  destruct (Concur.scrape_property_links web pages) as [ids tr].
  cbn [fst] in *.
  destruct (download_fetches_once Concur.SAVE_DIR
              _ _ _ _ _ oid H Hnd Halone Hoid Hfile) as (new & Hnew & ?).
  eauto.
Qed.

(** C10: when the page of B was fetched and [f.write] fails after the
    file was opened, [save_html] logs an error and returns a failure,
    yet the file it opened stays on disk; the next call finds it and
    skips the item. *)
Theorem C10_failed_write_leaves_a_file :
  ∃ w1 w2,
    files empty_world !! file_of (fs:=by_path) "htmls_2" "B" = None
    ∧ Concur.save_html (fs:=by_path) disk_full "B" empty_world
      = Some (Crash "B" "[Errno 28] No space left on device", w1)
    ∧ outcome_of (Crash "B" "[Errno 28] No space left on device") = Failed
    ∧ log w1 = ["ERROR: B [Errno 28] No space left on device" +:+ newline]
    ∧ files w1 !! file_of (fs:=by_path) "htmls_2" "B" = Some ""
    ∧ Concur.save_html (fs:=by_path) serves_all "B" w1 = Some (AlreadySaved "B", w2).
Proof.
  eexists _, _. split_and!; vm_compute; reflexivity.
Qed.

End pool_claims.

(** * Further properties of the scripts *)

Section more_pool.
Import Worker Props More.
Context {fs : Naming}.
Variable dir : string.

(** X1: a run only appends to the log and to the trace, removes no
    file, and changes no file other than the cache files of the items
    it was given. *)
Theorem X1_run_only_appends_and_stays_in_its_cache env w ids mw st :
  download_with_eta dir env w ids mw = inr st →
  (∃ recs, log (shared st) = log w ++ recs
           ∧ recs ≡ₚ omap log_record (outcomes st))
  ∧ (∃ new, trace (shared st) = trace w ++ new)
  ∧ dom (files w) ⊆ dom (files (shared st))
  ∧ ∀ p, (∀ oid, oid ∈ ids → p ≠ file_of dir oid) →
         files (shared st) !! p = files w !! p.
Proof.
  intros H. pose proof (download_log_appended _ _ _ _ _ _ H) as Hlog.
  destruct (download_grown _ _ _ _ _ _ H) as (_ & Htr & Hgrow & Hframe).
  split_and!; [done..| |].
  - intros p. rewrite !elem_of_dom. apply Hgrow.
  - intros p Hp. apply Hframe. intros (oid & Hoid & ->). by eapply Hp.
Qed.

Lemma worker_move_not_skipped a oid s w s' w' :
  worker_move dir a oid s w = Some (s', w') →
  not_skipped s (files w !! file_of dir oid) →
  not_skipped s' (files w' !! file_of dir oid).
Proof.
  intros H Hs. destruct s as [|c|r|r]; simplify_eq/=; [done|].
  destruct (worker_step dir a oid c w) as [nx w1] eqn:E. simplify_eq.
  destruct c; simpl in E; simpl in Hs; rewrite ?Hs in E;
    repeat case_match; by simplify_eq/=.
Qed.

Lemma log_record_line ids r rec :
  result_oid r ∈ ids → log_record r = Some rec → log_line ids rec.
Proof.
  intros Hin Hrec. exists (result_oid r). split; [done|].
  destruct r; simplify_eq/=; eauto.
Qed.

Lemma omap_log_record_all rs :
  (∀ r, r ∈ rs → outcome_of r ≠ Skipped) →
  length (omap log_record rs) = length rs.
Proof.
  induction rs as [|r rs IH]; intros H; [done|].
  rewrite omap_cons_list, length_app, IH by (intros; apply H; by right).
  specialize (H r ltac:(by left)). by destruct r.
Qed.

(** X2: when the items have pairwise distinct files and none of these
    files exists, no outcome is a skip and the run appends exactly one
    record per item to the log, each a SUCCESS or an ERROR line of one
    of the items. *)
Theorem X2_log_complete_for_distinct_uncached_items env w ids mw st :
  download_with_eta dir env w ids mw = inr st →
  distinct_files dir ids →
  (∀ oid, oid ∈ ids → files w !! file_of dir oid = None) →
  (∀ r, r ∈ outcomes st → outcome_of r ≠ Skipped)
  ∧ ∃ recs, log (shared st) = log w ++ recs
      ∧ length recs = length ids
      ∧ ∀ rec, rec ∈ recs → log_line ids rec.
Proof.
  intros H Hdist Hnone.
  pose proof (download_outcomes dir _ _ _ _ _ H) as Hall.
  destruct (download_log_appended _ _ _ _ _ _ H) as (recs & Hrecs & Hperm).
  assert (∀ r, r ∈ outcomes st → outcome_of r ≠ Skipped) as Hns.
  { intros r Hr.
    assert (result_oid r ∈ ids) as Hin
      by (rewrite <- Hall; by apply list_elem_of_fmap_2).
    destruct (download_focus dir ids (result_oid r)
                (distinct_files_NoDup dir ids Hdist)
                (distinct_files_alone dir ids _ Hdist Hin)
                (λ _, True) (λ f, f = None) not_skipped
                ltac:(done)
                ltac:(intros; by eapply worker_move_not_skipped)
                ltac:(done) env w mw st ltac:(done) Hin (Hnone _ Hin) H)
      as (r' & _ & _ & HT & Honly).
    rewrite <- (Honly r Hr eq_refl) in HT. exact HT. }
  split; [done|]. exists recs. split; [done|]. split.
  - rewrite Hperm, (omap_log_record_all (outcomes st)) by done.
    by rewrite <- (length_fmap result_oid), Hall.
  - intros rec Hrec. rewrite Hperm in Hrec.
    apply list_elem_of_omap in Hrec as (r & Hr & Hrec).
    eapply log_record_line; [|done].
    rewrite <- Hall. by apply list_elem_of_fmap_2.
Qed.

Lemma worker_move_page_state (served : string → Prop) a oid s w s' w' :
  (∀ text, a_get a (link oid) = GetOk text → served text) →
  worker_move dir a oid s w = Some (s', w') →
  page_state served s (files w !! file_of dir oid) →
  page_state served s' (files w' !! file_of dir oid).
Proof.
  intros Ha H Hs. destruct s as [|c|r|r]; simplify_eq/=; [done|].
  destruct (worker_step dir a oid c w) as [nx w1] eqn:E. simplify_eq.
  destruct c; simpl in E; simpl in Hs;
    repeat case_match; simplify_eq/=; rewrite ?lookup_insert_eq; eauto.
Qed.

(** X3: in a run over pairwise distinct items, an item whose file no
    other item has and whose outcome is a success has, at the end of
    the run, a file that holds the whole text of a response the site
    gave for the page of that item. *)
Theorem X3_saved_item_holds_a_served_page env w ids mw st oid :
  download_with_eta dir env w ids mw = inr st →
  NoDup ids → alone dir ids oid → Saved oid ∈ outcomes st →
  ∃ t text, a_get (env t) (link oid) = GetOk text
            ∧ files (shared st) !! file_of dir oid = Some text.
Proof.
  intros H Hnd Halone Hsaved.
  pose proof (download_outcomes dir _ _ _ _ _ H) as Hall.
  assert (oid ∈ ids) as Hin.
  { rewrite <- Hall. apply list_elem_of_fmap. by exists (Saved oid). }
  set (served := λ text, ∃ t, a_get (env t) (link oid) = GetOk text).
  destruct (download_focus dir ids oid Hnd Halone
              (λ a, ∀ text, a_get a (link oid) = GetOk text → served text)
              (λ _, True) (page_state served)
              ltac:(done)
              ltac:(intros a s w1 s' w1' Ha; by apply worker_move_page_state)
              ltac:(intros r f; by destruct r)
              env w mw st ltac:(intros t text Ht; by exists t) Hin I H)
    as (r' & _ & _ & HT & Honly).
  rewrite <- (Honly (Saved oid) Hsaved eq_refl) in HT.
  destruct HT as (text & [t Ht] & Hf). eauto.
Qed.

(** *** Requests and backoff of a run *)

Lemma request_count_app l k :
  request_count (l ++ k) = request_count l + request_count k.
Proof. unfold request_count. by rewrite filter_app, length_app. Qed.

Lemma worker_move_frugal ids a oid s w s' w' :
  worker_move dir a oid s w = Some (s', w') →
  oid ∈ ids → in_loop (Task oid s) →
  ∃ evs, trace w' = trace w ++ evs
    ∧ in_loop (Task oid s')
    ∧ Forall (event_of ids) evs
    ∧ request_count evs + requests_left (Task oid s')
      ≤ requests_left (Task oid s)
    ∧ sum_list_with backoff_seconds evs + backoff_left (Task oid s')
      ≤ backoff_left (Task oid s).
Proof.
  intros H Hoid Hk. unfold in_loop, requests_left, backoff_left in *.
  assert (event_of ids (EvGet (link oid))) as Hget by (simpl; eauto).
  assert (request_count [EvGet (link oid)] = 1) as Hone by done.
  destruct s as [|c|r|r]; simplify_eq/=.
  - exists [EvStart oid]. split_and!;
      first [done | by repeat constructor | (cbn; lia)].
  - destruct (worker_step dir a oid c w) as [nx w1] eqn:E. simplify_eq.
    destruct c as [|k| | | | | |]; simpl in E.
    + destruct (files w !! file_of dir oid); simplify_eq/=.
      * exists [EvExists (file_path dir oid) true]. split_and!;
          first [done | by repeat constructor | (cbn; lia)].
      * exists [EvExists (file_path dir oid) false]. split_and!;
          first [done | by repeat constructor | (cbn; lia)].
    + destruct (a_get a (link oid)) as [text|e|e]; simplify_eq/=;
        rewrite <- ?app_assoc.
      * exists [EvGet (link oid)]. rewrite Hone. split_and!;
          first [done | by repeat constructor | (cbn; lia)].
      * exists [EvGet (link oid); EvPrint (retry_line k oid e);
                EvSleepBackoff oid (2 ^ Z.of_nat k)].
        split; [done|].
        change (request_count _) with 1.
        destruct k as [|[|[|[|[|k]]]]]; try lia;
          case_decide; try lia;
          (split_and!;
           first [ done | (cbn; lia)
                 | (constructor; [exact Hget|];
                    constructor; [exact I|];
                    constructor; [|constructor];
                    split; [done|]; cbn; set_solver) ]).
      * exists [EvGet (link oid)]. rewrite Hone. split_and!;
          first [done | by repeat constructor | (cbn; lia)].
    + simplify_eq. exists []. rewrite app_nil_r. split_and!;
        first [done | by repeat constructor | (cbn; lia)].
    + destruct (a_makedirs a); simplify_eq; exists []; rewrite app_nil_r;
        split_and!; first [done | by repeat constructor | (cbn; lia)].
    + destruct (a_open a _); simplify_eq; exists []; rewrite app_nil_r;
        split_and!; first [done | by repeat constructor | (cbn; lia)].
    + destruct (a_write a _) as [[??]|]; simplify_eq; exists [];
        rewrite app_nil_r;
        split_and!; first [done | by repeat constructor | (cbn; lia)].
    + simplify_eq. exists [EvSleepDelay]. split_and!;
        first [done | by repeat constructor | (cbn; lia)].
    + simplify_eq. exists []. rewrite app_nil_r. split_and!;
        first [done | by repeat constructor | (cbn; lia)].
Qed.

Lemma perform_frugal ids trace0 a act st :
  well_formed ids st → frugal ids trace0 st →
  frugal ids trace0 (perform dir a act st).
Proof.
  intros Hwf HP. apply perform_inv; [..|done];
    destruct HP as (new & Hnew & Hloop & Hev & Hreq & Hback);
    unfold frugal, extends in *; cbn [pending tasks shared outcomes].
  - intros o rest Hp. rewrite Hp in Hreq, Hback. cbn [length] in *.
    exists (new ++ [EvSubmit o]). split_and!.
    + cbn [emit trace]. by rewrite Hnew, app_assoc.
    + apply Forall_app. split; [done|]. by repeat constructor.
    + apply Forall_app. split; [done|]. by repeat constructor.
    + rewrite request_count_app, sum_list_with_app.
      change (request_count [EvSubmit o]) with 0.
      change (sum_list_with requests_left [Task o Queued]) with 5. lia.
    + rewrite !sum_list_with_app.
      change (sum_list_with backoff_seconds [EvSubmit o]) with 0.
      change (sum_list_with backoff_left [Task o Queued]) with 31. lia.
  - intros i o s s' w' Hi Hmove.
    pose proof (task_oid_in _ _ _ _ _ Hwf Hi) as Ho.
    pose proof (Forall_lookup_1 _ _ _ _ Hloop Hi) as Hk.
    destruct (worker_move_frugal ids _ _ _ _ _ _ Hmove Ho Hk)
      as (evs & -> & Hk' & Hevs & Hr & Hb).
    pose proof (sum_list_with_insert requests_left _ _ _ (Task o s') Hi).
    pose proof (sum_list_with_insert backoff_left _ _ _ (Task o s') Hi).
    exists (new ++ evs). split_and!.
    + by rewrite Hnew, app_assoc.
    + by apply Forall_insert.
    + apply Forall_app. by split.
    + rewrite request_count_app. lia.
    + rewrite sum_list_with_app. lia.
  - intros i o r Hi.
    pose proof (sum_list_with_insert requests_left _ _ _
                  (Task o (Reported r)) Hi) as H1.
    pose proof (sum_list_with_insert backoff_left _ _ _
                  (Task o (Reported r)) Hi) as H2.
    change (requests_left (Task o (Reported r))) with 0 in H1.
    change (requests_left (Task o (Done r))) with 0 in H1.
    change (backoff_left (Task o (Reported r))) with 0 in H2.
    change (backoff_left (Task o (Done r))) with 0 in H2.
    exists (new ++ [EvPrint (message r)]). split_and!.
    + cbn [emit trace]. by rewrite Hnew, app_assoc.
    + by apply Forall_insert.
    + apply Forall_app. split; [done|]. by repeat constructor.
    + rewrite request_count_app.
      change (request_count [EvPrint (message r)]) with 0.
      lia.
    + rewrite sum_list_with_app.
      change (sum_list_with backoff_seconds [EvPrint (message r)]) with 0.
      lia.
Qed.

Lemma download_frugal env w ids mw st :
  download_with_eta dir env w ids mw = inr st → frugal ids (trace w) st.
Proof.
  intros [Hmw ->]%download_with_eta_eq.
  cut (well_formed ids (run dir (Z.to_nat mw) env
                          (steps_per_item * length ids) 0 (initial w ids))
       ∧ frugal ids (trace w)
           (run dir (Z.to_nat mw) env
              (steps_per_item * length ids) 0 (initial w ids)));
    [by intros [??]|].
  apply (run_inv dir (λ _, True)
           (λ st, well_formed ids st ∧ frugal ids (trace w) st)); [|done|].
  - intros a act st' _ [??]. split.
    + by apply perform_well_formed.
    + by apply perform_frugal.
  - split; [apply initial_well_formed|].
    exists []. unfold extends. simpl. rewrite app_nil_r.
    split_and!; [done|constructor|constructor| |]; simpl; lia.
Qed.

(** X4: a run calls [session.get] at most five times per submitted
    item, and every call it makes is for the detail page of one of its
    items. *)
Theorem X4_at_most_five_requests_per_item env w ids mw st :
  download_with_eta dir env w ids mw = inr st →
  ∃ new, trace (shared st) = trace w ++ new
    ∧ request_count new ≤ 5 * length ids
    ∧ ∀ url, EvGet url ∈ new → ∃ oid, oid ∈ ids ∧ url = BASE_URL +:+ oid.
Proof.
  intros H.
  destruct (download_frugal _ _ _ _ _ H) as (new & Hnew & _ & Hev & Hreq & _).
  exists new. split; [done|]. split; [lia|].
  intros url Hin. rewrite Forall_forall in Hev. by apply (Hev _ Hin).
Qed.

(** X5: every backoff sleep of a run belongs to one of its items and
    lasts 1, 2, 4, 8 or 16 seconds (plus jitter); in all, a run sleeps
    at most 31 seconds of backoff per submitted item. *)
Theorem X5_backoff_is_bounded env w ids mw st :
  download_with_eta dir env w ids mw = inr st →
  ∃ new, trace (shared st) = trace w ++ new
    ∧ (∀ oid b, EvSleepBackoff oid b ∈ new →
                oid ∈ ids ∧ b ∈ [1; 2; 4; 8; 16]%Z)
    ∧ sum_list_with backoff_seconds new ≤ 31 * length ids.
Proof.
  intros H.
  destruct (download_frugal _ _ _ _ _ H) as (new & Hnew & _ & Hev & _ & Hb).
  exists new. split; [done|]. split; [|lia].
  intros oid b Hin. rewrite Forall_forall in Hev. by apply (Hev _ Hin).
Qed.

End more_pool.

(** ** The cache after a run, and the workers busy at a time *)

Section more_pool2.
Import Worker Props More.
Context {fs : Naming}.
Variable dir : string.

(** X6: at the end of a run the file of every item whose outcome is a
    success or a skip is in the cache, whatever the other items did. *)
Theorem X6_outcome_without_failure_has_its_file env w ids mw st r :
  download_with_eta dir env w ids mw = inr st →
  r ∈ outcomes st → outcome_of r ≠ Failed →
  is_Some (files (shared st) !! file_of dir (result_oid r)).
Proof.
  intros H Hr Hok.
  apply download_with_eta_eq in H as [Hmw ->].
  set (st := run dir _ _ _ _ _) in *.
  pose proof (run_well_formed dir ids (Z.to_nat mw) env
                (steps_per_item * length ids) 0 _ (initial_well_formed w ids))
    as Hwf. fold st in Hwf.
  assert (holds_files dir st) as Hfiles.
  { apply run_holds_files. constructor. }
  destruct (reported_outcome _ _ _ Hwf Hr) as (t & Ht & Hs & <-).
  unfold holds_files in Hfiles. rewrite Forall_forall in Hfiles.
  apply Hfiles; [done|]. by rewrite Hs.
Qed.

Lemma running_count_sum ts : running_count ts = sum_list_with busy ts.
Proof.
  unfold running_count. induction ts as [|t ts IH]; [done|].
  rewrite filter_cons. cbn [sum_list_with]. rewrite <- IH. unfold busy.
  destruct (is_running t); case_decide; simpl; congruence.
Qed.

Lemma perform_running mw a act st :
  act ∈ enabled mw st → running_count (tasks st) ≤ mw →
  running_count (tasks (perform dir a act st)) ≤ mw.
Proof.
  rewrite elem_of_enabled, !running_count_sum.
  intros Happ Hle. destruct act as [|i|i]; cbn [perform applicable] in *.
  - destruct (pending st) as [|oid rest]; [done|]. cbn [tasks].
    rewrite sum_list_with_app. cbn [sum_list_with].
    change (busy (Task oid Queued)) with 0. lia.
  - destruct (tasks st !! i) as [[oid s]|] eqn:E; [|done].
    cbn [fmap option_fmap option_map t_status] in Happ.
    pose proof (λ t', sum_list_with_insert busy _ _ _ t' E) as Hins.
    destruct s as [|c|r|r]; cbn [worker_move]; try done.
    + apply bool_decide_eq_true in Happ as [_ Hlt].
      rewrite running_count_sum in Hlt.
      specialize (Hins (Task oid (Running AtExists))).
      change (busy (Task oid Queued)) with 0 in Hins.
      change (busy (Task oid (Running AtExists))) with 1 in Hins.
      cbn [tasks]. lia.
    + destruct (worker_step dir a oid c (shared st)) as [nx w'].
      cbn [tasks]. specialize (Hins (Task oid (status_of_next nx))).
      change (busy (Task oid (Running c))) with 1 in Hins.
      assert (busy (Task oid (status_of_next nx)) ≤ 1)
        by (destruct nx; unfold busy; simpl; lia).
      lia.
  - destruct (tasks st !! i) as [[oid [|c|r|r]]|] eqn:E; try done.
    cbn [tasks].
    pose proof (sum_list_with_insert busy _ _ _ (Task oid (Reported r)) E)
      as Hins.
    change (busy (Task oid (Done r))) with 0 in Hins.
    change (busy (Task oid (Reported r))) with 0 in Hins. lia.
Qed.

Lemma run_running mw env fuel t st :
  running_count (tasks st) ≤ mw →
  running_count (tasks (run dir mw env fuel t st)) ≤ mw.
Proof.
  revert t st. induction fuel as [|fuel IH]; intros t st H; simpl; [done|].
  apply IH. unfold pool_step.
  destruct (enabled mw st !! _) as [act|] eqn:E; [|done].
  apply perform_running; [|done]. by eapply list_elem_of_lookup_2.
Qed.

(** X7: after any number of steps of a run, at most [max_workers]
    calls of [save_html] are in progress. *)
Theorem X7_at_most_max_workers_at_a_time env w ids (max_workers : Z) n :
  running_count
    (tasks (run dir (Z.to_nat max_workers) env n 0 (initial w ids)))
  ≤ Z.to_nat max_workers.
Proof. apply run_running. simpl. unfold running_count. simpl. lia. Qed.

Lemma worker_step_internal a oid c w nx w' :
  worker_step dir a oid c w = (nx, w') →
  ∃ evs, trace w' = trace w ++ evs
    ∧ filter (λ e, is_submit e = true) evs = []
    ∧ filter (λ e, is_start e = true) evs = [].
Proof.
  intros H. destruct c; simpl in H; repeat case_match; simplify_eq/=;
    rewrite <- ?app_assoc; (eexists; split; [done || by rewrite app_nil_r|]);
    by split.
Qed.

Lemma first_queued_least ts i j t :
  first_queued ts = Some i → j < i → ts !! j = Some t → is_queued t = false.
Proof.
  revert i j. induction ts as [|x ts IH]; intros i j H Hj Ht; [done|].
  cbn [first_queued] in H. destruct (is_queued x) eqn:Ex.
  - simplify_eq. lia.
  - destruct (first_queued ts) as [i'|] eqn:E; simplify_eq/=.
    destruct j as [|j]; simplify_eq/=; [done|].
    eapply (IH i' j); [done|lia|done].
Qed.

Lemma perform_lined_up mw trace0 a act st :
  act ∈ enabled mw st → lined_up trace0 st →
  lined_up trace0 (perform dir a act st).
Proof.
  rewrite elem_of_enabled.
  intros Happ (new & k & Hnew & Hsub & Hstart & Hk & Hlow & Hhigh).
  unfold lined_up, extends in *.
  destruct act as [|i|i]; cbn [perform applicable] in *.
  - destruct (pending st) as [|oid rest]; [by exists new, k|].
    exists (new ++ [EvSubmit oid]), k. cbn [tasks shared emit trace].
    rewrite !filter_app, Hsub, Hstart, !fmap_app, length_app.
    rewrite take_app_le by (by rewrite length_fmap).
    split_and!; [by rewrite Hnew, app_assoc|done|by rewrite app_nil_r|lia|..].
    + intros j t Ht Hj. apply (Hlow j t); [|done].
      by rewrite lookup_app_l in Ht by lia.
    + intros j t Ht Hj. apply lookup_app_Some in Ht as [Ht|[_ Ht]].
      * by apply (Hhigh j t).
      * by apply list_lookup_singleton_Some in Ht as [_ <-].
  - destruct (tasks st !! i) as [[oid s]|] eqn:E; [|by exists new, k].
    cbn [fmap option_fmap option_map t_status] in Happ.
    pose proof (lookup_lt_Some _ _ _ E) as Hi.
    destruct s as [|c|r|r]; cbn [worker_move]; try by exists new, k.
    + apply bool_decide_eq_true in Happ as [Hfirst _].
      assert (i = k) as ->.
      { destruct (decide (i < k)) as [Hlt|Hge].
        - by specialize (Hlow _ _ E Hlt).
        - destruct (decide (k < i)) as [Hlt|?]; [|lia].
          destruct (lookup_lt_is_Some_2 (tasks st) k ltac:(lia)) as [t Ht].
          pose proof (Hhigh _ _ Ht ltac:(lia)) as Hq.
          by rewrite (first_queued_least _ _ _ _ Hfirst Hlt Ht) in Hq. }
      exists (new ++ [EvStart oid]), (S k). cbn [tasks shared emit trace].
      rewrite !filter_app, Hsub, Hstart, length_insert.
      rewrite (fmap_oid_insert _ _ _ _ _ E).
      rewrite (take_S_r _ _ oid) by (by rewrite list_lookup_fmap, E).
      rewrite fmap_app.
      split_and!; [by rewrite Hnew, app_assoc|by rewrite app_nil_r|done|lia|..].
      * intros j t Ht Hj. destruct (decide (j = k)) as [->|Hne].
        -- rewrite list_lookup_insert_eq in Ht by done. by simplify_eq.
        -- rewrite list_lookup_insert_ne in Ht by done.
           apply (Hlow j t); [done|lia].
      * intros j t Ht Hj. rewrite list_lookup_insert_ne in Ht by lia.
        apply (Hhigh j t); [done|lia].
    + destruct (worker_step dir a oid c (shared st)) as [nx w'] eqn:Es.
      destruct (worker_step_internal _ _ _ _ _ _ Es)
        as (evs & Hevs & Hs1 & Hs2).
      assert (i < k) as Hlt.
      { destruct (decide (i < k)); [done|].
        by specialize (Hhigh _ _ E ltac:(lia)). }
      exists (new ++ evs), k. cbn [tasks shared].
      rewrite !filter_app, Hsub, Hstart, Hs1, Hs2, !app_nil_r, length_insert.
      rewrite (fmap_oid_insert _ _ _ _ _ E).
      split_and!; [by rewrite Hevs, Hnew, app_assoc|done..| |].
      * intros j t Ht Hj. destruct (decide (j = i)) as [->|Hne].
        -- rewrite list_lookup_insert_eq in Ht by done. simplify_eq.
           by destruct nx.
        -- rewrite list_lookup_insert_ne in Ht by done. by apply (Hlow j t).
      * intros j t Ht Hj. rewrite list_lookup_insert_ne in Ht by lia.
        by apply (Hhigh j t).
  - destruct (tasks st !! i) as [[oid [|c|r|r]]|] eqn:E;
      try by exists new, k.
    pose proof (lookup_lt_Some _ _ _ E) as Hi.
    assert (i < k) as Hlt.
    { destruct (decide (i < k)); [done|].
      by specialize (Hhigh _ _ E ltac:(lia)). }
    exists (new ++ [EvPrint (message r)]), k.
    cbn [tasks shared emit trace].
    rewrite !filter_app, Hsub, Hstart, !app_nil_r, length_insert.
    rewrite (fmap_oid_insert _ _ _ _ _ E).
    split_and!; [by rewrite Hnew, app_assoc|done..| |].
    + intros j t Ht Hj. destruct (decide (j = i)) as [->|Hne].
      * rewrite list_lookup_insert_eq in Ht by done. by simplify_eq.
      * rewrite list_lookup_insert_ne in Ht by done. by apply (Hlow j t).
    + intros j t Ht Hj. rewrite list_lookup_insert_ne in Ht by lia.
      by apply (Hhigh j t).
Qed.

Lemma run_lined_up mw trace0 env fuel t st :
  lined_up trace0 st → lined_up trace0 (run dir mw env fuel t st).
Proof.
  revert t st. induction fuel as [|fuel IH]; intros t st H; simpl; [done|].
  apply IH. unfold pool_step.
  destruct (enabled mw st !! _) as [act|] eqn:E; [|done].
  eapply perform_lined_up; [|done]. by eapply list_elem_of_lookup_2.
Qed.

(** X21: a run submits the items in the order of the list, once per
    position of the list, and the workers take them from the queue in
    that same order, each once. *)
Theorem X21_items_are_taken_in_list_order env w ids mw st :
  download_with_eta dir env w ids mw = inr st →
  ∃ new, trace (shared st) = trace w ++ new
    ∧ filter (λ e, is_submit e = true) new = EvSubmit <$> ids
    ∧ filter (λ e, is_start e = true) new = EvStart <$> ids.
Proof.
  intros H. pose proof (download_finishes _ _ _ _ _ _ H) as [Hpend Hrep].
  apply download_with_eta_eq in H as [Hmw ->].
  set (st := run dir _ _ _ _ _) in *.
  destruct (run_well_formed dir ids (Z.to_nat mw) env
              (steps_per_item * length ids) 0 _ (initial_well_formed w ids))
    as (Hids & _ & _). fold st in Hids.
  rewrite Hpend, app_nil_r in Hids.
  assert (lined_up (trace w) st)
    as (new & k & Hnew & Hsub & Hstart & Hk & _ & Hhigh).
  { apply run_lined_up. exists [], 0. unfold extends. simpl.
    rewrite app_nil_r. split_and!; [done..|lia| |]; by intros [|?] ?. }
  exists new. rewrite Hids in Hsub, Hstart. split_and!; [done..|].
  rewrite Hstart. f_equal. apply take_ge.
  rewrite <- Hids, length_fmap.
  destruct (decide (length (tasks st) ≤ k)) as [|Hlt]; [done|].
  destruct (lookup_lt_is_Some_2 (tasks st) k ltac:(lia)) as [t Ht].
  specialize (Hhigh _ _ Ht ltac:(lia)).
  rewrite Forall_forall in Hrep.
  destruct (Hrep t (list_elem_of_lookup_2 _ _ _ Ht)) as [r Hr].
  unfold is_queued in Hhigh. by rewrite Hr in Hhigh.
Qed.

End more_pool2.

(** ** One call of [save_html] *)

Section more_worker.
Import Worker Props More.
Context {fs : Naming}.
Variable dir : string.

(** A property of a task and the world that every move of its worker
    keeps holds when [save_html] returns. *)
Lemma save_html_from_inv (I : status → world → Prop) oid fuel env t c w r w' :
  (∀ a s w s' w', worker_move dir a oid s w = Some (s', w') →
                  I s w → I s' w') →
  save_html_from dir fuel env t oid c w = Some (r, w') →
  I (Running c) w → I (Done r) w'.
Proof.
  intros Hmove. revert t c w.
  induction fuel as [|fuel IH]; intros t c w H HI; [done|].
  rewrite save_html_from_S in H.
  destruct (worker_step dir (env t) oid c w) as [[c'|r'] w1] eqn:E.
  - eapply IH; [done|]. eapply (Hmove (env t) (Running c)); [|done].
    cbn [worker_move]. by rewrite E.
  - simplify_eq. eapply (Hmove (env t) (Running c)); [|done].
    cbn [worker_move]. by rewrite E.
Qed.

Lemma save_html_from_log fuel env t oid c w r w' :
  save_html_from dir fuel env t oid c w = Some (r, w') →
  log w' = log w ++ option_list (log_record r) ∧ result_oid r = oid.
Proof.
  revert t c w. induction fuel as [|fuel IH]; intros t c w H; [done|].
  rewrite save_html_from_S in H.
  destruct (worker_step dir (env t) oid c w) as [[c'|r'] w1] eqn:E.
  - destruct (IH _ _ _ H) as [-> ?]. split; [|done].
    rewrite (worker_step_log _ _ _ _ _ _ _ E). cbn [option_list].
    by rewrite app_nil_r.
  - simplify_eq. split; [|by eapply worker_step_result].
    by rewrite (worker_step_log _ _ _ _ _ _ _ E).
Qed.

(** While the first [k] requests fail with a [RequestException], the
    retry loop goes on to attempt [k]. *)
Lemma retry_loop_prefix env oid e k j fuel w :
  j + k < 5 →
  (∀ i, j ≤ i < j + k →
        a_get (env (S i)) (link oid) = GetRequestException (e i)) →
  save_html_from dir (k + fuel) env (S j) oid (AtGet j) w
  = save_html_from dir fuel env (S (j + k)) oid (AtGet (j + k))
      (World (files w) (log w)
             (trace w ++ failed_attempts oid e (seq j k))).
Proof.
  revert j w. induction k as [|k IH]; intros j w Hlt Hfail.
  - rewrite Nat.add_0_r. cbn [Nat.add seq]. unfold failed_attempts.
    cbn [mbind list_bind]. rewrite app_nil_r. by destruct w.
  - change (S k + fuel) with (S (k + fuel)). rewrite save_html_from_S.
    cbn [worker_step]. rewrite Hfail by lia. rewrite decide_True by lia.
    rewrite IH by (first [lia | intros; apply Hfail; lia]).
    replace (S j + k) with (j + S k) by lia.
    unfold emit. cbn [files log trace seq]. f_equal. f_equal.
    unfold failed_attempts. rewrite bind_cons. by rewrite <- !app_assoc.
Qed.

(** X8: when the file is absent, the first [k < 5] requests fail with
    a [RequestException] and the next one is answered, and the disk
    works, [save_html] returns a success after [k] retries: the file
    holds the text served, the log gets one SUCCESS record, and the
    trace shows the [k] failed attempts with their backoff, the
    request that succeeded and the final delay. *)
Theorem X8_retry_then_success env oid w e k text :
  files w !! file_of dir oid = None → k < 5 →
  (∀ i, i < k → a_get (env (S i)) (link oid) = GetRequestException (e i)) →
  a_get (env (S k)) (link oid) = GetOk text →
  (∀ t, a_makedirs (env t) = None) →
  (∀ t, a_open (env t) (file_path dir oid) = None) →
  (∀ t, a_write (env t) (file_path dir oid) = None) →
  save_html dir env oid w
  = Some (Saved oid,
          World (<[file_of dir oid := text]> (files w))
                (log w ++ ["SUCCESS: " +:+ oid +:+ " " +:+ newline])
                (trace w ++ [EvExists (file_path dir oid) false]
                         ++ failed_attempts oid e (seq 0 k)
                         ++ [EvGet (link oid); EvSleepDelay])).
Proof.
  intros Hf Hk Hfail Hok Hmk Hop Hwr.
  unfold save_html. rewrite save_html_from_S. cbn [worker_step].
  rewrite Hf. replace 9 with (k + (9 - k)) by lia.
  rewrite (retry_loop_prefix env oid e)
    by (first [lia | intros; apply Hfail; lia]).
  cbn [Nat.add].
  destruct (9 - k) as [|[|[|[|[|fuel]]]]] eqn:Efuel; try lia.
  rewrite save_html_from_S. cbn [worker_step]. rewrite Hok.
  rewrite save_html_from_S. cbn [worker_step]. rewrite Hmk.
  rewrite save_html_from_S. cbn [worker_step]. rewrite Hop.
  rewrite save_html_from_S. cbn [worker_step]. rewrite Hwr.
  rewrite save_html_from_S. cbn [worker_step].
  unfold log_result, emit, set_file. cbn [files log trace].
  rewrite insert_insert_eq. f_equal. f_equal. f_equal.
  by rewrite <- !app_assoc.
Qed.

(** X9: an exception of [session.get] that is not a
    [RequestException] is not retried: after [k < 5] attempts that
    failed with a [RequestException], it ends the call at once with a
    crash result, an ERROR record holding its message, and no file
    written. *)
Theorem X9_other_exception_is_not_retried env oid w e k err :
  files w !! file_of dir oid = None → k < 5 →
  (∀ i, i < k → a_get (env (S i)) (link oid) = GetRequestException (e i)) →
  a_get (env (S k)) (link oid) = GetException err →
  save_html dir env oid w
  = Some (Crash oid err,
          World (files w)
                (log w ++ ["ERROR: " +:+ oid +:+ " " +:+ err +:+ newline])
                (trace w ++ [EvExists (file_path dir oid) false]
                         ++ failed_attempts oid e (seq 0 k)
                         ++ [EvGet (link oid)])).
Proof.
  intros Hf Hk Hfail Herr.
  unfold save_html. rewrite save_html_from_S. cbn [worker_step].
  rewrite Hf. replace 9 with (k + (9 - k)) by lia.
  rewrite (retry_loop_prefix env oid e)
    by (first [lia | intros; apply Hfail; lia]).
  cbn [Nat.add].
  destruct (9 - k) as [|[|fuel]] eqn:Efuel; try lia.
  rewrite save_html_from_S. cbn [worker_step]. rewrite Herr.
  rewrite save_html_from_S. cbn [worker_step].
  unfold log_result, emit. cbn [files log trace].
  f_equal. f_equal. f_equal. by rewrite <- !app_assoc.
Qed.

(** X10: after a call of [save_html] that returned a success or a
    skip, the next call for the same item, or for any item whose path
    names the same file, finds the file and returns "Already saved"
    without a request, a write or a log record, whatever the site and
    the disk would answer. *)
Theorem X10_saved_item_is_skipped_next_time env env' oid oid' w r w' :
  save_html dir env oid w = Some (r, w') → outcome_of r ≠ Failed →
  file_of dir oid' = file_of dir oid →
  save_html dir env' oid' w'
  = Some (AlreadySaved oid', emit (EvExists (file_path dir oid') true) w').
Proof.
  intros H Hok Hsame. apply save_html_cached. rewrite Hsame.
  apply (save_html_from_inv
           (λ s w, has_saved s → is_Some (files w !! file_of dir oid))
           _ _ _ _ _ _ _ _ (λ a s, worker_move_has_saved dir a oid s) H);
    done.
Qed.

(** X11: [save_html] always returns, with a result for its own item;
    the result is a skip exactly when the file of the item existed at
    the call, and then nothing but the existence check happened; the
    log gets the record of the result, none for a skip. *)
Theorem X11_save_html_skips_exactly_the_cached env oid w :
  ∃ r w', save_html dir env oid w = Some (r, w')
    ∧ result_oid r = oid
    ∧ (outcome_of r = Skipped ↔ is_Some (files w !! file_of dir oid))
    ∧ (outcome_of r = Skipped →
       w' = emit (EvExists (file_path dir oid) true) w)
    ∧ log w' = log w ++ option_list (log_record r).
Proof.
  destruct (save_html_total dir env oid w) as [[r w'] H].
  exists r, w'. split; [done|].
  destruct (save_html_from_log _ _ _ _ _ _ _ _ H) as [Hlog Hoid].
  split; [done|].
  assert (outcome_of r = Skipped ↔ is_Some (files w !! file_of dir oid))
    as Hiff.
  { split.
    - intros Hs. destruct (files w !! file_of dir oid) eqn:Hf; [done|].
      exfalso.
      by apply (save_html_from_inv
               (λ s w, not_skipped s (files w !! file_of dir oid))
               _ _ _ _ _ _ _ _
               (λ a s, worker_move_not_skipped dir a oid s) H Hf).
    - intros Hc. rewrite (save_html_cached dir env oid w Hc) in H.
      by injection H as <- <-. }
  split; [done|]. split; [|done].
  intros Hs. apply Hiff in Hs.
  rewrite (save_html_cached dir env oid w Hs) in H.
  by injection H as <- <-.
Qed.

(** X19: a call of [save_html] that fails, after the retries or by an
    exception, appends one ERROR record for its item to the log, and
    unless it is [f.write] that failed it leaves the files as they
    were. *)
Theorem X19_failed_call_logs_an_error_and_writes_nothing env oid w r w' :
  save_html dir env oid w = Some (r, w') →
  outcome_of r = Failed →
  (∃ msg, log w' = log w ++ ["ERROR: " +:+ oid +:+ " " +:+ msg +:+ newline])
  ∧ ((∀ t, a_write (env t) (file_path dir oid) = None) →
     files w' = files w).
Proof.
  intros H Hr. split.
  - destruct (save_html_from_log _ _ _ _ _ _ _ _ H) as [-> Hoid].
    destruct r as [o|o|o|o e]; try done; cbn [result_oid] in Hoid; subst o.
    + by exists "Failed after retries".
    + by exists e.
  - intros Hw. by eapply save_html_failed.
Qed.

(** X20: the path that [save_html] checks and opens, and the URL it
    requests, tell the id: with a relative cache directory, as in both
    scripts, two different ids never give the same path nor the same
    URL, while two paths can still name one file: the ids "./a" and
    "a" have different paths, which are one file where [dir/./name]
    and [dir/name] are. For an id that starts
    with "/", [os.path.join] drops the cache directory: the path is
    the id with ".html" appended, an absolute path that does not
    begin with the cache directory. *)
Theorem X20_paths_and_links_tell_the_id (a b : string) :
  is_absolute dir = false →
  (file_path dir a = file_path dir b → a = b)
  ∧ (BASE_URL +:+ a = BASE_URL +:+ b → a = b)
  ∧ (is_absolute a = true →
     file_path dir a = a +:+ ".html"
     ∧ is_absolute (file_path dir a) = true
     ∧ (dir ≠ "" → ∀ rest, file_path dir a ≠ dir +:+ rest))
  ∧ file_path "htmls_2" "./a" ≠ file_path "htmls_2" "a"
  ∧ file_of (fs:=Examples.same_dot) "htmls_2" "./a"
    = file_of (fs:=Examples.same_dot) "htmls_2" "a".
Proof.
  intros Hrel. split_and!; [| | |done|done].
  - by apply file_path_inj.
  - apply link_inj.
  - intros Ha.
    assert (is_absolute (a +:+ ".html") = true) as Habs
      by (rewrite is_absolute_app; [done|]; by destruct a).
    assert (file_path dir a = a +:+ ".html") as ->
      by (unfold file_path; by apply path_join_absolute).
    split_and!; [done..|]. intros Hne rest Heq.
    rewrite Heq, is_absolute_app in Habs by done. congruence.
Qed.

End more_worker.

(** ** Discovery in the price-aware script, and the main blocks *)

Section more_discovery.
Import Worker Props More.
Context {fs : Naming}.

Lemma add_listings_app divs listings :
  ConcurPrice.add_listings divs listings = listings ++ omap listing_of divs.
Proof.
  unfold ConcurPrice.add_listings. revert listings.
  induction divs as [|d divs IH]; intros listings; cbn [foldl omap list_omap].
  - by rewrite app_nil_r.
  - rewrite IH. unfold listing_of at 2.
    destruct (truthy (ConcurPrice.data_objectid d)); [|done].
    by rewrite <- app_assoc.
Qed.

Lemma price_scrape_page web st p :
  ConcurPrice.scrape_page web st p
  = (st.1 ++ page_listings web p, st.2 ++ page_events web p).
Proof.
  destruct st as [listings tr].
  unfold ConcurPrice.scrape_page, page_listings, page_events.
  cbn [fst snd]. destruct (web p).
  - by rewrite app_nil_r, <- app_assoc.
  - by rewrite add_listings_app, <- app_assoc.
Qed.

Lemma price_scrape_pages web ps st :
  foldl (ConcurPrice.scrape_page web) st ps
  = (st.1 ++ (ps ≫= page_listings web), st.2 ++ (ps ≫= page_events web)).
Proof.
  revert st. induction ps as [|p ps IH]; intros st; cbn [foldl].
  - cbn [mbind list_bind]. rewrite !app_nil_r. by destruct st.
  - rewrite IH, price_scrape_page. cbn [fst snd].
    by rewrite !bind_cons, <- !app_assoc.
Qed.

Lemma price_scrape_property_links_eq web pages :
  ConcurPrice.scrape_property_links web pages
  = (page_range pages ≫= page_listings web,
     page_range pages ≫= page_events web).
Proof. unfold ConcurPrice.scrape_property_links. by rewrite price_scrape_pages. Qed.

Lemma listing_of_Some d l :
  listing_of d = Some l ↔
  ConcurPrice.data_objectid d = Some (ConcurPrice.object_id l)
  ∧ ConcurPrice.object_id l ≠ ""
  ∧ l = ConcurPrice.Listing (ConcurPrice.object_id l)
          (BASE_URL +:+ ConcurPrice.object_id l)
          (ConcurPrice.clean_price (ConcurPrice.pricetag d)).
Proof.
  unfold listing_of. split.
  - destruct (truthy (ConcurPrice.data_objectid d)) as [oid|] eqn:E; [|done].
    apply truthy_Some in E as [E Hne]. intros [= <-]. by cbn.
  - intros (E & Hne & ->). cbn in E.
    assert (truthy (ConcurPrice.data_objectid d)
            = Some (ConcurPrice.object_id l)) as -> by (by apply truthy_Some).
    done.
Qed.

(** X12: the price-aware [scrape_property_links] returns, page after
    page and in document order, one record for every price container
    whose id is not empty, with the id, the link of the detail page
    and the cleaned price; a page that raises adds no record and does
    not stop the loop, which requests every page of the range. *)
Theorem X12_price_listings_follow_the_pages (web : ConcurPrice.site) pages :
  let res := ConcurPrice.scrape_property_links web pages in
  res.1 = page_range pages ≫= page_listings web
  ∧ res.2 = page_range pages ≫= page_events web
  ∧ (∀ l, l ∈ res.1 ↔
          ∃ p divs d, (1 ≤ p ≤ pages)%Z ∧ web p = PageParsed divs ∧ d ∈ divs
            ∧ ConcurPrice.data_objectid d = Some (ConcurPrice.object_id l)
            ∧ ConcurPrice.object_id l ≠ ""
            ∧ ConcurPrice.link l = BASE_URL +:+ ConcurPrice.object_id l
            ∧ ConcurPrice.price l
              = ConcurPrice.clean_price (ConcurPrice.pricetag d))
  ∧ ∀ p, (1 ≤ p ≤ pages)%Z → EvGet (LISTING_URL p) ∈ res.2.
Proof.
  cbn zeta. rewrite price_scrape_property_links_eq. cbn [fst snd].
  split_and!; [done..| |].
  - intros l. rewrite list_elem_of_bind. split.
    + intros (p & Hl & Hp%page_range_elem). unfold page_listings in Hl.
      destruct (web p) as [e|divs] eqn:Hw; [by apply elem_of_nil in Hl|].
      apply list_elem_of_omap in Hl as (d & Hd & Hof).
      apply listing_of_Some in Hof as (Hid & Hne & Hl).
      exists p, divs, d. split; [done|]. split_and!; try done;
        destruct l as [o k pr];
        cbn [ConcurPrice.object_id ConcurPrice.link ConcurPrice.price] in *;
        congruence.
    + intros (p & divs & d & Hp & Hw & Hd & Hid & Hne & Hlink & Hprice).
      exists p. split; [|by apply page_range_elem].
      unfold page_listings. rewrite Hw. apply list_elem_of_omap.
      exists d. split; [done|]. apply listing_of_Some.
      split_and!; [done..|]. destruct l as [o k pr].
      cbn [ConcurPrice.object_id ConcurPrice.link ConcurPrice.price] in *.
      by subst.
  - intros p Hp. apply list_elem_of_bind. exists p.
    split; [|by apply page_range_elem].
    unfold page_events. set_solver.
Qed.

Lemma anchors_found (web : ConcurPrice.site) ps x :
  Concur.found_on (anchors_of web) ps x
  ↔ x ∈ ConcurPrice.object_id <$> (ps ≫= page_listings web).
Proof.
  unfold Concur.found_on, anchors_of.
  rewrite list_elem_of_fmap. setoid_rewrite list_elem_of_bind. split.
  - intros (p & anchors & Hp & Hw & Hx & Hne).
    destruct (web p) as [e|divs] eqn:Hweb; [done|]. simplify_eq.
    apply list_elem_of_fmap in Hx as (d & Hd & Hin).
    exists (ConcurPrice.Listing x (BASE_URL +:+ x)
              (ConcurPrice.clean_price (ConcurPrice.pricetag d))).
    split; [done|]. exists p. split; [|done].
    unfold page_listings. rewrite Hweb. apply list_elem_of_omap.
    exists d. split; [done|]. by apply listing_of_Some.
  - intros (l & -> & p & Hl & Hp). unfold page_listings in Hl.
    destruct (web p) as [e|divs] eqn:Hweb; [by apply elem_of_nil in Hl|].
    apply list_elem_of_omap in Hl as (d & Hd & Hof).
    apply listing_of_Some in Hof as (Hid & Hne & _).
    exists p, (ConcurPrice.data_objectid <$> divs).
    rewrite Hweb. split_and!; [done..| |done].
    apply list_elem_of_fmap. by exists d.
Qed.

(** X13: on pages whose anchors carry the ids of the price
    containers, the list of ids of [scraper_with_concur.py] is the
    list of ids of the records of the price-aware script with the
    duplicates removed and in ascending order. *)
Theorem X13_id_variant_sorts_and_dedups_the_price_ids
    (web : ConcurPrice.site) pages :
  (Concur.scrape_property_links (anchors_of web) pages).1
  = Concur.sorted
      (list_to_set (ConcurPrice.object_id
                      <$> (ConcurPrice.scrape_property_links web pages).1)).
Proof.
  rewrite scrape_property_links_eq, price_scrape_property_links_eq.
  cbn [fst]. apply ascending_unique;
    auto using sorted_StronglySorted, sorted_NoDup.
  intros x. rewrite !sorted_elem, scrape_loop_ids, elem_of_list_to_set.
  apply anchors_found.
Qed.

Lemma download_requests dir env w ids mw st :
  download_with_eta dir env w ids mw = inr st →
  result_oid <$> outcomes st ≡ₚ ids
  ∧ ∃ new, trace (shared st) = trace w ++ new
      ∧ request_count new ≤ 5 * length (outcomes st)
      ∧ ∀ url, EvGet url ∈ new →
               ∃ oid, oid ∈ result_oid <$> outcomes st
                      ∧ url = BASE_URL +:+ oid.
Proof.
  intros H. pose proof (download_outcomes _ _ _ _ _ _ H) as Hperm.
  split; [done|].
  destruct (download_frugal _ _ _ _ _ _ H)
    as (new & Hnew & _ & Hev & Hreq & _).
  exists new. split; [done|].
  assert (length (outcomes st) = length ids) as ->
    by (by rewrite <- Hperm, length_fmap).
  split; [lia|]. intros url Hin. rewrite Forall_forall in Hev.
  destruct (Hev _ Hin) as (oid & Hoid & ->). exists oid.
  by rewrite Hperm.
Qed.

(** X14: the main block of [scraper_with_concur.py] first runs the
    whole discovery, prints the number of ids, and then downloads:
    the outcomes are one per id found on a page that was fetched and
    parsed, with no id twice; the number printed is the number of
    outcomes; after the listing pages only detail pages of these ids
    are requested, at most five times per id. *)
Theorem X14_concur_main_one_outcome_per_found_id
    (web : Concur.site) env w pages mw st :
  Concur.main web env w pages mw = inr st →
  NoDup (result_oid <$> outcomes st)
  ∧ (∀ x, x ∈ result_oid <$> outcomes st
          ↔ Concur.found_on web (page_range pages) x)
  ∧ ∃ new, trace (shared st)
           = trace w ++ (page_range pages ≫= page_events web)
             ++ [EvPrint (Concur.found_line (length (outcomes st)))] ++ new
      ∧ request_count new ≤ 5 * length (outcomes st)
      ∧ ∀ url, EvGet url ∈ new →
               ∃ x, Concur.found_on web (page_range pages) x
                    ∧ url = BASE_URL +:+ x.
Proof.
  unfold Concur.main. rewrite scrape_property_links_eq.
  rewrite scrape_loop_trace. intros H.
  destruct (download_requests _ _ _ _ _ _ H)
    as (Hperm & new & Hnew & Hreq & Hurl).
  assert (∀ x, x ∈ result_oid <$> outcomes st
               ↔ Concur.found_on web (page_range pages) x) as Hfound.
  { intros x. by rewrite Hperm, sorted_elem, scrape_loop_ids. }
  split_and!.
  - rewrite Hperm. apply sorted_NoDup.
  - done.
  - exists new. split_and!; [|done|].
    + rewrite Hnew. cbn [trace].
      assert (length (outcomes st)
              = length (Concur.sorted (Concur.scrape_loop web pages).1))
        as -> by (by rewrite <- Hperm, length_fmap).
      by rewrite <- !app_assoc.
    + intros url Hin. destruct (Hurl _ Hin) as (x & Hx & ->).
      exists x. split; [|done]. by apply Hfound.
Qed.

(** X15: the main block of the price-aware script runs the whole
    discovery, prints the number of records and the line of the Excel
    file, and then downloads: the outcomes are one per record, an id
    found twice has two; after the listing pages only detail pages of
    these ids are requested, at most five times per record. *)
Theorem X15_price_main_one_outcome_per_record
    (web : ConcurPrice.site) env w pages mw st :
  ConcurPrice.main web env w pages mw = inr st →
  result_oid <$> outcomes st
    ≡ₚ ConcurPrice.object_id <$> (page_range pages ≫= page_listings web)
  ∧ ∃ new, trace (shared st)
           = trace w ++ (page_range pages ≫= page_events web)
             ++ [EvPrint (ConcurPrice.found_line (length (outcomes st)));
                 EvPrint ConcurPrice.saved_excel_line] ++ new
      ∧ request_count new ≤ 5 * length (outcomes st)
      ∧ ∀ url, EvGet url ∈ new →
               ∃ l, l ∈ page_range pages ≫= page_listings web
                    ∧ url = ConcurPrice.link l.
Proof.
  unfold ConcurPrice.main. rewrite price_scrape_property_links_eq.
  unfold ConcurPrice.download_with_eta. intros H.
  destruct (download_requests _ _ _ _ _ _ H)
    as (Hperm & new & Hnew & Hreq & Hurl).
  split; [done|]. exists new. split_and!; [|done|].
  - rewrite Hnew. cbn [trace].
    assert (length (outcomes st)
            = length (page_range pages ≫= page_listings web))
      as -> by (by rewrite <- (length_fmap result_oid), Hperm, length_fmap).
    by rewrite <- !app_assoc.
  - intros url Hin. destruct (Hurl _ Hin) as (x & Hx & ->).
    rewrite Hperm in Hx. apply list_elem_of_fmap in Hx as (l & -> & Hl).
    exists l. split; [done|].
    apply list_elem_of_bind in Hl as (p & Hl & _).
    unfold page_listings in Hl.
    destruct (web p) as [e|divs]; [by apply elem_of_nil in Hl|].
    apply list_elem_of_omap in Hl as (d & _ & Hof).
    apply listing_of_Some in Hof as (_ & _ & ->). done.
Qed.

Lemma requested_urls_pages {A} (web : Z → page_response A) ps :
  requested_urls (ps ≫= page_events web) = LISTING_URL <$> ps.
Proof.
  induction ps as [|p ps IH]; [done|].
  rewrite bind_cons, fmap_cons. unfold requested_urls in *.
  rewrite omap_app, IH. unfold page_events. by destruct (web p).
Qed.

Lemma listing_urls_lookup pages (i : nat) :
  (Z.of_nat i < pages)%Z →
  (LISTING_URL <$> page_range pages) !! i
  = Some ("https://www.bestfewo.de/laender/deutschland?page="
          +:+ pretty (Z.of_nat i + 1)%Z).
Proof.
  intros Hi. unfold page_range. rewrite list_lookup_fmap.
  rewrite lookup_seqZ_lt by lia. cbn [fmap option_fmap option_map].
  unfold LISTING_URL. do 3 f_equal. lia.
Qed.

(** X16: the discovery of either script makes [pages] requests, whether
    pages fail or not: the request number i, counting from 0, is for
    the listing page i + 1, at the URL of the listing followed by
    that number; with [pages] below one it requests nothing and
    returns the empty list. *)
Theorem X16_discovery_requests_each_page_once
    (web : Concur.site) (pweb : ConcurPrice.site) pages :
  let urls := requested_urls (Concur.scrape_property_links web pages).2 in
  let purls :=
    requested_urls (ConcurPrice.scrape_property_links pweb pages).2 in
  length urls = Z.to_nat pages
  ∧ length purls = Z.to_nat pages
  ∧ (∀ i : nat, (Z.of_nat i < pages)%Z →
       urls !! i
       = Some ("https://www.bestfewo.de/laender/deutschland?page="
               +:+ pretty (Z.of_nat i + 1)%Z)
       ∧ purls !! i
         = Some ("https://www.bestfewo.de/laender/deutschland?page="
                 +:+ pretty (Z.of_nat i + 1)%Z))
  ∧ ((pages < 1)%Z →
     Concur.scrape_property_links web pages = ([], [])
     ∧ ConcurPrice.scrape_property_links pweb pages = ([], [])).
Proof.
  cbn zeta.
  rewrite scrape_property_links_eq, price_scrape_property_links_eq.
  rewrite scrape_loop_trace. cbn [snd]. rewrite !requested_urls_pages.
  assert (length (LISTING_URL <$> page_range pages) = Z.to_nat pages) as Hlen
    by (unfold page_range; by rewrite length_fmap, length_seqZ).
  split_and!; [done..| |].
  - intros i Hi. split; by apply listing_urls_lookup.
  - intros Hp. unfold Concur.scrape_loop, page_range.
    replace (seqZ 1 pages) with (@nil Z); [done|].
    symmetry. apply length_zero_iff_nil. rewrite length_seqZ. lia.
Qed.

End more_discovery.

(** ** The text written to the spreadsheet, and the progress report *)

Section more_parser.
Import Parser.

Lemma remove_illegal_legal s : legal (remove_illegal s) = true.
Proof.
  induction s as [|c s IH]; [done|]. cbn [remove_illegal].
  destruct (illegal c) eqn:E; [done|]. cbn [legal]. by rewrite E, IH.
Qed.

Lemma remove_illegal_id s : legal s = true → remove_illegal s = s.
Proof.
  induction s as [|c s IH]; [done|]. cbn [legal remove_illegal].
  intros [Hc Hs]%andb_true_iff. apply negb_true_iff in Hc.
  by rewrite Hc, IH.
Qed.

Lemma remove_illegal_filter s :
  String.list_ascii_of_string (remove_illegal s)
  = filter (λ c, illegal c = false) (String.list_ascii_of_string s).
Proof.
  induction s as [|c s IH]; [done|].
  cbn [remove_illegal String.list_ascii_of_string]. rewrite filter_cons.
  destruct (illegal c) eqn:E; case_decide; try done.
  cbn [String.list_ascii_of_string]. by rewrite IH.
Qed.

Lemma filter_ascii_ext (P Q : ascii → Prop)
    `{!∀ x, Decision (P x)} `{!∀ x, Decision (Q x)} (l : list ascii) :
  (∀ x, P x ↔ Q x) → filter P l = filter Q l.
Proof.
  intros HPQ. induction l as [|x l IH]; [done|]. rewrite !filter_cons, IH.
  pose proof (HPQ x). destruct (decide (P x)), (decide (Q x)); tauto || done.
Qed.

Lemma illegal_false c :
  illegal c = false
  ↔ (nat_of_ascii c = 9 ∨ nat_of_ascii c = 10 ∨ nat_of_ascii c = 13
     ∨ 32 ≤ nat_of_ascii c).
Proof.
  unfold illegal. cbn zeta. generalize (nat_of_ascii c). intros n.
  rewrite !orb_false_iff, !andb_false_iff, !Nat.leb_gt. lia.
Qed.

Lemma legal_Forall s :
  legal s = true
  ↔ Forall (λ c, illegal c = false) (String.list_ascii_of_string s).
Proof.
  induction s as [|c s IH]; cbn [legal String.list_ascii_of_string].
  - split; [constructor|done].
  - rewrite andb_true_iff, negb_true_iff, Forall_cons. by rewrite IH.
Qed.

(** X17: [clean_text_for_excel] of a text returns the characters of
    the text whose code is 9 (tab), 10 (line feed), 13 (carriage
    return) or at least 32, in their order, and drops the others: a
    text of such characters only comes back unchanged and cleaning the
    result again changes nothing. For example the text a, U+000B, b,
    tab, c, U+001F becomes a, b, tab, c. [None] and NaN become "-";
    [pd.NA] raises a [TypeError]. *)
Theorem X17_clean_text_keeps_tab_newline_return_and_printable (v : cell) :
  (∀ s, v = Text s →
     ∃ out,
       clean_text_for_excel v = Some out
       ∧ String.list_ascii_of_string out
         = filter (λ c, nat_of_ascii c = 9 ∨ nat_of_ascii c = 10
                        ∨ nat_of_ascii c = 13 ∨ 32 ≤ nat_of_ascii c)
             (String.list_ascii_of_string s)
       ∧ clean_text_for_excel (Text out) = Some out
       ∧ ((∀ c, c ∈ String.list_ascii_of_string s →
                nat_of_ascii c = 9 ∨ nat_of_ascii c = 10
                ∨ nat_of_ascii c = 13 ∨ 32 ≤ nat_of_ascii c) →
          out = s))
  ∧ clean_text_for_excel (Text with_controls)
    = Some (String "a" (String "b" (String (ascii_of_nat 9) "c")))
  ∧ (v = NoneValue ∨ v = NaN → clean_text_for_excel v = Some "-")
  ∧ (v = NA → clean_text_for_excel v = None).
Proof.
  assert (∀ s, clean_text_for_excel (Text s) = Some (remove_illegal s))
    as Heq.
  { intros s. cbn [clean_text_for_excel]. by case_decide; subst. }
  split_and!.
  - intros s ->. exists (remove_illegal s). split_and!.
    + apply Heq.
    + rewrite remove_illegal_filter. apply filter_ascii_ext.
      apply illegal_false.
    + rewrite Heq. f_equal. apply remove_illegal_id, remove_illegal_legal.
    + intros Hs. apply remove_illegal_id, legal_Forall, Forall_forall.
      intros c Hc. by apply illegal_false, Hs.
  - done.
  - by intros [-> | ->].
  - by intros ->.
Qed.

End more_parser.

Section more_eta.
Import Eta.

Lemma eta_loop_filter n completed total k :
  k ≠ 0%Z →
  eta_loop n completed total k
  = Some (filter (λ c, (c `mod` k = 0)%Z ∨ c = total)
            (seqZ (completed + 1) (Z.of_nat n))).
Proof.
  intros Hk. revert completed.
  induction n as [|n IH]; intros completed; [done|].
  cbn [eta_loop]. unfold report_due. rewrite decide_False by done.
  rewrite IH, Nat2Z.inj_succ.
  rewrite (seqZ_cons (completed + 1) (Z.succ (Z.of_nat n))) by lia.
  rewrite filter_cons. replace (Z.pred (Z.succ (Z.of_nat n))) with (Z.of_nat n) by lia.
  replace (Z.succ (completed + 1)) with (completed + 1 + 1)%Z by lia.
  destruct (decide ((completed + 1) `mod` k = 0)%Z) as [Hm|Hm];
    destruct (decide (completed + 1 = total)%Z) as [Ht|Ht].
  - rewrite !bool_decide_eq_true_2, decide_True by auto. done.
  - rewrite bool_decide_eq_true_2, decide_True by auto. done.
  - rewrite (bool_decide_eq_true_2 (_ = total)), decide_True by auto.
    by rewrite orb_true_r.
  - rewrite !bool_decide_eq_false_2, decide_False by tauto. done.
Qed.

Lemma filter_ext_in {A} (P Q : A → Prop)
    `{!∀ x, Decision (P x)} `{!∀ x, Decision (Q x)} (l : list A) :
  (∀ x, x ∈ l → P x ↔ Q x) → filter P l = filter Q l.
Proof.
  induction l as [|x l IH]; intros Hl; [done|]. rewrite !filter_cons.
  rewrite IH by (intros y Hy; apply Hl; by right).
  pose proof (Hl x ltac:(by left)).
  destruct (decide (P x)), (decide (Q x)); tauto || done.
Qed.

Lemma multiples_count k m :
  (0 < k)%Z →
  Z.of_nat (length (filter (λ c, (c `mod` k = 0)%Z) (seqZ 1 (Z.of_nat m))))
  = (Z.of_nat m / k)%Z.
Proof.
  intros Hk. induction m as [|m IH]; [by rewrite Z.div_0_l by lia|].
  rewrite seqZ_S, filter_app, length_app, Nat2Z.inj_add, IH, Nat2Z.inj_succ.
  rewrite filter_cons, filter_nil.
  replace (1 + Z.of_nat m)%Z with (Z.succ (Z.of_nat m)) by lia.
  set (n := Z.of_nat m). assert (0 ≤ n)%Z by lia.
  pose proof (Z.div_mod n k ltac:(lia)) as Hn.
  pose proof (Z.mod_pos_bound n k Hk) as Hnb.
  pose proof (Z.div_mod (Z.succ n) k ltac:(lia)) as Hs.
  pose proof (Z.mod_pos_bound (Z.succ n) k Hk) as Hsb.
  case_decide as Hd; cbn [length].
  - rewrite Hd in Hs. nia.
  - nia.
Qed.

(** X18: in a run over at least one item the ETA lines are printed
    when the count of completed items is a multiple of
    [eta_interval], and always at the last completion, where nothing
    remains; for a positive interval that makes one report per full
    interval below the total plus the last one. With [eta_interval]
    0 the first completion raises a [ZeroDivisionError]; with no item
    the loop body never runs. *)
Theorem X18_eta_reports (items : nat) (eta_interval : Z) :
  reports 0 eta_interval = Some []
  ∧ (eta_interval = 0%Z → reports (S items) eta_interval = None)
  ∧ (eta_interval ≠ 0%Z →
     ∃ before,
       reports (S items) eta_interval
       = Some (before ++ [Z.of_nat (S items)])
       ∧ remaining (Z.of_nat (S items)) (Z.of_nat (S items)) = 0%Z
       ∧ before = filter (λ c, (c `mod` eta_interval = 0)%Z)
                    (seqZ 1 (Z.of_nat items))
       ∧ ((0 < eta_interval)%Z →
          Z.of_nat (length before) = (Z.of_nat items / eta_interval)%Z)).
Proof.
  split; [done|]. split.
  - intros ->. done.
  - intros Hk. eexists. split_and!; [| |done|].
    + unfold reports. rewrite eta_loop_filter by done.
      rewrite seqZ_S, filter_app.
      rewrite (filter_cons _ (0 + 1 + Z.of_nat items)%Z), filter_nil.
      rewrite decide_True by (right; lia).
      replace (0 + 1 + Z.of_nat items)%Z with (Z.of_nat (S items))
        by lia.
      f_equal. f_equal. apply filter_ext_in.
      intros c Hc%elem_of_seqZ. split; [|by left].
      intros [?|?]; [done|lia].
    + unfold remaining. lia.
    + intros Hpos. by apply multiples_count.
Qed.

End more_eta.

(** ** The price of a record *)

Section more_price.

Lemma string_app_cons x (a b : string) :
  String x a +:+ b = String x (a +:+ b).
Proof. done. Qed.

Lemma string_app_assoc (a b c : string) : a +:+ (b +:+ c) = (a +:+ b) +:+ c.
Proof.
  induction a as [|x a IH]; [done|]. rewrite !string_app_cons. by f_equal.
Qed.

Lemma string_app_nil_r (a : string) : a +:+ "" = a.
Proof.
  induction a as [|x a IH]; [done|]. rewrite string_app_cons. by f_equal.
Qed.

Lemma strip_prefix_Some p s r : strip_prefix p s = Some r ↔ s = p +:+ r.
Proof.
  revert s. induction p as [|a p IH]; intros s; cbn [strip_prefix].
  - change ("" +:+ r) with r. split; [by intros [= ->]|by intros ->].
  - rewrite string_app_cons. destruct s as [|b s]; [done|].
    destruct (decide (a = b)) as [->|Hab].
    + rewrite IH. split; [by intros ->|by intros [= ->]].
    + split; [done|]. intros [= ? ?]. by subst.
Qed.

Lemma drop_one_Some ws s r :
  drop_one ws s = Some r → ∃ w, w ∈ ws ∧ s = w +:+ r.
Proof.
  unfold drop_one. induction ws as [|w ws IH]; cbn [foldr]; [done|].
  destruct (strip_prefix w s) as [rest|] eqn:E.
  - intros [= ->]. exists w. split; [by left|]. by apply strip_prefix_Some.
  - intros (w' & ? & ?)%IH. exists w'. split; [by right|done].
Qed.

Lemma drop_one_None ws s w r :
  drop_one ws s = None → w ∈ ws → s ≠ w +:+ r.
Proof.
  unfold drop_one. induction ws as [|w' ws IH]; cbn [foldr];
    intros H Hw; [by apply elem_of_nil in Hw|].
  destruct (strip_prefix w' s) as [rest|] eqn:E; [done|].
  apply elem_of_cons in Hw as [->|Hw]; [|by apply IH].
  intros Hs%strip_prefix_Some. congruence.
Qed.

Lemma lstrip_go_stripped ws fuel s :
  Forall (λ w, w ≠ "") ws → String.length s ≤ fuel →
  drop_one ws (lstrip_go fuel ws s) = None.
Proof.
  intros Hws. revert s. induction fuel as [|fuel IH]; intros s Hlen.
  - destruct s; [|simpl in Hlen; lia]. cbn [lstrip_go].
    destruct (drop_one ws "") as [r|] eqn:E; [|done].
    apply drop_one_Some in E as (w & Hw & Hs).
    rewrite Forall_forall in Hws. specialize (Hws w Hw). by destruct w.
  - cbn [lstrip_go]. destruct (drop_one ws s) as [rest|] eqn:E; [|done].
    apply IH. apply drop_one_Some in E as (w & Hw & ->).
    rewrite Forall_forall in Hws. specialize (Hws w Hw).
    rewrite string_app_length in Hlen. destruct w; [done|].
    simpl in Hlen. lia.
Qed.

Lemma lstrip_go_suffix ws fuel s : ∃ p, s = p +:+ lstrip_go fuel ws s.
Proof.
  revert s. induction fuel as [|fuel IH]; intros s; [by exists ""|].
  cbn [lstrip_go]. destruct (drop_one ws s) as [rest|] eqn:E; [|by exists ""].
  apply drop_one_Some in E as (w & _ & ->).
  destruct (IH rest) as [p Hp]. exists (w +:+ p).
  by rewrite <- string_app_assoc, <- Hp.
Qed.

Lemma rev_app_spec s1 s2 : String.rev_app s1 s2 = String.rev s1 +:+ s2.
Proof.
  unfold String.rev. revert s2.
  induction s1 as [|a s1 IH]; intros s2; cbn [String.rev_app]; [done|].
  rewrite (IH (String a s2)), (IH (String a "")).
  by rewrite <- string_app_assoc.
Qed.

Lemma rev_cons a s : String.rev (String a s) = String.rev s +:+ String a "".
Proof.
  unfold String.rev at 1. cbn [String.rev_app]. by rewrite rev_app_spec.
Qed.

Lemma rev_append s1 s2 :
  String.rev (s1 +:+ s2) = String.rev s2 +:+ String.rev s1.
Proof.
  induction s1 as [|a s1 IH].
  - change ("" +:+ s2) with s2. change (String.rev "") with "".
    by rewrite string_app_nil_r.
  - by rewrite string_app_cons, !rev_cons, IH, string_app_assoc.
Qed.

Lemma rev_involutive s : String.rev (String.rev s) = s.
Proof.
  induction s as [|a s IH]; [done|]. by rewrite rev_cons, rev_append, IH.
Qed.

Lemma rev_length s : String.length (String.rev s) = String.length s.
Proof.
  induction s as [|a s IH]; [done|].
  rewrite rev_cons, string_app_length, IH. simpl. lia.
Qed.

Lemma whitespace_not_empty :
  Forall (λ w, w ≠ "") whitespace
  ∧ Forall (λ w, w ≠ "") (String.rev <$> whitespace).
Proof. split; repeat (constructor; [discriminate|]); constructor. Qed.

Lemma strip_stripped s w r :
  w ∈ whitespace → strip s ≠ w +:+ r ∧ strip s ≠ r +:+ w.
Proof.
  intros Hw. destruct whitespace_not_empty as [Hne Hne'].
  unfold strip, rstrip. set (t := lstrip s).
  assert (drop_one whitespace t = None) as Hlead
    by (by apply lstrip_go_stripped).
  set (u := lstrip_go _ _ (String.rev t)).
  assert (drop_one (String.rev <$> whitespace) u = None) as Htrail
    by (apply lstrip_go_stripped; [done|by rewrite rev_length]).
  split.
  - intros Hs.
    destruct (lstrip_go_suffix (String.rev <$> whitespace)
                (String.length t) (String.rev t)) as [p Hp].
    fold u in Hp. apply (f_equal String.rev) in Hp.
    rewrite rev_involutive, rev_append, Hs in Hp.
    rewrite <- string_app_assoc in Hp.
    by eapply drop_one_None in Hp.
  - intros Hs. apply (f_equal String.rev) in Hs.
    rewrite rev_involutive, rev_append in Hs.
    eapply drop_one_None in Hs; [done..|].
    apply list_elem_of_fmap. by exists w.
Qed.

(** X22: the price of a record neither starts nor ends with a
    character that [str.strip] removes: U+0009 to U+000D, U+001C to
    U+0020, U+0085, the non-breaking space U+00A0, U+1680, U+2000 to
    U+200A, U+2028, U+2029, U+202F, U+205F and U+3000. For example
    the tag text "ab 50 €" gives the price "50 €". *)
Theorem X22_price_is_trimmed (tag : option string) (cp : N) (r : string) :
  cp ∈ [9; 10; 11; 12; 13; 28; 29; 30; 31; 32; 133; 160; 5760;
        8192; 8193; 8194; 8195; 8196; 8197; 8198; 8199; 8200; 8201; 8202;
        8232; 8233; 8239; 8287; 12288]%N →
  ConcurPrice.clean_price tag ≠ utf8 cp +:+ r
  ∧ ConcurPrice.clean_price tag ≠ r +:+ utf8 cp
  ∧ ConcurPrice.clean_price (Some "ab 50 €") = "50 €".
Proof.
  intros Hcp.
  assert (utf8 cp ∈ whitespace) as Hw.
  { repeat (apply elem_of_cons in Hcp as [->|Hcp]);
      [apply list_elem_of_In; vm_compute; tauto ..|].
    by apply elem_of_nil in Hcp. }
  destruct tag as [text|]; cbn [ConcurPrice.clean_price].
  - destruct (strip_stripped (replace nbsp "" (replace "ab" "" text))
                (utf8 cp) r Hw).
    by split_and!; [..|vm_compute].
  - change "N/A" with (strip "N/A") at 1 2.
    destruct (strip_stripped "N/A" (utf8 cp) r Hw).
    by split_and!; [..|vm_compute].
Qed.

End more_price.

(** ** Files that a run finds *)

Section found_files.
Import Worker Props More.
Context {fs : Naming}.


End found_files.

(** ** The further properties on the example inputs *)

Section more_examples.
Import Worker Props More Examples MoreExamples.

(** The examples of this section are on a file system on which every
    path names a file of its own. *)
#[local] Existing Instance by_path.

Lemma X1_witness :
  ∃ st, Concur.download_with_eta serves_B cache_A ["A"; "B"; "C"] 8 = inr st
    ∧ dom (files cache_A) ⊆ dom (files (shared st)).
Proof.
  assert (∃ st, Concur.download_with_eta serves_B cache_A ["A"; "B"; "C"] 8
                = inr st)
    as [st E] by (eexists; vm_compute; reflexivity).
  exists st. split; [exact E|].
  destruct (X1_run_only_appends_and_stays_in_its_cache
              "htmls_2" serves_B cache_A ["A"; "B"; "C"] 8 st E)
    as (_ & _ & H & _).
  exact H.
Defined.

Lemma X2_witness :
  ∃ st, Concur.download_with_eta serves_all empty_world ["A"; "B"] 2 = inr st
    ∧ distinct_files "htmls_2" ["A"; "B"]
    ∧ (∀ oid, oid ∈ ["A"; "B"] →
              files empty_world !! file_of "htmls_2" oid = None)
    ∧ ∀ r, r ∈ outcomes st → outcome_of r ≠ Skipped.
Proof.
  assert (∃ st, Concur.download_with_eta serves_all empty_world ["A"; "B"] 2
                = inr st)
    as [st E] by (eexists; vm_compute; reflexivity).
  assert (distinct_files "htmls_2" ["A"; "B"]) as Hnd
    by (apply (bool_decide_unpack _); vm_compute; exact I).
  assert (∀ oid, oid ∈ ["A"; "B"] →
                 files empty_world !! file_of "htmls_2" oid = None) as Hc
    by (intros oid _; apply lookup_empty).
  exists st. split; [exact E|]. split; [exact Hnd|]. split; [exact Hc|].
  destruct (X2_log_complete_for_distinct_uncached_items
              "htmls_2" serves_all empty_world ["A"; "B"] 2 st
              E Hnd Hc) as [H _].
  exact H.
Defined.

Lemma X3_witness :
  ∃ st, Concur.download_with_eta serves_all empty_world ["A"; "B"] 2 = inr st
    ∧ NoDup ["A"; "B"]
    ∧ alone "htmls_2" ["A"; "B"] "A"
    ∧ Saved "A" ∈ outcomes st
    ∧ ∃ t text, a_get (serves_all t) (link "A") = GetOk text
        ∧ files (shared st) !! file_of "htmls_2" "A" = Some text.
Proof.
  assert (∃ st, Concur.download_with_eta serves_all empty_world ["A"; "B"] 2
                = inr st ∧ Saved "A" ∈ outcomes st)
    as (st & E & Hs).
  { eexists. split; [vm_compute; reflexivity|]. vm_compute.
    apply list_elem_of_In. vm_compute. tauto. }
  assert (NoDup ["A"; "B"]) as Hnd
    by (apply (bool_decide_unpack _); vm_compute; exact I).
  assert (alone "htmls_2" ["A"; "B"] "A") as Ha.
  { intros o _. apply (file_path_inj "htmls_2" eq_refl). }
  exists st. split; [exact E|]. split; [exact Hnd|]. split; [exact Ha|].
  split; [exact Hs|].
  exact (X3_saved_item_holds_a_served_page
           "htmls_2" serves_all empty_world ["A"; "B"] 2 st "A"
           E Hnd Ha Hs).
Defined.

Lemma X4_witness :
  ∃ st new,
    Concur.download_with_eta serves_B cache_A ["A"; "B"; "C"] 8 = inr st
    ∧ trace (shared st) = trace cache_A ++ new
    ∧ request_count new ≤ 15.
Proof.
  assert (∃ st, Concur.download_with_eta serves_B cache_A ["A"; "B"; "C"] 8
                = inr st)
    as [st E] by (eexists; vm_compute; reflexivity).
  destruct (X4_at_most_five_requests_per_item
              "htmls_2" serves_B cache_A ["A"; "B"; "C"] 8 st E)
    as (new & H1 & H2 & _).
  exists st, new. split; [exact E|]. split; [exact H1|exact H2].
Defined.

Lemma X5_witness :
  ∃ st new,
    Concur.download_with_eta serves_B cache_A ["A"; "B"; "C"] 8 = inr st
    ∧ trace (shared st) = trace cache_A ++ new
    ∧ sum_list_with backoff_seconds new ≤ 93.
Proof.
  assert (∃ st, Concur.download_with_eta serves_B cache_A ["A"; "B"; "C"] 8
                = inr st)
    as [st E] by (eexists; vm_compute; reflexivity).
  destruct (X5_backoff_is_bounded
              "htmls_2" serves_B cache_A ["A"; "B"; "C"] 8 st E)
    as (new & H1 & _ & H2).
  exists st, new. split; [exact E|]. split; [exact H1|exact H2].
Defined.

Lemma X6_witness :
  ∃ st, Concur.download_with_eta serves_all empty_world ["A"; "B"] 2 = inr st
    ∧ Saved "A" ∈ outcomes st
    ∧ outcome_of (Saved "A") ≠ Failed
    ∧ is_Some (files (shared st) !! file_of "htmls_2" "A").
Proof.
  assert (∃ st, Concur.download_with_eta serves_all empty_world ["A"; "B"] 2
                = inr st ∧ Saved "A" ∈ outcomes st)
    as (st & E & Hs).
  { eexists. split; [vm_compute; reflexivity|]. vm_compute.
    apply list_elem_of_In. vm_compute. tauto. }
  assert (outcome_of (Saved "A") ≠ Failed) as Hok by discriminate.
  exists st. split; [exact E|]. split; [exact Hs|]. split; [exact Hok|].
  exact (X6_outcome_without_failure_has_its_file
           "htmls_2" serves_all empty_world ["A"; "B"] 2 st (Saved "A")
           E Hs Hok).
Defined.

Lemma X8_witness :
  files empty_world !! file_of "htmls_2" "B" = None
  ∧ a_get (recovers 1) (link "B") = GetRequestException "timeout"
  ∧ a_get (recovers 2) (link "B") = GetRequestException "timeout"
  ∧ a_get (recovers 3) (link "B") = GetOk "<html>B</html>"
  ∧ Concur.save_html recovers "B" empty_world
    = Some (Saved "B",
            World {[ file_of "htmls_2" "B" := "<html>B</html>" ]}
                  ["SUCCESS: B " +:+ newline]
                  [EvExists (file_path "htmls_2" "B") false;
                   EvGet (link "B"); EvPrint (retry_line 0 "B" "timeout");
                   EvSleepBackoff "B" 1;
                   EvGet (link "B"); EvPrint (retry_line 1 "B" "timeout");
                   EvSleepBackoff "B" 2;
                   EvGet (link "B"); EvSleepDelay]).
Proof.
  assert (files empty_world !! file_of "htmls_2" "B" = None) as Hf
    by apply lookup_empty.
  assert (∀ i, i < 2 → a_get (recovers (S i)) (link "B")
                       = GetRequestException ((λ _, "timeout") i)) as Hfail
    by (intros [|[|i]] Hi; [reflexivity|reflexivity|lia]).
  split; [exact Hf|]. split; [reflexivity|]. split; [reflexivity|].
  split; [reflexivity|].
  exact (X8_retry_then_success "htmls_2" recovers "B" empty_world
           (λ _, "timeout") 2 "<html>B</html>" Hf ltac:(lia) Hfail eq_refl
           (λ _, eq_refl) (λ _, eq_refl) (λ _, eq_refl)).
Defined.

Lemma X9_witness :
  files empty_world !! file_of "htmls_2" "B" = None
  ∧ a_get (breaks 1) (link "B") = GetRequestException "timeout"
  ∧ a_get (breaks 2) (link "B") = GetException "unexpected"
  ∧ Concur.save_html breaks "B" empty_world
    = Some (Crash "B" "unexpected",
            World ∅ ["ERROR: B unexpected" +:+ newline]
                  [EvExists (file_path "htmls_2" "B") false;
                   EvGet (link "B"); EvPrint (retry_line 0 "B" "timeout");
                   EvSleepBackoff "B" 1;
                   EvGet (link "B")]).
Proof.
  assert (files empty_world !! file_of "htmls_2" "B" = None) as Hf
    by apply lookup_empty.
  assert (∀ i, i < 1 → a_get (breaks (S i)) (link "B")
                       = GetRequestException ((λ _, "timeout") i)) as Hfail
    by (intros [|i] Hi; [reflexivity|lia]).
  split; [exact Hf|]. split; [reflexivity|]. split; [reflexivity|].
  exact (X9_other_exception_is_not_retried "htmls_2" breaks "B" empty_world
           (λ _, "timeout") 1 "unexpected" Hf ltac:(lia) Hfail eq_refl).
Defined.

Lemma X10_witness :
  ∃ w', Worker.save_html (fs:=same_dot) "htmls_2" serves_all "a" empty_world
        = Some (Saved "a", w')
    ∧ outcome_of (Saved "a") ≠ Failed
    ∧ file_of (fs:=same_dot) "htmls_2" "./a"
      = file_of (fs:=same_dot) "htmls_2" "a"
    ∧ Worker.save_html (fs:=same_dot) "htmls_2" serves_B "./a" w'
      = Some (AlreadySaved "./a",
              emit (EvExists "htmls_2/./a.html" true) w').
Proof.
  assert (∃ w', Worker.save_html (fs:=same_dot) "htmls_2" serves_all "a"
                  empty_world
                = Some (Saved "a", w'))
    as [w' E] by (eexists; vm_compute; reflexivity).
  assert (outcome_of (Saved "a") ≠ Failed) as Hok by discriminate.
  exists w'. split; [exact E|]. split; [exact Hok|].
  split; [reflexivity|].
  exact (X10_saved_item_is_skipped_next_time (fs:=same_dot)
           "htmls_2" serves_all serves_B "a" "./a" empty_world (Saved "a") w'
           E Hok eq_refl).
Defined.

Lemma X14_witness :
  ∃ st, Concur.main three_pages serves_all empty_world 3 8 = inr st
    ∧ NoDup (result_oid <$> outcomes st)
    ∧ ∀ x, x ∈ result_oid <$> outcomes st
           ↔ Concur.found_on three_pages (page_range 3) x.
Proof.
  assert (∃ st, Concur.main three_pages serves_all empty_world 3 8 = inr st)
    as [st E] by (eexists; vm_compute; reflexivity).
  destruct (X14_concur_main_one_outcome_per_found_id
              three_pages serves_all empty_world 3 8 st E)
    as (H1 & H2 & _).
  exists st. split; [exact E|]. split; [exact H1|exact H2].
Defined.

Lemma X15_witness :
  ∃ st, ConcurPrice.main two_pages_A serves_all empty_world 2 8 = inr st
    ∧ result_oid <$> outcomes st
      ≡ₚ ConcurPrice.object_id
           <$> (page_range 2 ≫= page_listings two_pages_A).
Proof.
  assert (∃ st, ConcurPrice.main two_pages_A serves_all empty_world 2 8
                = inr st)
    as [st E] by (eexists; vm_compute; reflexivity).
  destruct (X15_price_main_one_outcome_per_record
              two_pages_A serves_all empty_world 2 8 st E) as [H _].
  exists st. split; [exact E|exact H].
Defined.

Lemma X19_witness :
  ∃ w', Concur.save_html serves_B "C" empty_world
        = Some (FailedAfterRetries "C", w')
    ∧ outcome_of (FailedAfterRetries "C") = Failed
    ∧ (∀ t, a_write (serves_B t) (file_path "htmls_2" "C") = None)
    ∧ files w' = files empty_world.
Proof.
  assert (∃ w', Concur.save_html serves_B "C" empty_world
                = Some (FailedAfterRetries "C", w'))
    as [w' E] by (eexists; vm_compute; reflexivity).
  exists w'. split; [exact E|]. split; [reflexivity|].
  split; [intros t; reflexivity|].
  destruct (X19_failed_call_logs_an_error_and_writes_nothing
              "htmls_2" serves_B "C" empty_world (FailedAfterRetries "C") w'
              E eq_refl) as [_ H].
  exact (H (λ _, eq_refl)).
Defined.

Lemma X20_witness :
  is_absolute "htmls_2" = false
  ∧ is_absolute "/tmp/x" = true
  ∧ file_path "htmls_2" "/tmp/x" = "/tmp/x.html"
  ∧ ∀ rest, file_path "htmls_2" "/tmp/x" ≠ "htmls_2" +:+ rest.
Proof.
  split; [reflexivity|]. split; [reflexivity|].
  destruct (X20_paths_and_links_tell_the_id "htmls_2" "/tmp/x" "a10" eq_refl)
    as (_ & _ & H & _).
  destruct (H eq_refl) as (H1 & _ & H2).
  split; [exact H1|]. apply H2. discriminate.
Defined.

Lemma X21_witness :
  ∃ st new,
    Concur.download_with_eta serves_B cache_A ["A"; "B"; "C"] 8 = inr st
    ∧ trace (shared st) = trace cache_A ++ new
    ∧ filter (λ e, is_start e = true) new = EvStart <$> ["A"; "B"; "C"].
Proof.
  assert (∃ st, Concur.download_with_eta serves_B cache_A ["A"; "B"; "C"] 8
                = inr st)
    as [st E] by (eexists; vm_compute; reflexivity).
  destruct (X21_items_are_taken_in_list_order
              "htmls_2" serves_B cache_A ["A"; "B"; "C"] 8 st E)
    as (new & H1 & _ & H2).
  exists st, new. split; [exact E|]. split; [exact H1|exact H2].
Defined.

Lemma X22_witness :
  ConcurPrice.clean_price (Some "ab 50 €") ≠ utf8 32 +:+ "50 €"
  ∧ ConcurPrice.clean_price (Some "ab 50 €") ≠ "50 €" +:+ utf8 160
  ∧ utf8 32 = " " ∧ utf8 160 = nbsp.
Proof.
  destruct (X22_price_is_trimmed (Some "ab 50 €") 32 "50 €") as (H1 & _ & _);
    [apply list_elem_of_In; vm_compute; tauto|].
  split; [exact H1|].
  destruct (X22_price_is_trimmed (Some "ab 50 €") 160 "50 €") as (_ & H2 & _);
    [apply list_elem_of_In; vm_compute; tauto|].
  split; [exact H2|]. split; reflexivity.
Defined.


End more_examples.
